(** * Chase -> Pipefy database sync: a shallow embedding of
      [sync_chase_to_pipefy_db.py] and the properties of its reconciliation,
      sanitization, mutation building, batching and transport code.

    Python values are modelled as follows.
    - [str] is [string]; a character is a code point below 256, so the
      character classes below are Python's Unicode classes restricted to
      that range.
    - scalar values ([None], [bool], [int], [str]) are [pyval]; floats are
      left out.
    - a [dict] is an association list in insertion order ([dict V]).
    - parsed JSON is [json].
    - the global state (the Done-phase cache), the network and the log are
      a [world], threaded by the monad [M]; an uncaught Python exception is
      the outcome [Raise]. *)

From Stdlib Require Import String Ascii List ZArith Lia Bool Arith PeanoNat.
From Stdlib Require Import DecimalString DecimalNat DecimalPos.
Import ListNotations.
Open Scope string_scope.
Open Scope list_scope.

Set Implicit Arguments.

(* ================================================================== *)
(** ** Characters and strings *)
(* ================================================================== *)

Module PyStr.

(** Named characters; the double quote and the backslash are written by
    their code so that no literal needs escaping. *)
Definition ch_tab : ascii := "009"%char.
Definition ch_nl : ascii := "010"%char.
Definition ch_cr : ascii := "013"%char.
Definition ch_space : ascii := " "%char.
Definition ch_dquote : ascii := "034"%char.
Definition ch_backslash : ascii := "092"%char.
Definition ch_underscore : ascii := "_"%char.

Definition str1 (c : ascii) : string := String c EmptyString.

Definition code (c : ascii) : nat := nat_of_ascii c.

Definition between (lo hi n : nat) : bool := Nat.leb lo n && Nat.leb n hi.

(** [str.isspace] on one character: what [str.split()] and [str.strip()]
    treat as whitespace. *)
Definition isspace (c : ascii) : bool :=
  let n := code c in
  between 9 13 n || between 28 32 n || (Nat.eqb n 133) || (Nat.eqb n 160).

(** [\d] of [re] on a [str] pattern: the decimal digits. *)
Definition isdigit (c : ascii) : bool := between 48 57 (code c).

(** [\w] of [re] on a [str] pattern: alphanumeric characters and the
    underscore. *)
Definition isword (c : ascii) : bool :=
  let n := code c in
  between 48 57 n || between 65 90 n || between 97 122 n || (Nat.eqb n 95)
  || (Nat.eqb n 170) || (Nat.eqb n 178) || (Nat.eqb n 179) || (Nat.eqb n 181) || (Nat.eqb n 185)
  || (Nat.eqb n 186) || between 188 190 n || between 192 214 n
  || between 216 246 n || between 248 255 n.

(** [str.lower] on one character. *)
Definition lower_char (c : ascii) : ascii :=
  let n := code c in
  if between 65 90 n || (between 192 222 n && negb (Nat.eqb n 215))
  then ascii_of_nat (n + 32) else c.

Fixpoint lower (s : string) : string :=
  match s with
  | EmptyString => EmptyString
  | String c r => String (lower_char c) (lower r)
  end.

Definition is_empty (s : string) : bool :=
  match s with EmptyString => true | _ => false end.

(** [all(p(c) for c in s)] *)
Fixpoint all_chars (p : ascii -> bool) (s : string) : bool :=
  match s with
  | EmptyString => true
  | String c r => p c && all_chars p r
  end.

(** [s.split()]: the maximal runs of non-whitespace characters.  [word] is
    the run being read. *)
Fixpoint split_from (word : string) (s : string) : list string :=
  match s with
  | EmptyString => if is_empty word then [] else [word]
  | String c r =>
      if isspace c
      then (if is_empty word then split_from EmptyString r
            else word :: split_from EmptyString r)
      else split_from (word ++ str1 c) r
  end.

Definition split (s : string) : list string := split_from EmptyString s.

(** [sep.join(l)] *)
Fixpoint join (sep : string) (l : list string) : string :=
  match l with
  | [] => EmptyString
  | [w] => w
  | w :: ws => w ++ sep ++ join sep ws
  end.

(** [s.strip()] *)
Fixpoint lstrip (s : string) : string :=
  match s with
  | EmptyString => EmptyString
  | String c r => if isspace c then lstrip r else s
  end.

Fixpoint rstrip (s : string) : string :=
  match s with
  | EmptyString => EmptyString
  | String c r =>
      match rstrip r with
      | EmptyString => if isspace c then EmptyString else str1 c
      | r' => String c r'
      end
  end.

Definition strip (s : string) : string := rstrip (lstrip s).

(** [s.replace(c, r)] for a one-character pattern [c]. *)
Fixpoint replace_char (c : ascii) (r : string) (s : string) : string :=
  match s with
  | EmptyString => EmptyString
  | String a t =>
      ((if Ascii.eqb a c then r else str1 a) ++ replace_char c r t)%string
  end.

(** [re.sub(r'\W|^(?=\d)', '_', s)]: every non-word character becomes an
    underscore, and an underscore is put in front of a leading digit. *)
Fixpoint sub_nonword (s : string) : string :=
  match s with
  | EmptyString => EmptyString
  | String c r => String (if isword c then c else ch_underscore) (sub_nonword r)
  end.

Definition re_sub_identifier (s : string) : string :=
  match s with
  | String c _ => if isdigit c then String ch_underscore (sub_nonword s)
                  else sub_nonword s
  | EmptyString => EmptyString
  end.

(** [str(n)] for a non-negative [int] such as a loop index. *)
Definition str_nat (n : nat) : string := NilEmpty.string_of_uint (Nat.to_uint n).

(** [str(z)] for an [int]. *)
Definition str_Z (z : Z) : string := NilEmpty.string_of_int (Z.to_int z).

End PyStr.
Import PyStr.

(* ================================================================== *)
(** ** Values, dictionaries, JSON *)
(* ================================================================== *)

Inductive pyval : Type :=
| PNone
| PBool (b : bool)
| PInt (z : Z)
| PStr (s : string).

(** [str(v)] *)
Definition py_str (v : pyval) : string :=
  match v with
  | PNone => "None"
  | PBool true => "True"
  | PBool false => "False"
  | PInt z => str_Z z
  | PStr s => s
  end.

(** [bool(v)] *)
Definition truthy (v : pyval) : bool :=
  match v with
  | PNone => false
  | PBool b => b
  | PInt z => negb (z =? 0)%Z
  | PStr s => negb (is_empty s)
  end.

(** [v == s] for a string [s]: only an equal [str] compares equal. *)
Definition eq_str (v : pyval) (s : string) : bool :=
  match v with
  | PStr t => (t =? s)%string
  | _ => false
  end.

Definition dict (V : Type) : Type := list (string * V).

Section Dict.
Variable V : Type.

(** [d.get(k)] as an option *)
Fixpoint dict_get (d : dict V) (k : string) : option V :=
  match d with
  | [] => None
  | (k', v) :: r => if (k' =? k)%string then Some v else dict_get r k
  end.

(** [k in d] *)
Definition dict_mem (k : string) (d : dict V) : bool :=
  match dict_get d k with Some _ => true | None => false end.

(** [d[k] = v]: an existing key keeps its place. *)
Fixpoint dict_set (d : dict V) (k : string) (v : V) : dict V :=
  match d with
  | [] => [(k, v)]
  | (k', v') :: r =>
      if (k' =? k)%string then (k, v) :: r else (k', v') :: dict_set r k v
  end.

(** [d.get(k, default)] *)
Definition dict_get_default (d : dict V) (k : string) (default : V) : V :=
  match dict_get d k with Some v => v | None => default end.
End Dict.

(** A source or destination record: attribute name to value. *)
Definition record : Type := dict pyval.

(** [record.get(k)] *)
Definition rget (r : record) (k : string) : pyval := dict_get_default r k PNone.

(** [k in l] for a list of strings *)
Definition str_in (k : string) (l : list string) : bool :=
  existsb (fun x => (x =? k)%string) l.

(* ================================================================== *)
(** ** sanitize_graphql_string *)
(* ================================================================== *)

(** [' '.join(s.split())] *)
Definition normalize_ws (s : string) : string := join " " (split s).

(** The chain of five [replace] calls. *)
Definition escape (s : string) : string :=
  replace_char ch_tab (String ch_backslash "t")
    (replace_char ch_cr (String ch_backslash "r")
      (replace_char ch_nl (String ch_backslash "n")
        (replace_char ch_dquote (String ch_backslash (str1 ch_dquote))
          (replace_char ch_backslash (String ch_backslash (str1 ch_backslash)) s)))).

Definition sanitize_graphql_string (value : pyval) : string :=
  match value with
  | PNone => EmptyString
  | _ => escape (normalize_ws (py_str value))
  end.


(* ================================================================== *)
(** ** JSON, exceptions, the world and its monad *)
(* ================================================================== *)

#[local] Set Warnings "-register-all".

(** A parsed JSON document; an object is a Python [dict]. *)
Inductive json : Type :=
| JVal (v : pyval)
| JList (l : list json)
| JDict (d : list (string * json)).

Definition JNone : json := JVal PNone.

Definition is_nil {A : Type} (l : list A) : bool :=
  match l with [] => true | _ => false end.

(** [bool(j)] *)
Definition json_truthy (j : json) : bool :=
  match j with
  | JVal v => truthy v
  | JList l => negb (is_nil l)
  | JDict d => negb (is_nil d)
  end.

(** [j is None] *)
Definition json_is_none (j : json) : bool :=
  match j with JVal PNone => true | _ => false end.

(** The Python exceptions the modelled code can let escape.  [Unsupported]
    marks the one place the model does not follow: [str] of a list or
    object. *)
Inductive exn : Type := AttributeError | TypeError | KeyError | Unsupported.

Inductive outcome (A : Type) : Type :=
| Ret (a : A)
| Raise (e : exn).
Arguments Ret {A} a.
Arguments Raise {A} e.

(** What one [session.post] to Pipefy, followed by [raise_for_status] and
    [response.json()], comes to: the parsed body, which is whatever JSON
    the server sent, or the [except] clause that catches what was raised,
    the first that matches of [Timeout] and [RequestException] (with the
    status of [e.response], if there is one, and the text of [e]). *)
Inductive post_attempt : Type :=
| PostJson (body : json)
| PostTimeout
| PostRequestError (status : option nat) (text : string).

(** A body that is not JSON.  What [response.json()] raises on it is
    [requests.exceptions.JSONDecodeError] (requests 2.27 and later), a
    [RequestException] that carries no response: the clause [except
    RequestException] catches it, and the clause [except
    json.JSONDecodeError] that follows is never reached, so that it has no
    counterpart here. *)
Definition post_not_json (text : string) : post_attempt :=
  PostRequestError None text.

(** The same for one [session.get] to Chase; [GetEmpty] is a response
    without content. *)
Inductive get_attempt : Type :=
| GetJson (body : json)
| GetEmpty
| GetTimeout
| GetRequestError (status : option nat).

(** A body that is not JSON, in the same way. *)
Definition get_not_json : get_attempt := GetRequestError None.

(** The JSON body of a Pipefy request: [query] and, for queries with
    variables, [variables]. *)
Record payload : Type := {
  query : string;
  variables : option (dict pyval)
}.

Inductive log_msg : Type :=
| LogChaseEmpty (endpoint : string) (attempt : nat)
| LogChaseTimeout (endpoint : string) (attempt delay : nat)
| LogChaseFailed (endpoint : string) (attempt : nat) (status : option nat)
| LogChaseExhausted (endpoint : string)
| LogPipefyGraphQLError (attempt : nat) (errors : json)
| LogPipefyTimeout (attempt delay : nat)
| LogPipefyFailed (attempt : nat) (status : option nat) (text : string)
| LogPipefyExhausted
| LogFetchingDonePhase (table_id : string)
| LogFetchPhasesFailed (table_id : string) (response : json)
| LogFoundDonePhase (table_id : string) (phase : json)
| LogNoDonePhase (table_id : string) (names : list json)
| LogSkipCreate (table_id : string) (r : record)
| LogSkipUpdateNoId
| LogSkipUpdateNoChange (pipefy_record_id : pyval)
| LogSkipArchiveNoId
| LogArchiveFallback (table_id : string) (pipefy_record_id : pyval)
| LogNoMutations
| LogBatchStart (batch_no total size : nat)
| LogBatchDebug (q : string)
| LogBatchFailed (batch_no : nat) (response : json)
| LogGraphQLError (message : json)
| LogErrorPath (path : json)
| LogBatchSucceeded (batch_no success_count : nat)
| LogBatchPartial (batch_no success_count size null_count : nat)
| LogFailedAliases (aliases : list string)
| LogAllBatchesSucceeded
| LogSomeBatchesFailed
| LogSyncStart (table_id : string)
| LogSyncFetchError (table_id : string)
| LogSyncResults (table_id : string) (n_create n_update n_archive : nat)
| LogSyncFinished (table_id : string).

(** What the process does to the outside, in order. *)
Inductive event : Type :=
| EvLog (m : log_msg)
| EvSleep (seconds : nat)
| EvPost (p : payload)
| EvGet (endpoint : string) (config_id : pyval).

Record world : Type := {
  pipefy_net : nat -> post_attempt;   (* what the n-th POST will meet *)
  pipefy_posts : nat;                 (* POSTs made so far *)
  chase_net : nat -> get_attempt;     (* what the n-th GET will meet *)
  chase_gets : nat;                   (* GETs made so far *)
  DONE_PHASE_CACHE : dict json;
  trace : list event
}.

Definition M (A : Type) : Type := world -> outcome A * world.

Definition ret {A : Type} (a : A) : M A := fun w => (Ret a, w).

Definition raise {A : Type} (e : exn) : M A := fun w => (Raise e, w).

Definition bind {A B : Type} (m : M A) (f : A -> M B) : M B :=
  fun w => match m w with
           | (Ret a, w') => f a w'
           | (Raise e, w') => (Raise e, w')
           end.

Declare Scope monad_scope.
Delimit Scope monad_scope with monad.
Notation "x <- m ;; k" := (bind m (fun x => k))
  (at level 61, m at next level, right associativity) : monad_scope.
Notation "m ;;; k" := (bind m (fun _ => k))
  (at level 61, right associativity) : monad_scope.
Open Scope monad_scope.

(** An operation that cannot fail on the world is lifted from a pure
    outcome. *)
Definition lift {A : Type} (o : outcome A) : M A := fun w => (o, w).

Definition emit (e : event) : M unit :=
  fun w => (Ret tt, {| pipefy_net := pipefy_net w; pipefy_posts := pipefy_posts w;
                       chase_net := chase_net w; chase_gets := chase_gets w;
                       DONE_PHASE_CACHE := DONE_PHASE_CACHE w;
                       trace := trace w ++ [e] |}).

Definition log (m : log_msg) : M unit := emit (EvLog m).

(** [time.sleep] *)
Definition sleep (seconds : nat) : M unit := emit (EvSleep seconds).

(** One [session.post]: the request goes out and the network answers. *)
Definition session_post (p : payload) : M post_attempt :=
  fun w => (Ret (pipefy_net w (pipefy_posts w)),
            {| pipefy_net := pipefy_net w; pipefy_posts := S (pipefy_posts w);
               chase_net := chase_net w; chase_gets := chase_gets w;
               DONE_PHASE_CACHE := DONE_PHASE_CACHE w;
               trace := trace w ++ [EvPost p] |}).

(** One [session.get]. *)
Definition session_get (endpoint : string) (config_id : pyval) : M get_attempt :=
  fun w => (Ret (chase_net w (chase_gets w)),
            {| pipefy_net := pipefy_net w; pipefy_posts := pipefy_posts w;
               chase_net := chase_net w; chase_gets := S (chase_gets w);
               DONE_PHASE_CACHE := DONE_PHASE_CACHE w;
               trace := trace w ++ [EvGet endpoint config_id] |}).

Definition cache_lookup (table_id : string) : M (option json) :=
  fun w => (Ret (dict_get (DONE_PHASE_CACHE w) table_id), w).

Definition cache_store (table_id : string) (v : json) : M unit :=
  fun w => (Ret tt, {| pipefy_net := pipefy_net w; pipefy_posts := pipefy_posts w;
                       chase_net := chase_net w; chase_gets := chase_gets w;
                       DONE_PHASE_CACHE := dict_set (DONE_PHASE_CACHE w) table_id v;
                       trace := trace w |}).

(** [j.get(k, default)]: only a [dict] has [get]. *)
Definition json_get (j : json) (k : string) (default : json) : outcome json :=
  match j with
  | JDict d => Ret (dict_get_default d k default)
  | _ => Raise AttributeError
  end.

Fixpoint chars (s : string) : list string :=
  match s with
  | EmptyString => []
  | String c r => str1 c :: chars r
  end.

(** [sub in s] on two strings. *)
Fixpoint contains (sub s : string) : bool :=
  prefix sub s
  || match s with
     | EmptyString => false
     | String _ r => contains sub r
     end.

(** [k in j] for a string [k]: a key of a dict, an element of a list, a
    part of a string; any other value is not iterable. *)
Definition json_has (k : string) (j : json) : outcome bool :=
  match j with
  | JDict d => Ret (dict_mem k d)
  | JList l => Ret (existsb (fun x => match x with
                                      | JVal (PStr s) => (s =? k)%string
                                      | _ => false
                                      end) l)
  | JVal (PStr s) => Ret (contains k s)
  | JVal _ => Raise TypeError
  end.

(** [j[k]] for a string [k]: only a dict is indexed by a string. *)
Definition json_item (j : json) (k : string) : outcome json :=
  match j with
  | JDict d => match dict_get d k with
               | Some v => Ret v
               | None => Raise KeyError
               end
  | _ => Raise TypeError
  end.

(** [for x in j]: the elements of a list, the keys of a dict, the
    characters of a string; nothing else is iterable. *)
Definition json_iter (j : json) : outcome (list json) :=
  match j with
  | JList l => Ret l
  | JDict d => Ret (map (fun kv => JVal (PStr (fst kv))) d)
  | JVal (PStr s) => Ret (map (fun c => JVal (PStr c)) (chars s))
  | JVal _ => Raise TypeError
  end.

(* ================================================================== *)
(** ** Transport: chase_api_get and pipefy_post *)
(* ================================================================== *)

Definition max_retries : nat := 3.

(** [e.response is not None and 400 <= e.response.status_code < 500 and
    e.response.status_code != 429] *)
Definition is_client_error (status : option nat) : bool :=
  match status with
  | Some s => Nat.leb 400 s && Nat.ltb s 500 && negb (Nat.eqb s 429)
  | None => false
  end.

(** [e.response.status_code if e.response else 'N/A'], where [None] stands
    for ['N/A']: the truth value of a response is its [ok], which is false
    for a status from 400 to 599. *)
Definition shown_status (status : option nat) : option nat :=
  match status with
  | Some s => if Nat.leb 400 s && Nat.ltb s 600 then None else Some s
  | None => None
  end.

Definition errors_body (message : string) : dict json :=
  [("errors", JList [JDict [("message", JVal (PStr message))]])].

Definition pipefy_exhausted : dict json :=
  errors_body "Pipefy API call failed after multiple retries".

Definition pipefy_client_error (text : string) : dict json :=
  errors_body ("Pipefy Client Error: " ++ text).

(** The body of [for attempt in range(max_retries)] in [pipefy_post], over
    the attempts still to make; [delay] is the local of that name.  A loop
    that ends without [return] makes the function return [None], which is
    [JNone].  The [TypeError] of ["errors" in result] or of
    [result['errors']] on a body that is no object is caught by none of
    the [except] clauses. *)
Fixpoint pipefy_post_loop (attempts : list nat) (delay : nat) (p : payload)
  : M json :=
  match attempts with
  | [] => ret JNone
  | attempt :: rest =>
      let next : M json :=
        if Nat.ltb attempt (max_retries - 1)
        then sleep delay ;;; pipefy_post_loop rest (delay * 2) p
        else log LogPipefyExhausted ;;; ret (JDict pipefy_exhausted) in
      a <- session_post p ;;
      match a with
      | PostJson result =>
          has_errors <- lift (json_has "errors" result) ;;
          if has_errors
          then errors <- lift (json_item result "errors") ;;
               log (LogPipefyGraphQLError (attempt + 1) errors) ;;;
               if Nat.eqb attempt (max_retries - 1) then ret result else next
          else ret result
      | PostTimeout => log (LogPipefyTimeout (attempt + 1) delay) ;;; next
      | PostRequestError status text =>
          log (LogPipefyFailed (attempt + 1) (shown_status status) text) ;;;
          if is_client_error status then ret (JDict (pipefy_client_error text))
          else next
      end
  end.

Definition pipefy_post (p : payload) : M json :=
  pipefy_post_loop (seq 0 max_retries) 5 p.

(** The same loop in [chase_api_get]; Python's [None] is [JNone]. *)
Fixpoint chase_api_get_loop (attempts : list nat) (delay : nat)
    (endpoint : string) (config_id : pyval) : M json :=
  match attempts with
  | [] => ret JNone
  | attempt :: rest =>
      let next : M json :=
        if Nat.ltb attempt (max_retries - 1)
        then sleep delay ;;; chase_api_get_loop rest (delay * 2) endpoint config_id
        else log (LogChaseExhausted endpoint) ;;; ret JNone in
      a <- session_get endpoint config_id ;;
      match a with
      | GetJson body => ret body
      | GetEmpty => log (LogChaseEmpty endpoint (attempt + 1)) ;;; ret (JList [])
      | GetTimeout => log (LogChaseTimeout endpoint (attempt + 1) delay) ;;; next
      | GetRequestError status =>
          log (LogChaseFailed endpoint (attempt + 1) (shown_status status)) ;;;
          if is_client_error status then ret JNone else next
      end
  end.

Definition chase_api_get (endpoint : string) (config_id : pyval) : M json :=
  chase_api_get_loop (seq 0 max_retries) 5 endpoint config_id.

(* ================================================================== *)
(** ** get_done_phase_id *)
(* ================================================================== *)

Definition phases_query : string :=
"
    query ($table_id: ID!) {
      table(id: $table_id) {
        phases {
          id
          name
        }
      }
    }
    ".

(** [not response or "errors" in response] *)
Definition response_failed (response : json) : outcome bool :=
  if negb (json_truthy response) then Ret true
  else json_has "errors" response.

(** [response.get("data", {})] *)
Definition response_data (response : json) : outcome json :=
  json_get response "data" (JDict []).

(** [x.strip().lower() == "done"]: only a [str] has [strip]. *)
Definition is_done_name (name : json) : outcome bool :=
  match name with
  | JVal (PStr s) => Ret (lower (strip s) =? "done")%string
  | _ => Raise AttributeError
  end.

(** The [for phase in phases] loop: the [id] of the first phase named
    Done, [None] when the loop ends without [break]. *)
Fixpoint find_done_phase (phases : list json) : outcome json :=
  match phases with
  | [] => Ret JNone
  | phase :: rest =>
      match json_get phase "name" (JVal (PStr "")) with
      | Raise e => Raise e
      | Ret name =>
          match is_done_name name with
          | Raise e => Raise e
          | Ret true => json_get phase "id" JNone
          | Ret false => find_done_phase rest
          end
      end
  end.

(** [[p.get('name') for p in phases]] *)
Fixpoint phase_names (phases : list json) : outcome (list json) :=
  match phases with
  | [] => Ret []
  | p :: rest =>
      match json_get p "name" JNone with
      | Raise e => Raise e
      | Ret n => match phase_names rest with
                 | Raise e => Raise e
                 | Ret ns => Ret (n :: ns)
                 end
      end
  end.

Definition get_done_phase_id (table_id : string) : M json :=
  cached <- cache_lookup table_id ;;
  match cached with
  | Some v => ret v
  | None =>
      log (LogFetchingDonePhase table_id) ;;;
      response <- pipefy_post {| query := phases_query;
                                 variables := Some [("table_id", PStr table_id)] |} ;;
      failed <- lift (response_failed response) ;;
      if failed
      then log (LogFetchPhasesFailed table_id response) ;;; ret JNone
      else
        data <- lift (response_data response) ;;
        table <- lift (json_get data "table" (JDict [])) ;;
        phases <- lift (json_get table "phases" (JList [])) ;;
        phase_list <- lift (json_iter phases) ;;
        done_phase <- lift (find_done_phase phase_list) ;;
        (if json_truthy done_phase
         then log (LogFoundDonePhase table_id done_phase) ;;;
              cache_store table_id done_phase
         else names <- lift (phase_names phase_list) ;;
              log (LogNoDonePhase table_id names) ;;;
              cache_store table_id JNone) ;;;
        ret done_phase
  end.

(* ================================================================== *)
(** ** build_pipefy_mutations *)
(* ================================================================== *)

(** [field_mapping]: the key attributes in key order and the attribute to
    slug dictionary. *)
Record field_mapping : Type := {
  keys : list string;
  fields : dict string
}.

(** The operation of a mutation fragment and its arguments. *)
Inductive mutation_body : Type :=
| CreateTableRecord (table_id title : string) (fields_attributes : list (string * string))
| UpdateFieldsValues (nodeId : string) (values : list (string * string))
| UpdateTableRecord (id title : string)
| UpdateTableRecordField (table_record_id field_id new_value : string).

(** A fragment [alias: body]. *)
Record fragment : Type := {
  frag_alias : string;
  frag_body : mutation_body
}.

Definition dq : string := str1 ch_dquote.

Definition quoted (s : string) : string := (dq ++ s ++ dq)%string.

Definition render_body (b : mutation_body) : string :=
  match b with
  | CreateTableRecord table_id title attrs =>
      "createTableRecord(input: {table_id: " ++ quoted table_id
      ++ ", title: " ++ quoted title ++ ", fields_attributes: ["
      ++ join ", " (map (fun sv => "{field_id: " ++ quoted (fst sv)
                                   ++ ", field_value: " ++ quoted (snd sv) ++ "}") attrs)
      ++ "] }) { table_record { id } }"
  | UpdateFieldsValues nodeId vals =>
      "updateFieldsValues(input: {nodeId: " ++ quoted nodeId ++ ", values: ["
      ++ join ", " (map (fun sv => "{fieldId: " ++ quoted (fst sv)
                                   ++ ", value: " ++ quoted (snd sv) ++ "}") vals)
      ++ "] }) { clientMutationId }"
  | UpdateTableRecord id title =>
      "updateTableRecord(input: {id: " ++ quoted id ++ ", title: " ++ quoted title
      ++ "}) { table_record { id } }"
  | UpdateTableRecordField rid fid v =>
      "updateTableRecordField(input: {table_record_id: " ++ quoted rid
      ++ ", field_id: " ++ quoted fid ++ ", new_value: " ++ quoted v
      ++ "}) { table_record { id } }"
  end%string.

(** The string appended to [mutations]. *)
Definition render_fragment (f : fragment) : string :=
  (frag_alias f ++ ": " ++ render_body (frag_body f))%string.

Definition title_keys : list string :=
  ["product_name"; "business_unit_name"; "division_name"].

(** [unique_suffix] of record [i]. *)
Definition unique_suffix (action : string) (key_identifiers : list string)
    (i : nat) (r : record) : string :=
  let alias_action := replace_char "-" "_" action in
  let key_values := map (fun k => py_str (dict_get_default r k (PStr ""))) key_identifiers in
  re_sub_identifier (alias_action ++ "_" ++ str_nat i ++ "_" ++ join "_" key_values).

Definition mut_alias (action : string) (key_identifiers : list string)
    (i : nat) (r : record) : string :=
  ("mut_" ++ unique_suffix action key_identifiers i r)%string.

(** The title of a record: the first title attribute it has, sanitized. *)
Definition title_of (r : record) : string :=
  if dict_mem "product_name" r then sanitize_graphql_string (rget r "product_name")
  else if dict_mem "business_unit_name" r
       then sanitize_graphql_string (rget r "business_unit_name")
  else if dict_mem "division_name" r
       then sanitize_graphql_string (rget r "division_name")
  else "".

(** [not all(str(record.get(k)) for k in key_identifiers if k in record)] *)
Definition create_skipped (key_identifiers : list string) (r : record) : bool :=
  negb (forallb (fun k => negb (is_empty (py_str (rget r k))))
                (filter (fun k => dict_mem k r) key_identifiers)).

(** A dict comprehension [{slug: sanitize(record.get(key)) for key in
    fields if keep(key)}]. *)
Definition fields_comprehension (fm : field_mapping) (keep : string -> bool)
    (r : record) : dict string :=
  fold_left (fun acc ks =>
               if keep (fst ks)
               then dict_set acc (snd ks) (sanitize_graphql_string (rget r (fst ks)))
               else acc)
            (fields fm) [].

Section BuildOne.
Variables (table_id action : string) (fm : field_mapping).

(** The [create] branch for record [i]. *)
Definition build_create (i : nat) (r : record) : M (list fragment) :=
  if create_skipped (keys fm) r
  then log (LogSkipCreate table_id r) ;;; ret []
  else
    let fields_to_set :=
      dict_set (fields_comprehension fm (fun key => dict_mem key r) r)
               "status" "Active" in
    ret [ {| frag_alias := mut_alias action (keys fm) i r;
             frag_body := CreateTableRecord table_id (title_of r) fields_to_set |} ].

(** The [update] branch.  Every value of [fields_to_set] is a [str], so the
    filter [if val is not None] keeps them all. *)
Definition build_update (i : nat) (r : record) : M (list fragment) :=
  let pipefy_record_id := rget r "pipefy_record_id" in
  if negb (truthy pipefy_record_id)
  then log LogSkipUpdateNoId ;;; ret []
  else
    let fields_to_set :=
      dict_set (fields_comprehension fm
                  (fun key => negb (str_in key (keys fm))
                              && negb (str_in key title_keys)
                              && dict_mem key r) r)
               "status"
               (sanitize_graphql_string (dict_get_default r "status" (PStr "Active"))) in
    let current_title := dict_get_default r "current_title" (PStr "") in
    let new_title := title_of r in
    let title_needs_update :=
      negb (is_empty new_title) && negb (eq_str current_title new_title) in
    let field_values : list (string * string) := fields_to_set in
    if negb (is_nil field_values) || title_needs_update
    then
      ret ((if negb (is_nil field_values)
            then [ {| frag_alias := mut_alias action (keys fm) i r;
                      frag_body := UpdateFieldsValues (py_str pipefy_record_id)
                                                      field_values |} ]
            else [])
           ++
           (if title_needs_update
            then [ {| frag_alias := (mut_alias action (keys fm) i r ++ "_ttl")%string;
                      frag_body := UpdateTableRecord (py_str pipefy_record_id)
                                                     new_title |} ]
            else []))
    else log (LogSkipUpdateNoChange pipefy_record_id) ;;; ret [].

(** [f"{done_phase_id}"] *)
Definition format_json (j : json) : outcome string :=
  match j with
  | JVal v => Ret (py_str v)
  | _ => Raise Unsupported
  end.

(** The [archive] branch. *)
Definition build_archive (i : nat) (r : record) : M (list fragment) :=
  let pipefy_record_id := rget r "pipefy_record_id" in
  if negb (truthy pipefy_record_id)
  then log LogSkipArchiveNoId ;;; ret []
  else
    done_phase_id <- get_done_phase_id table_id ;;
    if json_truthy done_phase_id
    then
      phase <- lift (format_json done_phase_id) ;;
      ret [ {| frag_alias := mut_alias action (keys fm) i r;
               frag_body := UpdateTableRecordField (py_str pipefy_record_id)
                                                   "current_phase" phase |} ]
    else
      log (LogArchiveFallback table_id pipefy_record_id) ;;;
      ret [ {| frag_alias := mut_alias action (keys fm) i r;
               frag_body := UpdateFieldsValues (py_str pipefy_record_id)
                                               [("status", "Archived")] |} ].

(** One turn of [for i, record in enumerate(records)]. *)
Definition build_record (i : nat) (r : record) : M (list fragment) :=
  if (action =? "create")%string then build_create i r
  else if (action =? "update")%string then build_update i r
  else if (action =? "archive")%string then build_archive i r
  else ret [].

(** The loop from index [i] on; the fragments are appended in order. *)
Fixpoint build_from (i : nat) (records : list record) : M (list fragment) :=
  match records with
  | [] => ret []
  | r :: rest =>
      fs <- build_record i r ;;
      more <- build_from (S i) rest ;;
      ret (fs ++ more)
  end.
End BuildOne.

(** The fragments of [build_pipefy_mutations], before they are formatted. *)
Definition build_fragments (records : list record) (table_id action : string)
    (fm : field_mapping) : M (list fragment) :=
  build_from table_id action fm 0 records.

Definition build_pipefy_mutations (records : list record) (table_id action : string)
    (fm : field_mapping) : M (list string) :=
  fs <- build_fragments records table_id action fm ;;
  ret (map render_fragment fs).

(* ================================================================== *)
(** ** execute_pipefy_mutations *)
(* ================================================================== *)

Definition batch_size : nat := 50.

(** [range(start, stop, step)] for a positive [step]; no more than [stop]
    values are below [stop], which bounds the unfolding. *)
Fixpoint range_from (fuel start stop step : nat) : list nat :=
  match fuel with
  | 0 => []
  | S fuel' =>
      if Nat.ltb start stop then start :: range_from fuel' (start + step) stop step
      else []
  end.

Definition py_range (start stop step : nat) : list nat :=
  range_from stop start stop step.

(** [l[i:j]] *)
Definition slice {A : Type} (l : list A) (i j : nat) : list A :=
  firstn (j - i) (skipn i l).

(** The batches the loop of [execute_pipefy_mutations] goes through. *)
Definition batches (mutations : list string) : list (list string) :=
  map (fun i => slice mutations i (i + batch_size))
      (py_range 0 (List.length mutations) batch_size).

(** [f"mutation {{ {' '.join(batch)} }}"] *)
Definition full_mutation_string (batch : list string) : string :=
  ("mutation { " ++ join " " batch ++ " }")%string.

Definition batch_payload (batch : list string) : payload :=
  {| query := full_mutation_string batch; variables := None |}.

(** The success test on the result of one alias. *)
Definition is_success (result : json) : bool :=
  match result with
  | JDict d =>
      json_truthy (dict_get_default d "table_record" JNone)
      || negb (json_is_none (dict_get_default d "clientMutationId" JNone))
  | _ => false
  end.

(** [data.items()]: only a [dict] has [items]. *)
Definition json_items (j : json) : outcome (list (string * json)) :=
  match j with
  | JDict d => Ret d
  | _ => Raise AttributeError
  end.

Definition success_count (data : list (string * json)) : nat :=
  List.length (filter (fun ar => is_success (snd ar)) data).

Definition fail_aliases (data : list (string * json)) : list string :=
  map fst (filter (fun ar => negb (is_success (snd ar))) data).

(** The logging loop [for error in response["errors"]]. *)
Fixpoint log_errors (errors : list json) : M unit :=
  match errors with
  | [] => ret tt
  | error :: rest =>
      message <- lift (json_get error "message" JNone) ;;
      log (LogGraphQLError message) ;;;
      (match error with
       | JDict d =>
           if dict_mem "path" d
           then log (LogErrorPath (dict_get_default d "path" JNone))
           else ret tt
       | _ => ret tt
       end) ;;;
      log_errors rest
  end.

(** The first half of one turn of [for i in range(0, len(mutations),
    batch_size)]: the batch is announced in the log and posted. *)
Definition batch_request (mutations : list string) (i : nat) : M json :=
  let batch := slice mutations i (i + batch_size) in
  let batch_no := i / batch_size + 1 in
  log (LogBatchStart batch_no
         ((List.length mutations + batch_size - 1) / batch_size)
         (List.length batch)) ;;;
  (if Nat.leb (List.length batch) 3
   then log (LogBatchDebug (substring 0 500 (full_mutation_string batch)))
   else ret tt) ;;;
  pipefy_post (batch_payload batch).

(** The second half: what the turn makes of [response]; the result is the
    value of [all_successful] after the turn.  The [continue] of the
    failure branch ends the turn before the pause. *)
Definition batch_verdict (mutations : list string) (i : nat)
    (all_successful : bool) (response : json) : M bool :=
  let batch := slice mutations i (i + batch_size) in
  let batch_no := i / batch_size + 1 in
  failed <- lift (response_failed response) ;;
  if failed
  then
    log (LogBatchFailed batch_no response) ;;;
    (if json_truthy response
     then has_errors <- lift (json_has "errors" response) ;;
          if has_errors
          then errors <- lift (json_item response "errors") ;;
               errs <- lift (json_iter errors) ;;
               log_errors errs
          else ret tt
     else ret tt) ;;;
    ret false
  else
    data <- lift (response_data response) ;;
    data <- lift (json_items data) ;;
    ok <- (if Nat.eqb (success_count data) (List.length batch)
           then log (LogBatchSucceeded batch_no (success_count data)) ;;;
                ret all_successful
           else
             log (LogBatchPartial batch_no (success_count data)
                    (List.length batch) (List.length (fail_aliases data))) ;;;
             (if is_nil (fail_aliases data) then ret tt
              else log (LogFailedAliases (firstn 10 (fail_aliases data)))) ;;;
             ret false) ;;
    (if Nat.ltb (i + batch_size) (List.length mutations)
     then sleep 2 else ret tt) ;;;
    ret ok.

(** One turn of the loop. *)
Definition execute_batch (mutations : list string) (i : nat)
    (all_successful : bool) : M bool :=
  response <- batch_request mutations i ;;
  batch_verdict mutations i all_successful response.

(** The loop over the starts still to visit. *)
Fixpoint execute_batches (mutations : list string) (starts : list nat)
    (all_successful : bool) : M bool :=
  match starts with
  | [] => ret all_successful
  | i :: rest =>
      ok <- execute_batch mutations i all_successful ;;
      execute_batches mutations rest ok
  end.

Definition execute_pipefy_mutations (mutations : list string) : M bool :=
  if is_nil mutations
  then log LogNoMutations ;;; ret true
  else
    all_successful <- execute_batches mutations
                        (py_range 0 (List.length mutations) batch_size) true ;;
    (if all_successful then log LogAllBatchesSucceeded
     else log LogSomeBatchesFailed) ;;;
    ret all_successful.

(* ================================================================== *)
(** ** sync_table: keys, the two maps and the diff *)
(* ================================================================== *)

Definition DIVISIONS_TABLE_ID : string := "306760306".

(** [str(record.get(k, ''))] *)
Definition key_part (r : record) (k : string) : string :=
  py_str (dict_get_default r k (PStr "")).

(** The inner function [get_key].  A key attribute without a slug reads
    [record.get(None, '')], the empty string; the divisions table indexes
    the slugs with [[...]], which raises [KeyError] on a missing one. *)
Definition get_key (pipefy_table_id : string) (fm : field_mapping)
    (r : record) (is_pipefy : bool) : outcome string :=
  let key_parts :=
    map (fun k =>
           if is_pipefy
           then match dict_get (fields fm) k with
                | Some pipefy_slug => key_part r pipefy_slug
                | None => ""
                end
           else key_part r k)
        (keys fm) in
  if (pipefy_table_id =? DIVISIONS_TABLE_ID)%string
  then
    if is_pipefy
    then match dict_get (fields fm) "division_id" with
         | None => Raise KeyError
         | Some division_slug =>
             match dict_get (fields fm) "customer_id" with
             | None => Raise KeyError
             | Some customer_slug =>
                 Ret (join "-" [key_part r division_slug; key_part r customer_slug])
             end
         end
    else Ret (join "-" [key_part r "division_id"; key_part r "customer_id"])
  else Ret (join "-" key_parts).

(** [{get_key(r): r for r in records}], filling [acc]. *)
Fixpoint key_map (pipefy_table_id : string) (fm : field_mapping) (is_pipefy : bool)
    (records : list record) (acc : dict record) : outcome (dict record) :=
  match records with
  | [] => Ret acc
  | r :: rest =>
      match get_key pipefy_table_id fm r is_pipefy with
      | Raise e => Raise e
      | Ret k => key_map pipefy_table_id fm is_pipefy rest (dict_set acc k r)
      end
  end.

(** A destination value as the diff compares it: [None] is the empty
    string, anything else its text with whitespace collapsed. *)
Definition normalize_destination (v : pyval) : string :=
  match v with
  | PNone => ""
  | _ => normalize_ws (py_str v)
  end.

(** The loop over [field_mapping["fields"].items()] with its [break]: some
    mapped attribute outside the key differs. *)
Definition fields_differ (fm : field_mapping) (chase_record pipefy_record : record)
  : bool :=
  existsb (fun ks =>
             negb (str_in (fst ks) (keys fm))
             && negb (sanitize_graphql_string (rget chase_record (fst ks))
                      =? normalize_destination (rget pipefy_record (snd ks)))%string)
          (fields fm).

(** [new_title and current_title != new_title] *)
Definition title_differs (chase_record pipefy_record : record) : bool :=
  negb (is_empty (title_of chase_record))
  && negb (eq_str (dict_get_default pipefy_record "title" (PStr ""))
                  (title_of chase_record)).

Definition needs_update (fm : field_mapping) (chase_record pipefy_record : record)
  : bool :=
  fields_differ fm chase_record pipefy_record
  || title_differs chase_record pipefy_record
  || negb (eq_str (rget pipefy_record "status") "Active").

(** What one turn of the loop over [chase_map.items()] decides. *)
Inductive classification : Type :=
| CREATE (chase_record : record)
| UPDATE (update_data : record)
| UNCHANGED.

Definition classify_source (fm : field_mapping) (pipefy_map : dict record)
    (chase_key : string) (chase_record : record) : outcome classification :=
  match dict_get pipefy_map chase_key with
  | None => Ret (CREATE chase_record)
  | Some pipefy_record =>
      if needs_update fm chase_record pipefy_record
      then match dict_get pipefy_record "pipefy_record_id" with
           | None => Raise KeyError
           | Some pipefy_record_id =>
               Ret (UPDATE
                      (dict_set
                         (dict_set
                            (dict_set chase_record "pipefy_record_id" pipefy_record_id)
                            "current_title"
                            (dict_get_default pipefy_record "title" (PStr "")))
                         "status" (PStr "Active")))
           end
      else Ret UNCHANGED
  end.

(** The first loop of the diff: [to_create] and [to_update], in the order
    of [chase_map]. *)
Fixpoint classify_sources (fm : field_mapping) (pipefy_map : dict record)
    (items : dict record) : outcome (list record * list record) :=
  match items with
  | [] => Ret ([], [])
  | (chase_key, chase_record) :: rest =>
      match classify_source fm pipefy_map chase_key chase_record with
      | Raise e => Raise e
      | Ret c =>
          match classify_sources fm pipefy_map rest with
          | Raise e => Raise e
          | Ret (to_create, to_update) =>
              Ret (match c with
                   | CREATE r => (r :: to_create, to_update)
                   | UPDATE u => (to_create, u :: to_update)
                   | UNCHANGED => (to_create, to_update)
                   end)
          end
      end
  end.

(** The test of the second loop: the record is to be archived. *)
Definition classify_destination (chase_map : dict record) (pipefy_key : string)
    (pipefy_record : record) : bool :=
  negb (dict_mem pipefy_key chase_map)
  && negb (eq_str (rget pipefy_record "status") "Archived").

Definition archive_list (chase_map pipefy_map : dict record) : list record :=
  map snd (filter (fun kr => classify_destination chase_map (fst kr) (snd kr))
                  pipefy_map).

(** [sync_table], from the records [get_pipefy_table_records] returned
    ([None] when the fetch failed). *)
Definition sync_table (chase_data_list : list record)
    (pipefy_data : option (list record)) (pipefy_table_id : string)
    (fm : field_mapping) : M bool :=
  log (LogSyncStart pipefy_table_id) ;;;
  match pipefy_data with
  | None => log (LogSyncFetchError pipefy_table_id) ;;; ret false
  | Some pipefy_records =>
      chase_map <- lift (key_map pipefy_table_id fm false chase_data_list []) ;;
      pipefy_map <- lift (key_map pipefy_table_id fm true pipefy_records []) ;;
      cu <- lift (classify_sources fm pipefy_map chase_map) ;;
      let to_create := fst cu in
      let to_update := snd cu in
      let to_archive := archive_list chase_map pipefy_map in
      log (LogSyncResults pipefy_table_id (List.length to_create)
             (List.length to_update) (List.length to_archive)) ;;;
      create_mutations <- build_pipefy_mutations to_create pipefy_table_id "create" fm ;;
      update_mutations <- build_pipefy_mutations to_update pipefy_table_id "update" fm ;;
      archive_mutations <- build_pipefy_mutations to_archive pipefy_table_id "archive" fm ;;
      success_c <- execute_pipefy_mutations create_mutations ;;
      success_u <- execute_pipefy_mutations update_mutations ;;
      success_a <- execute_pipefy_mutations archive_mutations ;;
      log (LogSyncFinished pipefy_table_id) ;;;
      ret (success_c && success_u && success_a)
  end.

(* ================================================================== *)
(** ** Notions used to state the properties *)
(* ================================================================== *)

Definition no_space (s : string) : bool := all_chars (fun c => negb (isspace c)) s.

(** A word of [split]: not empty, no whitespace. *)
Definition word_ok (w : string) : Prop := w <> EmptyString /\ no_space w = true.

(** The two characters whose escaping shows in a sanitized string. *)
Definition special (c : ascii) : bool :=
  Ascii.eqb c ch_backslash || Ascii.eqb c ch_dquote.

Definition no_special (s : string) : bool := all_chars (fun c => negb (special c)) s.



Definition is_dict (j : json) : bool :=
  match j with JDict _ => true | _ => false end.

(** A response in the shape GraphQL gives to a batch of mutations: an
    object whose [errors], when present, is a list of objects, and whose
    [data] otherwise is an object with one result for each fragment
    sent. *)
Definition well_formed_response (batch : list string) (response : json) : bool :=
  match response with
  | JDict d =>
      match dict_get d "errors" with
      | Some (JList errors) => forallb is_dict errors
      | Some _ => false
      | None =>
          is_nil d
          || match dict_get_default d "data" (JDict []) with
             | JDict data => Nat.eqb (List.length data) (List.length batch)
             | _ => false
             end
      end
  | _ => false
  end.

(** The response is an object, not empty and without [errors], and every
    alias in its [data] is a success. *)
Definition batch_succeeded (response : json) : bool :=
  match response with
  | JDict d =>
      negb (is_nil d) && negb (dict_mem "errors" d)
      && match dict_get_default d "data" (JDict []) with
         | JDict data => forallb (fun ar => is_success (snd ar)) data
         | _ => false
         end
  | _ => false
  end.



(** The world [w] with one more line in its log. *)
Definition log_to (w : world) (m : log_msg) : world :=
  {| pipefy_net := pipefy_net w; pipefy_posts := pipefy_posts w;
     chase_net := chase_net w; chase_gets := chase_gets w;
     DONE_PHASE_CACHE := DONE_PHASE_CACHE w;
     trace := trace w ++ [EvLog m] |}.

(** [new_title and current_title != new_title] on an update record. *)
Definition title_changed (r : record) : bool :=
  negb (is_empty (title_of r))
  && negb (eq_str (dict_get_default r "current_title" (PStr "")) (title_of r)).



(** The aliases [l] of the fragments of one record whose alias is [A]:
    distinct, and each is [A] with a suffix. *)
Definition own_aliases (A : string) (l : list string) : Prop :=
  NoDup l /\ forall a, In a l -> exists s, a = (A ++ s)%string.

(** What comes before the index in every alias of one call. *)
Definition alias_prefix (action : string) : string :=
  let alias_action := replace_char "-" "_" action in
  ("mut_"
   ++ match alias_action with
      | String c _ => if isdigit c then "_" else ""
      | EmptyString => ""
      end
   ++ sub_nonword alias_action ++ "_")%string.

(** A world for examples: the network always answers [a]. *)
Definition world_answering (a : post_attempt) (g : get_attempt) : world :=
  {| pipefy_net := fun _ => a; pipefy_posts := 0;
     chase_net := fun _ => g; chase_gets := 0;
     DONE_PHASE_CACHE := []; trace := [] |}.

(** The field mappings of [main]. *)
Definition bu_agency_field_map : field_mapping :=
  {| keys := ["config_id"; "business_unit_id"];
     fields := [("config_id", "config_id");
                ("business_unit_id", "business_unit_id");
                ("business_unit_name", "business_unit_name")] |}.

Definition product_client_field_map : field_mapping :=
  {| keys := ["config_id"; "client_id"; "product_id"];
     fields := [("config_id", "config_id");
                ("client_id", "customer_id");
                ("client_name", "customer_name");
                ("product_id", "product_id");
                ("product_name", "product");
                ("contact_name", "client_contact_name")] |}.

Definition divisions_field_map : field_mapping :=
  {| keys := ["division_id"; "customer_id"];
     fields := [("division_id", "division_id");
                ("division_name", "division_name");
                ("customer_id", "customer_id");
                ("customer_name", "customer_name")] |}.

Definition BU_AGENCY_TABLE_ID : string := "306759746".

(** Records for the examples: a business unit in Chase and in Pipefy. *)
Definition ex_chase_bu : record :=
  [("config_id", PInt 6); ("business_unit_id", PInt 12);
   ("business_unit_name", PStr "Strategy  Team"); ("status", PStr "Active")].

Definition ex_pipefy_bu : record :=
  [("pipefy_record_id", PStr "900"); ("title", PStr "Strategy Team");
   ("config_id", PStr "6"); ("business_unit_id", PStr "12");
   ("business_unit_name", PStr "Strategy Team "); ("status", PStr "Active")].

Definition ex_no_keys : record := [("business_unit_name", PStr "Strategy")].

Definition ex_chase_renamed : record :=
  [("config_id", PInt 6); ("business_unit_id", PInt 12);
   ("business_unit_name", PStr "Brand Team"); ("status", PStr "Active")].

Definition ex_update_data : record :=
  [("config_id", PInt 6); ("business_unit_id", PInt 12);
   ("business_unit_name", PStr "Brand Team"); ("status", PStr "Active");
   ("pipefy_record_id", PStr "900"); ("current_title", PStr "Strategy Team")].

(** A product to update: the contact changed, the title did not. *)
Definition ex_update_product : record :=
  [("config_id", PInt 6); ("client_id", PInt 3); ("client_name", PStr "Acme  Ltd");
   ("product_id", PInt 9); ("product_name", PStr "Widget");
   ("contact_name", PStr "Jo Doe"); ("status", PStr "Active");
   ("pipefy_record_id", PStr "950"); ("current_title", PStr "Widget")].

Definition ex_orphan : record :=
  [("pipefy_record_id", PStr "901"); ("title", PStr "Old Unit");
   ("config_id", PStr "6"); ("business_unit_id", PStr "77");
   ("business_unit_name", PStr "Old Unit"); ("status", PStr "Active")].

Definition ex_phases_body : dict json :=
  [("data",
    JDict [("table",
            JDict [("phases",
                    JList [JDict [("id", JVal (PStr "111"));
                                  ("name", JVal (PStr "Backlog"))];
                           JDict [("id", JVal (PStr "222"));
                                  ("name", JVal (PStr " DONE "))]])])])].


(** [m] returns without raising from every world; [P] holds of its result
    and of the events it adds to the trace. *)
Definition runs {A : Type} (m : M A) (P : A -> list event -> Prop) : Prop :=
  forall w, exists a w' d, m w = (Ret a, w') /\ trace w' = trace w ++ d /\ P a d.

(** A world for examples: the n-th POST meets the n-th of [answers], and a
    timeout after them. *)
Definition world_scripted (answers : list post_attempt) : world :=
  {| pipefy_net := fun n => nth n answers PostTimeout; pipefy_posts := 0;
     chase_net := fun _ => GetTimeout; chase_gets := 0;
     DONE_PHASE_CACHE := []; trace := [] |}.

(** Fifty-one fragments: two batches, of 50 and of 1. *)
Definition ex_mutations : list string :=
  repeat "mut_update_0_6_12: updateTableRecord(input: {id: 900}) { table_record { id } }" 50
  ++ ["mut_archive_50_6_77: updateTableRecordField(input: {}) { table_record { id } }"].

(** The first batch meets an answer without [errors] whose [data] is
    null. *)
Definition ex_null_data_world : world :=
  world_scripted [PostJson (JDict [("data", JNone)])].

(** One fragment, and an answer with its result and a null result under
    another alias. *)
Definition ex_one_mutation : list string :=
  ["mut_create_0_6_12: createTableRecord(input: {})"].

Definition ex_extra_alias_world : world :=
  world_answering
    (PostJson
       (JDict [("data",
                JDict [("mut_create_0_6_12",
                        JDict [("table_record", JDict [("id", JVal (PStr "902"))])]);
                       ("mut_create_1_6_13", JNone)])]))
    GetTimeout.

(** The first batch meets three timeouts, the second succeeds. *)
Definition ex_batch_world : world :=
  world_scripted
    [PostTimeout; PostTimeout; PostTimeout;
     PostJson
       (JDict [("data",
                JDict [("mut_archive_50_6_77",
                        JDict [("table_record",
                                JDict [("id", JVal (PStr "901"))])])])])].

(* ================================================================== *)
(** ** get_pipefy_table_records *)
(* ================================================================== *)

Definition records_query : string :=
"
    query ($table_id: ID!, $cursor: String) {
      table_records(table_id: $table_id, after: $cursor, first: 50) {
        pageInfo { endCursor hasNextPage }
        edges {
          node {
            id
            title
            record_fields {
              field { id }
              value
            }
          }
        }
      }
    }
    ".

(** Sequencing of pure steps that may raise. *)
Definition and_then {A B : Type} (o : outcome A) (f : A -> outcome B) : outcome B :=
  match o with
  | Ret a => f a
  | Raise e => Raise e
  end.

Declare Scope outcome_scope.
Delimit Scope outcome_scope with outcome.
Notation "x <- o ;; k" := (and_then o (fun x => k))
  (at level 61, o at next level, right associativity) : outcome_scope.

(** A record as the fetch builds it: slug to JSON value. *)
Definition pipefy_record : Type := dict json.

(** One turn of [for field in fields_list]: [record_data[slug] = value]
    for a true [slug].  A key must be hashable, so that a list or an object
    raises [TypeError]; of the hashable keys only strings are modelled. *)
Definition set_field (record_data : pipefy_record) (field : json)
  : outcome pipefy_record :=
  (f <- json_get field "field" (JDict []) ;;
   slug <- json_get f "id" JNone ;;
   value <- json_get field "value" JNone ;;
   if json_truthy slug
   then match slug with
        | JVal (PStr s) => Ret (dict_set record_data s value)
        | JVal _ => Raise Unsupported
        | _ => Raise TypeError
        end
   else Ret record_data)%outcome.

Fixpoint set_fields (record_data : pipefy_record) (fields_list : list json)
  : outcome pipefy_record :=
  match fields_list with
  | [] => Ret record_data
  | field :: rest =>
      (record_data' <- set_field record_data field ;;
       set_fields record_data' rest)%outcome
  end.

(** The body of [for edge in edges]: the record appended to [all_records]. *)
Definition edge_record (edge : json) : outcome pipefy_record :=
  (node <- json_get edge "node" (JDict []) ;;
   record_id <- json_get node "id" JNone ;;
   fields_list <- json_get node "record_fields" (JList []) ;;
   title <- json_get node "title" JNone ;;
   fields <- json_iter fields_list ;;
   set_fields [("pipefy_record_id", record_id); ("title", title)] fields)%outcome.

Fixpoint edge_records (edges : list json) : outcome (list pipefy_record) :=
  match edges with
  | [] => Ret []
  | edge :: rest =>
      (r <- edge_record edge ;;
       rs <- edge_records rest ;;
       Ret (r :: rs))%outcome
  end.

(** What one turn of the [while] loop reads in a response that did not
    fail: the records of the page, [has_next_page] and [cursor]. *)
Definition read_page (response : json)
  : outcome (list pipefy_record * json * json) :=
  (data <- response_data response ;;
   data <- json_get data "table_records" (JDict []) ;;
   edges <- json_get data "edges" (JList []) ;;
   edge_list <- json_iter edges ;;
   records <- edge_records edge_list ;;
   page_info <- json_get data "pageInfo" (JDict []) ;;
   has_next_page <- json_get page_info "hasNextPage" (JVal (PBool false)) ;;
   cursor <- json_get page_info "endCursor" JNone ;;
   Ret (records, has_next_page, cursor))%outcome.

(** [variables]: the cursor is added when it is true.  The payload of the
    model holds scalars, a cursor that is a list or an object is left out. *)
Definition page_variables (table_id : string) (cursor : json) : outcome (dict pyval) :=
  if json_truthy cursor
  then match cursor with
       | JVal v => Ret [("table_id", PStr table_id); ("cursor", v)]
       | _ => Raise Unsupported
       end
  else Ret [("table_id", PStr table_id)].

(** The lines of the log that [log_msg] does not have: those of
    [get_pipefy_table_records] and of [main]. *)
Inductive log_line : Type :=
| LogFetchRecords (table_id : string)
| LogFetchPage (page_count : nat) (table_id : string)
| LogFetchPageFailed (page_count : nat) (table_id : string) (response : json)
| LogPageFetched (page_count : nat) (table_id : string) (has_next_page : json)
    (records_so_far : nat)
| LogFetchTotal (table_id : string) (total : nat)
| LogMainStart
| LogConfigsFailed
| LogFoundConfigs (n : nat)
| LogBuildingClientMap
| LogClientMapBuilt (n : nat)
| LogSkipBU (config_id : pyval)
| LogBUFailed (config_id : pyval)
| LogSkipDivision (config_id : pyval)
| LogDivisionsFailed (config_id : pyval)
| LogNoProductTable (config_id_str : string)
| LogProcessingClients (n : nat) (config_id : pyval)
| LogNoProducts (client_id config_id : pyval)
| LogProductsFailed (client_id config_id : pyval)
| LogClientsFailed (config_id : pyval)
| LogCollectedBU (n : nat)
| LogCollectedDivisions (n : nat)
| LogCollectedProducts (n : nat) (config_id_str : string)
| LogProductTableMissing (config_id_str : string)
| LogSyncComplete
| LogSyncCompleteWithWarnings
| LogCritical (e : exn).

(** The state of a run: the world, and the lines above, each with the
    number of events that came before it, which gives its place among
    them. *)
Record run_state : Type := {
  outside : world;
  run_log : list (nat * log_line)
}.

(** How a computation ends: with a value, with an exception, with
    [sys.exit], or, for a loop that is given a bound, still turning when
    the bound is reached. *)
Inductive ending (A : Type) : Type :=
| Value (a : A)
| Exception (e : exn)
| SystemExit (code : nat)
| Unfinished.
Arguments Value {A} a.
Arguments Exception {A} e.
Arguments SystemExit {A} code.
Arguments Unfinished {A}.

Definition Run (A : Type) : Type := run_state -> ending A * run_state.

Definition rret {A : Type} (a : A) : Run A := fun s => (Value a, s).

Definition rbind {A B : Type} (m : Run A) (f : A -> Run B) : Run B :=
  fun s => match m s with
           | (Value a, s') => f a s'
           | (Exception e, s') => (Exception e, s')
           | (SystemExit code, s') => (SystemExit code, s')
           | (Unfinished, s') => (Unfinished, s')
           end.

Declare Scope run_scope.
Delimit Scope run_scope with run.
Notation "x <- m ;; k" := (rbind m (fun x => k))
  (at level 61, m at next level, right associativity) : run_scope.
Notation "m ;;; k" := (rbind m (fun _ => k))
  (at level 61, right associativity) : run_scope.

Definition of_outcome {A : Type} (o : outcome A) : ending A :=
  match o with
  | Ret a => Value a
  | Raise e => Exception e
  end.

(** A computation on the world, inside a run. *)
Definition in_world {A : Type} (m : M A) : Run A :=
  fun s => match m (outside s) with
           | (o, w') => (of_outcome o, {| outside := w'; run_log := run_log s |})
           end.

Definition rlift {A : Type} (o : outcome A) : Run A := fun s => (of_outcome o, s).

Definition rlog (m : log_line) : Run unit :=
  fun s => (Value tt,
            {| outside := outside s;
               run_log := run_log s ++ [(List.length (trace (outside s)), m)] |}).

(** [sys.exit(code)] *)
Definition sys_exit {A : Type} (code : nat) : Run A := fun s => (SystemExit code, s).

(** The loop [while has_next_page], entered with [has_next_page] true, for
    at most [turns] turns. *)
Fixpoint fetch_pages (turns : nat) (table_id : string) (all_records : list pipefy_record)
    (cursor : json) (page_count : nat) : Run (option (list pipefy_record)) :=
  match turns with
  | 0 => fun s => (Unfinished, s)
  | S turns' =>
      (let page_count := page_count + 1 in
       rlog (LogFetchPage page_count table_id) ;;;
       variables <- rlift (page_variables table_id cursor) ;;
       response <- in_world (pipefy_post {| query := records_query;
                                            variables := Some variables |}) ;;
       failed <- rlift (response_failed response) ;;
       if failed
       then rlog (LogFetchPageFailed page_count table_id response) ;;;
            rret None
       else
         page <- rlift (read_page response) ;;
         let all_records := all_records ++ fst (fst page) in
         let has_next_page := snd (fst page) in
         let cursor := snd page in
         rlog (LogPageFetched page_count table_id has_next_page
                 (List.length all_records)) ;;;
         if json_truthy has_next_page
         then in_world (sleep 1) ;;;
              fetch_pages turns' table_id all_records cursor page_count
         else rlog (LogFetchTotal table_id (List.length all_records)) ;;;
              rret (Some all_records))%run
  end.

(** The result is Python's [None] or the list; [fields_to_get] is not
    used. *)
Definition get_pipefy_table_records (turns : nat) (table_id : string)
    (fields_to_get : option (list string)) : Run (option (list pipefy_record)) :=
  (rlog (LogFetchRecords table_id) ;;;
   fetch_pages turns table_id [] JNone 0)%run.

(* ================================================================== *)
(** ** sync_table, with its fetch *)
(* ================================================================== *)

(** A JSON value where the model wants a scalar. *)
Definition scalar (j : json) : outcome pyval :=
  match j with
  | JVal v => Ret v
  | _ => Raise Unsupported
  end.

(** A fetched record as the diff reads it: its values are scalars. *)
Fixpoint to_record (r : pipefy_record) : outcome record :=
  match r with
  | [] => Ret []
  | (k, j) :: rest =>
      (v <- scalar j ;;
       rest' <- to_record rest ;;
       Ret ((k, v) :: rest'))%outcome
  end.

Fixpoint to_records (l : list pipefy_record) : outcome (list record) :=
  match l with
  | [] => Ret []
  | r :: rest =>
      (r' <- to_record r ;;
       rest' <- to_records rest ;;
       Ret (r' :: rest'))%outcome
  end.

(** [sync_table] from the line after the fetch on. *)
Definition sync_fetched (chase_data_list pipefy_records : list record)
    (pipefy_table_id : string) (fm : field_mapping) : M bool :=
  chase_map <- lift (key_map pipefy_table_id fm false chase_data_list []) ;;
  pipefy_map <- lift (key_map pipefy_table_id fm true pipefy_records []) ;;
  cu <- lift (classify_sources fm pipefy_map chase_map) ;;
  let to_create := fst cu in
  let to_update := snd cu in
  let to_archive := archive_list chase_map pipefy_map in
  log (LogSyncResults pipefy_table_id (List.length to_create)
         (List.length to_update) (List.length to_archive)) ;;;
  create_mutations <- build_pipefy_mutations to_create pipefy_table_id "create" fm ;;
  update_mutations <- build_pipefy_mutations to_update pipefy_table_id "update" fm ;;
  archive_mutations <- build_pipefy_mutations to_archive pipefy_table_id "archive" fm ;;
  success_c <- execute_pipefy_mutations create_mutations ;;
  success_u <- execute_pipefy_mutations update_mutations ;;
  success_a <- execute_pipefy_mutations archive_mutations ;;
  log (LogSyncFinished pipefy_table_id) ;;;
  ret (success_c && success_u && success_a).

(** [sync_table] as it runs: the fetch, then the diff and the mutations. *)
Definition sync_table_with_fetch (turns : nat) (chase_data_list : list record)
    (pipefy_table_id : string) (fm : field_mapping) : Run bool :=
  (in_world (log (LogSyncStart pipefy_table_id)) ;;;
   let pipefy_fields_to_get := map snd (fields fm) in
   pipefy_data <- get_pipefy_table_records turns pipefy_table_id
                    (Some pipefy_fields_to_get) ;;
   match pipefy_data with
   | None => in_world (log (LogSyncFetchError pipefy_table_id)) ;;; rret false
   | Some fetched =>
       pipefy_records <- rlift (to_records fetched) ;;
       in_world (sync_fetched chase_data_list pipefy_records pipefy_table_id fm)
   end)%run.

(* ================================================================== *)
(** ** main *)
(* ================================================================== *)

Definition AGENCY_PRODUCT_TABLE_MAP : dict string :=
  [("1", "306766430"); ("6", "306759773"); ("7", "306759851");
   ("8", "306766722"); ("9", "306759853")].

(** The endpoints read from the configuration file. *)
Record endpoints : Type := {
  API_CONFIGS : string;
  API_CLIENTS : string;
  API_PRODUCTS : string;
  API_BUSINESS_UNITS : string;
  API_DIVISIONS : string
}.

(** [a == b] on scalars, as a [dict] compares its keys: [True] is [1] and
    [False] is [0]. *)
Definition py_int_of (v : pyval) : option Z :=
  match v with
  | PBool true => Some 1%Z
  | PBool false => Some 0%Z
  | PInt z => Some z
  | _ => None
  end.

Definition py_eqb (a b : pyval) : bool :=
  match a, b with
  | PNone, PNone => true
  | PStr s, PStr t => (s =? t)%string
  | _, _ =>
      match py_int_of a, py_int_of b with
      | Some x, Some y => (x =? y)%Z
      | _, _ => false
      end
  end.

(** [client_id_to_name_map]: its keys are what Chase gave as [ClientID]. *)
Definition client_map : Type := list (pyval * json).

Fixpoint client_map_get (m : client_map) (k : pyval) : option json :=
  match m with
  | [] => None
  | (k', v) :: rest => if py_eqb k' k then Some v else client_map_get rest k
  end.

(** [m[k] = v]: an equal key keeps its place, and stays as it was. *)
Fixpoint client_map_set (m : client_map) (k : pyval) (v : json) : client_map :=
  match m with
  | [] => [(k, v)]
  | (k', v') :: rest =>
      if py_eqb k' k then (k', v) :: rest else (k', v') :: client_map_set rest k v
  end.

(** A key of a [dict]: a list or an object cannot be hashed. *)
Definition hashable (j : json) : outcome pyval :=
  match j with
  | JVal v => Ret v
  | _ => Raise TypeError
  end.

(** [for client in clients] of the first loop. *)
Fixpoint add_clients (clients : list json) (m : client_map) : outcome client_map :=
  match clients with
  | [] => Ret m
  | client :: rest =>
      (client_id <- json_get client "ClientID" JNone ;;
       if json_truthy client_id
       then client_name <- json_get client "ClientName" JNone ;;
            if json_truthy client_name
            then k <- hashable client_id ;;
                 add_clients rest (client_map_set m k client_name)
            else add_clients rest m
       else add_clients rest m)%outcome
  end.

Section Main.
Variable api : endpoints.

(** The first [for config in configs]: the master client map. *)
Fixpoint build_client_map (configs : list json) (m : client_map) : Run client_map :=
  match configs with
  | [] => rret m
  | config :: rest =>
      (config_id <- rlift (json_get config "ConfigID" JNone) ;;
       if negb (json_truthy config_id) then build_client_map rest m
       else
         config_id <- rlift (scalar config_id) ;;
         clients <- in_world (chase_api_get (API_CLIENTS api) config_id) ;;
         match clients with
         | JList client_list =>
             m' <- rlift (add_clients client_list m) ;;
             build_client_map rest m'
         | _ => build_client_map rest m
         end)%run
  end.

(** [for bu in business_units] *)
Fixpoint collect_business_units (config_id : pyval) (business_units : list json)
    (all_business_units : list record) : Run (list record) :=
  match business_units with
  | [] => rret all_business_units
  | bu :: rest =>
      (business_unit_id <- rlift (json_get bu "BusinessUnitID" JNone) ;;
       business_unit_name <- rlift (json_get bu "BusinessUnit" JNone) ;;
       if json_truthy business_unit_id
       then
         business_unit_id <- rlift (scalar business_unit_id) ;;
         business_unit_name <- rlift (scalar business_unit_name) ;;
         let bu_data : record :=
           [("config_id", config_id);
            ("business_unit_id", business_unit_id);
            ("business_unit_name", business_unit_name);
            ("status", PStr "Active")] in
         collect_business_units config_id rest (all_business_units ++ [bu_data])
       else
         rlog (LogSkipBU config_id) ;;;
         collect_business_units config_id rest all_business_units)%run
  end.

(** [for div in divisions] *)
Fixpoint collect_divisions (config_id : pyval) (client_id_to_name_map : client_map)
    (divisions : list json) (all_divisions : list record) : Run (list record) :=
  match divisions with
  | [] => rret all_divisions
  | div :: rest =>
      (customer_id <- rlift (json_get div "CustomerID" JNone) ;;
       division_id <- rlift (json_get div "DivisionID" JNone) ;;
       division_name <- rlift (json_get div "DivisionName" JNone) ;;
       if negb (json_truthy customer_id && json_truthy division_id
                && json_truthy division_name)
       then
         rlog (LogSkipDivision config_id) ;;;
         collect_divisions config_id client_id_to_name_map rest all_divisions
       else
         customer_id <- rlift (hashable customer_id) ;;
         let customer_name :=
           match client_map_get client_id_to_name_map customer_id with
           | Some name => name
           | None => JNone
           end in
         division_id <- rlift (scalar division_id) ;;
         division_name <- rlift (scalar division_name) ;;
         customer_name <- rlift (scalar customer_name) ;;
         let div_data : record :=
           [("division_id", division_id);
            ("division_name", division_name);
            ("customer_id", customer_id);
            ("customer_name", customer_name);
            ("status", PStr "Active")] in
         collect_divisions config_id client_id_to_name_map rest
           (all_divisions ++ [div_data]))%run
  end.

(** [for product in products] *)
Fixpoint collect_products (config_id client_id : pyval) (client : json)
    (products : list json) (product_client_list : list record)
  : outcome (list record) :=
  match products with
  | [] => Ret product_client_list
  | product :: rest =>
      (prod_id <- json_get product "ProductID" JNone ;;
       if negb (json_truthy prod_id)
       then collect_products config_id client_id client rest product_client_list
       else
         client_name <- json_get client "ClientName" JNone ;;
         product_name <- json_get product "ProductName" JNone ;;
         contact_name <- json_get product "ContactName" JNone ;;
         client_name <- scalar client_name ;;
         prod_id <- scalar prod_id ;;
         product_name <- scalar product_name ;;
         contact_name <- scalar contact_name ;;
         let prod_client_data : record :=
           [("config_id", config_id);
            ("client_id", client_id);
            ("client_name", client_name);
            ("product_id", prod_id);
            ("product_name", product_name);
            ("contact_name", contact_name);
            ("status", PStr "Active")] in
         collect_products config_id client_id client rest
           (product_client_list ++ [prod_client_data]))%outcome
  end.

(** [for client in clients] of the second loop; the result is the list of
    the config and [overall_success]. *)
Fixpoint collect_clients (config_id : pyval) (clients : list json)
    (product_client_list : list record) (overall_success : bool)
  : Run (list record * bool) :=
  match clients with
  | [] => rret (product_client_list, overall_success)
  | client :: rest =>
      (client_id <- rlift (json_get client "ClientID" JNone) ;;
       if negb (json_truthy client_id)
       then collect_clients config_id rest product_client_list overall_success
       else
         client_id <- rlift (scalar client_id) ;;
         products <- in_world (chase_api_get
                                 (API_PRODUCTS api ++ "/CustomerID/" ++ py_str client_id)
                                 config_id) ;;
         match products with
         | JList product_list =>
             (if is_nil product_list then rlog (LogNoProducts client_id config_id)
              else rret tt) ;;;
             product_client_list' <-
               rlift (collect_products config_id client_id client product_list
                        product_client_list) ;;
             collect_clients config_id rest product_client_list' overall_success
         | _ =>
             rlog (LogProductsFailed client_id config_id) ;;;
             collect_clients config_id rest product_client_list false
         end)%run
  end.

(** What the second [for config in configs] has gathered. *)
Record collected : Type := {
  all_business_units : list record;
  all_products_clients_by_config : dict (list record);
  all_divisions : list record;
  overall_success : bool
}.

Fixpoint collect_configs (client_id_to_name_map : client_map) (configs : list json)
    (c : collected) : Run collected :=
  match configs with
  | [] => rret c
  | config :: rest =>
      (config_id <- rlift (json_get config "ConfigID" JNone) ;;
       config_name <- rlift (json_get config "CompanyName" JNone) ;;
       if negb (json_truthy config_id)
       then collect_configs client_id_to_name_map rest c
       else
         config_id <- rlift (scalar config_id) ;;
         let config_id_str := py_str config_id in
         business_units <- in_world (chase_api_get (API_BUSINESS_UNITS api) config_id) ;;
         bu <- match business_units with
               | JList l =>
                   bus <- collect_business_units config_id l (all_business_units c) ;;
                   rret (bus, overall_success c)
               | _ =>
                   rlog (LogBUFailed config_id) ;;;
                   rret (all_business_units c, false)
               end ;;
         divisions <- in_world (chase_api_get (API_DIVISIONS api) config_id) ;;
         dv <- match divisions with
               | JList l =>
                   divs <- collect_divisions config_id client_id_to_name_map l
                             (all_divisions c) ;;
                   rret (divs, snd bu)
               | _ =>
                   rlog (LogDivisionsFailed config_id) ;;;
                   rret (all_divisions c, false)
               end ;;
         if negb (dict_mem config_id_str AGENCY_PRODUCT_TABLE_MAP)
         then
           rlog (LogNoProductTable config_id_str) ;;;
           collect_configs client_id_to_name_map rest
             {| all_business_units := fst bu;
                all_products_clients_by_config := all_products_clients_by_config c;
                all_divisions := fst dv;
                overall_success := snd dv |}
         else
           clients <- in_world (chase_api_get (API_CLIENTS api) config_id) ;;
           match clients with
           | JList client_list =>
               rlog (LogProcessingClients (List.length client_list) config_id) ;;;
               pc <- collect_clients config_id client_list
                       (dict_get_default (all_products_clients_by_config c)
                          config_id_str [])
                       (snd dv) ;;
               collect_configs client_id_to_name_map rest
                 {| all_business_units := fst bu;
                    all_products_clients_by_config :=
                      dict_set (all_products_clients_by_config c) config_id_str (fst pc);
                    all_divisions := fst dv;
                    overall_success := snd pc |}
           | _ =>
               rlog (LogClientsFailed config_id) ;;;
               collect_configs client_id_to_name_map rest
                 {| all_business_units := fst bu;
                    all_products_clients_by_config := all_products_clients_by_config c;
                    all_divisions := fst dv;
                    overall_success := false |}
           end)%run
  end.

(** [for config_id_str, product_client_list in
    all_products_clients_by_config.items()] *)
Fixpoint sync_products (turns : nat) (items : dict (list record))
    (overall_success : bool) : Run bool :=
  match items with
  | [] => rret overall_success
  | (config_id_str, product_client_list) :: rest =>
      (let target_table_id := dict_get AGENCY_PRODUCT_TABLE_MAP config_id_str in
       match target_table_id with
       | Some target =>
           if negb (is_empty target)
           then
             rlog (LogCollectedProducts (List.length product_client_list)
                     config_id_str) ;;;
             success_prod <- sync_table_with_fetch turns product_client_list target
                               product_client_field_map ;;
             sync_products turns rest (overall_success && success_prod)
           else
             rlog (LogProductTableMissing config_id_str) ;;;
             sync_products turns rest false
       | None =>
           rlog (LogProductTableMissing config_id_str) ;;;
           sync_products turns rest false
       end)%run
  end.

(** [main] from the line [# --- Sync Business Units ---] on. *)
Definition sync_collected (turns : nat) (c : collected) : Run unit :=
  (rlog (LogCollectedBU (List.length (all_business_units c))) ;;;
   success_bu <- sync_table_with_fetch turns (all_business_units c)
                   BU_AGENCY_TABLE_ID bu_agency_field_map ;;
   let overall_success := overall_success c && success_bu in
   rlog (LogCollectedDivisions (List.length (all_divisions c))) ;;;
   success_div <- sync_table_with_fetch turns (all_divisions c)
                    DIVISIONS_TABLE_ID divisions_field_map ;;
   let overall_success := overall_success && success_div in
   overall_success <- sync_products turns (all_products_clients_by_config c)
                        overall_success ;;
   if overall_success
   then rlog LogSyncComplete
   else rlog LogSyncCompleteWithWarnings ;;; sys_exit 1)%run.

(** Nothing gathered yet. *)
Definition nothing_collected : collected :=
  {| all_business_units := [];
     all_products_clients_by_config :=
       map (fun kv => (fst kv, [])) AGENCY_PRODUCT_TABLE_MAP;
     all_divisions := [];
     overall_success := true |}.

Definition main (turns : nat) : Run unit :=
  (rlog LogMainStart ;;;
   configs <- in_world (chase_api_get (API_CONFIGS api) PNone) ;;
   match configs with
   | JList config_list =>
       rlog (LogFoundConfigs (List.length config_list)) ;;;
       rlog LogBuildingClientMap ;;;
       client_id_to_name_map <- build_client_map config_list [] ;;
       rlog (LogClientMapBuilt (List.length client_id_to_name_map)) ;;;
       c <- collect_configs client_id_to_name_map config_list nothing_collected ;;
       sync_collected turns c
   | _ =>
       rlog LogConfigsFailed ;;;
       sys_exit 1
   end)%run.

(** The block under [if __name__ == "__main__"]: an [Exception] is written
    to the log and the process exits with 1; [SystemExit] is no
    [Exception].  [Unsupported] is no exception of Python: where the model
    does not follow, the script does not either. *)
Definition script (turns : nat) : Run unit :=
  fun s =>
    match main turns s with
    | (Exception Unsupported, s') => (Exception Unsupported, s')
    | (Exception e, s') => (rlog (LogCritical e) ;;; sys_exit 1)%run s'
    | r => r
    end.
End Main.

(* ================================================================== *)
(** ** Notions used to state the further properties *)
(* ================================================================== *)

(** The payloads posted, the endpoints read and the pauses made in a stretch
    of the trace, in order. *)
Definition posts_in (d : list event) : list payload :=
  flat_map (fun e => match e with EvPost p => [p] | _ => [] end) d.

Definition gets_in (d : list event) : list (string * pyval) :=
  flat_map (fun e => match e with EvGet e c => [(e, c)] | _ => [] end) d.

Definition sleeps_in (d : list event) : list nat :=
  flat_map (fun e => match e with EvSleep s => [s] | _ => [] end) d.

(** What attempt number [attempt] of [pipefy_post] ends the call with, if
    it ends it.  An object is returned when it has no [errors], and on the
    last attempt also when it has; a 4xx status other than 429 gives the
    client error body.  A body that is no object is returned as it is when
    it is a list without the element ["errors"] or a string without that
    text, and raises [TypeError] otherwise.  A timeout and any other
    failure of the request, a body that is not JSON among them, end
    nothing. *)
Definition post_decides (attempt : nat) (a : post_attempt) : option (outcome json) :=
  match a with
  | PostJson (JDict body) =>
      if dict_mem "errors" body
      then (if Nat.eqb attempt (max_retries - 1) then Some (Ret (JDict body)) else None)
      else Some (Ret (JDict body))
  | PostJson (JList l) =>
      if existsb (fun x => match x with
                           | JVal (PStr s) => (s =? "errors")%string
                           | _ => false
                           end) l
      then Some (Raise TypeError)
      else Some (Ret (JList l))
  | PostJson (JVal (PStr s)) =>
      if contains "errors" s then Some (Raise TypeError) else Some (Ret (JVal (PStr s)))
  | PostJson (JVal _) => Some (Raise TypeError)
  | PostTimeout => None
  | PostRequestError status text =>
      if is_client_error status then Some (Ret (JDict (pipefy_client_error text)))
      else None
  end.

(** The same for [chase_api_get], which raises nothing: the parsed body,
    the empty list for a response without content, [None] for a 4xx status
    other than 429. *)
Definition get_decides (a : get_attempt) : option json :=
  match a with
  | GetJson body => Some body
  | GetEmpty => Some (JList [])
  | GetTimeout => None
  | GetRequestError status => if is_client_error status then Some JNone else None
  end.

(** [pipefy_post] as a function of what its three attempts meet: how the
    call ends and the number of requests made. *)
Definition pipefy_post_spec (a0 a1 a2 : post_attempt) : outcome json * nat :=
  match post_decides 0 a0 with
  | Some v => (v, 1)
  | None =>
      match post_decides 1 a1 with
      | Some v => (v, 2)
      | None =>
          match post_decides 2 a2 with
          | Some v => (v, 3)
          | None => (Ret (JDict pipefy_exhausted), 3)
          end
      end
  end.

(** The same for [chase_api_get]. *)
Definition chase_api_get_spec (a0 a1 a2 : get_attempt) : json * nat :=
  match get_decides a0 with
  | Some v => (v, 1)
  | None =>
      match get_decides a1 with
      | Some v => (v, 2)
      | None =>
          match get_decides a2 with
          | Some v => (v, 3)
          | None => (JNone, 3)
          end
      end
  end.

(** The second character of the escapes that [escape] writes. *)
Definition is_escape_code (c : ascii) : bool :=
  Ascii.eqb c ch_backslash || Ascii.eqb c ch_dquote || Ascii.eqb c "n"
  || Ascii.eqb c "r" || Ascii.eqb c "t".

(** Reading the inside of a double-quoted literal from the left: a backslash
    opens an escape, whose code must follow ([pending]); outside an escape
    there is no double quote, line feed, carriage return or tab. *)
Fixpoint scan_escapes (pending : bool) (s : string) : bool :=
  match s with
  | EmptyString => negb pending
  | String c r =>
      if pending then is_escape_code c && scan_escapes false r
      else if Ascii.eqb c ch_backslash then scan_escapes true r
      else negb (Ascii.eqb c ch_dquote) && negb (Ascii.eqb c ch_nl)
           && negb (Ascii.eqb c ch_cr) && negb (Ascii.eqb c ch_tab)
           && scan_escapes false r
  end.

Definition well_escaped (s : string) : bool := scan_escapes false s.

(** The attributes [get_key] reads: the declared keys, except for the
    divisions table. *)
Definition key_attributes (pipefy_table_id : string) (fm : field_mapping)
  : list string :=
  if (pipefy_table_id =? DIVISIONS_TABLE_ID)%string
  then ["division_id"; "customer_id"]
  else keys fm.

(** The last record of [records] whose key is [k]. *)
Fixpoint last_with_key (pipefy_table_id : string) (fm : field_mapping)
    (is_pipefy : bool) (records : list record) (k : string) : option record :=
  match records with
  | [] => None
  | r :: rest =>
      match last_with_key pipefy_table_id fm is_pipefy rest k with
      | Some r' => Some r'
      | None =>
          match get_key pipefy_table_id fm r is_pipefy with
          | Ret k' => if (k' =? k)%string then Some r else None
          | Raise _ => None
          end
      end
  end.

(** The world [w] with the lines [lines] added to its log, and nothing else
    changed. *)
Definition logged (w : world) (lines : list log_msg) : world :=
  fold_left log_to lines w.

(** The world [w] after one more request to Pipefy, after one more request
    to Chase, and after a pause. *)
Definition posted (w : world) (p : payload) : world :=
  {| pipefy_net := pipefy_net w; pipefy_posts := S (pipefy_posts w);
     chase_net := chase_net w; chase_gets := chase_gets w;
     DONE_PHASE_CACHE := DONE_PHASE_CACHE w;
     trace := trace w ++ [EvPost p] |}.

Definition got (w : world) (endpoint : string) (config_id : pyval) : world :=
  {| pipefy_net := pipefy_net w; pipefy_posts := pipefy_posts w;
     chase_net := chase_net w; chase_gets := S (chase_gets w);
     DONE_PHASE_CACHE := DONE_PHASE_CACHE w;
     trace := trace w ++ [EvGet endpoint config_id] |}.

Definition paused (w : world) (seconds : nat) : world :=
  {| pipefy_net := pipefy_net w; pipefy_posts := pipefy_posts w;
     chase_net := chase_net w; chase_gets := chase_gets w;
     DONE_PHASE_CACHE := DONE_PHASE_CACHE w;
     trace := trace w ++ [EvSleep seconds] |}.

(** The record a fragment acts on is [r]: the destination id it names is
    that of [r], and the title it sets is the title of [r]. *)
Definition acts_on (r : record) (b : mutation_body) : Prop :=
  match b with
  | CreateTableRecord _ title _ => title = title_of r
  | UpdateFieldsValues nodeId _ => nodeId = py_str (rget r "pipefy_record_id")
  | UpdateTableRecord id title =>
      id = py_str (rget r "pipefy_record_id") /\ title = title_of r
  | UpdateTableRecordField table_record_id _ _ =>
      table_record_id = py_str (rget r "pipefy_record_id")
  end.

(** The three attributes the diff adds to a source record to be updated. *)
Definition update_attributes : list string :=
  ["pipefy_record_id"; "current_title"; "status"].

(** A world for examples: nothing sent yet, a network that never answers
    and the given phase cache. *)
Definition world_with_cache (cache : dict json) : world :=
  {| pipefy_net := fun _ => PostTimeout; pipefy_posts := 0;
     chase_net := fun _ => GetTimeout; chase_gets := 0;
     DONE_PHASE_CACHE := cache; trace := [] |}.

(** A fragment of record [i]: it has the alias of [i], with or without the
    title suffix, and acts on the record. *)
Definition fragment_of (action : string) (fm : field_mapping) (i : nat) (r : record)
    (f : fragment) : Prop :=
  (frag_alias f = mut_alias action (keys fm) i r
   \/ frag_alias f = (mut_alias action (keys fm) i r ++ "_ttl")%string)
  /\ acts_on r (frag_body f).

(** The payload of the phase query of [get_done_phase_id]. *)
Definition phases_payload (table_id : string) : payload :=
  {| query := phases_query; variables := Some [("table_id", PStr table_id)] |}.

(** [response.get("data", {}).get("table", {}).get("phases", [])] as the
    loop goes through it. *)
Definition phases_of (response : json) : outcome (list json) :=
  (data <- response_data response ;;
   table <- json_get data "table" (JDict []) ;;
   phases <- json_get table "phases" (JList []) ;;
   json_iter phases)%outcome.

(** The phase [p] is an object whose name is the string [n]. *)
Definition named (p : json) (n : string) : Prop :=
  exists d, p = JDict d /\ dict_get_default d "name" (JVal (PStr "")) = JVal (PStr n).

(** What the [n]-th and the two following requests to Pipefy meet make of
    one call of [pipefy_post]. *)
Definition pipefy_post_outcome (w : world) : outcome json * nat :=
  pipefy_post_spec (pipefy_net w (pipefy_posts w))
                   (pipefy_net w (pipefy_posts w + 1))
                   (pipefy_net w (pipefy_posts w + 2)).

(** A call that returned a response of which [P] holds. *)
Definition answered (P : json -> bool) (call : outcome json * nat) : bool :=
  match fst call with
  | Ret response => P response
  | Raise _ => false
  end.

(** How [count] successive calls of [pipefy_post] end, the first of which
    sends the request number [n], and the number of requests each of them
    makes, as the answers of the network decide. *)
Fixpoint calls_from (net : nat -> post_attempt) (n count : nat)
  : list (outcome json * nat) :=
  match count with
  | 0 => []
  | S count' =>
      let call := pipefy_post_spec (net n) (net (n + 1)) (net (n + 2)) in
      call :: calls_from net (n + snd call) count'
  end.

(** The requests that post the batches [bs] in order, each as many times
    as the call that posts it makes requests. *)
Definition batch_posts (bs : list (list string)) (calls : list (outcome json * nat))
  : list payload :=
  flat_map (fun bc => repeat (batch_payload (fst bc)) (snd (snd bc))) (combine bs calls).

(** [m] sends no request to Pipefy, and leaves the answers to come and the
    phase cache as they are. *)
Definition sends_nothing {A : Type} (m : M A) : Prop :=
  forall w, exists d,
    trace (snd (m w)) = trace w ++ d
    /\ posts_in d = []
    /\ pipefy_net (snd (m w)) = pipefy_net w
    /\ pipefy_posts (snd (m w)) = pipefy_posts w
    /\ DONE_PHASE_CACHE (snd (m w)) = DONE_PHASE_CACHE w.

(** [m] sends at most [k] requests to Pipefy, whatever the world. *)
Definition posts_within (k : nat) {A : Type} (m : M A) : Prop :=
  forall w, pipefy_posts w <= pipefy_posts (snd (m w))
            /\ pipefy_posts (snd (m w)) <= pipefy_posts w + k.

(* ------------------------------------------------------------------ *)
(** *** Pages, to state what a fetch does *)

(** A page as Pipefy serves it: the body of the response, the records and
    the cursor [read_page] finds in it. *)
Record page : Type := {
  page_body : dict json;
  page_records : list pipefy_record;
  page_cursor : pyval
}.

(** The request number [n] is answered at once with the page [p], which
    says [has_next] for [hasNextPage]. *)
Definition serves_page (net : nat -> post_attempt) (n : nat) (p : page)
    (has_next : bool) : Prop :=
  net n = PostJson (JDict (page_body p))
  /\ response_failed (JDict (page_body p)) = Ret false
  /\ exists has_next_page,
       read_page (JDict (page_body p))
       = Ret (page_records p, has_next_page, JVal (page_cursor p))
       /\ json_truthy has_next_page = has_next.

(** The requests from number [n] on are answered with [pages], in order;
    each page but the last says that another follows, and the last says
    [then_more]. *)
Fixpoint serves (net : nat -> post_attempt) (n : nat) (pages : list page)
    (then_more : bool) : Prop :=
  match pages with
  | [] => True
  | p :: rest =>
      serves_page net n p (negb (is_nil rest) || then_more)
      /\ serves net (S n) rest then_more
  end.

(** The request for the page after [cursor]. *)
Definition page_request (table_id : string) (cursor : pyval) : payload :=
  {| query := records_query;
     variables := Some (if truthy cursor
                        then [("table_id", PStr table_id); ("cursor", cursor)]
                        else [("table_id", PStr table_id)]) |}.

(** The cursor a fetch holds after [pages], from [cursor]. *)
Definition cursor_after (cursor : pyval) (pages : list page) : pyval :=
  last (map page_cursor pages) cursor.

(** The requests that fetch [pages] from [cursor] on. *)
Fixpoint page_requests (table_id : string) (cursor : pyval) (pages : list page)
  : list payload :=
  match pages with
  | [] => []
  | p :: rest => page_request table_id cursor :: page_requests table_id (page_cursor p) rest
  end.

(** Two pages for the examples. *)
Definition ex_edge (id title slug value : string) : json :=
  JDict [("node",
          JDict [("id", JVal (PStr id)); ("title", JVal (PStr title));
                 ("record_fields",
                  JList [JDict [("field", JDict [("id", JVal (PStr slug))]);
                                ("value", JVal (PStr value))]])])].

Definition ex_page_body (edges : list json) (has_next : bool) (cursor : pyval)
  : dict json :=
  [("data",
    JDict [("table_records",
            JDict [("pageInfo", JDict [("endCursor", JVal cursor);
                                       ("hasNextPage", JVal (PBool has_next))]);
                   ("edges", JList edges)])])].

Definition ex_page_1 : page :=
  {| page_body := ex_page_body [ex_edge "900" "Strategy Team" "config_id" "6"] true
                               (PStr "c1");
     page_records := [[("pipefy_record_id", JVal (PStr "900"));
                       ("title", JVal (PStr "Strategy Team"));
                       ("config_id", JVal (PStr "6"))]];
     page_cursor := PStr "c1" |}.

Definition ex_page_2 : page :=
  {| page_body := ex_page_body [ex_edge "901" "Old Unit" "config_id" "6"] false PNone;
     page_records := [[("pipefy_record_id", JVal (PStr "901"));
                       ("title", JVal (PStr "Old Unit"));
                       ("config_id", JVal (PStr "6"))]];
     page_cursor := PNone |}.

(** The state at the start of a run in the world [w]. *)
Definition run_from (w : world) : run_state :=
  {| outside := w; run_log := [] |}.

(** The slug of a field when it is a true string, and the value the last
    field of [fields_list] with the slug [slug] gives. *)
Definition field_slug (field : json) : option string :=
  match json_get field "field" (JDict []) with
  | Ret f =>
      match json_get f "id" JNone with
      | Ret (JVal (PStr s)) => if is_empty s then None else Some s
      | _ => None
      end
  | Raise _ => None
  end.

Fixpoint last_field_value (fields_list : list json) (slug : string) : option json :=
  match fields_list with
  | [] => None
  | field :: rest =>
      match last_field_value rest slug with
      | Some v => Some v
      | None =>
          match field_slug field with
          | Some s =>
              if (s =? slug)%string
              then match json_get field "value" JNone with
                   | Ret v => Some v
                   | Raise _ => None
                   end
              else None
          | None => None
          end
      end
  end.

(* ------------------------------------------------------------------ *)
(** *** Notions used to state the properties of [main] *)

(** A source record [create] does not skip and whose key has no empty
    part: every key attribute is there with a true value, and the status is
    Active. *)
Definition complete_record (fm : field_mapping) (r : record) : Prop :=
  Forall (fun k => dict_mem k r = true /\ truthy (rget r k) = true) (keys fm)
  /\ dict_get r "status" = Some (PStr "Active").

(** The same of everything gathered. *)
Definition all_complete (c : collected) : Prop :=
  Forall (complete_record bu_agency_field_map) (all_business_units c)
  /\ Forall (complete_record divisions_field_map) (all_divisions c)
  /\ Forall (fun kl => Forall (complete_record product_client_field_map) (snd kl))
            (all_products_clients_by_config c).

(** Endpoints and an answer of Chase for the examples. *)
Definition ex_api : endpoints :=
  {| API_CONFIGS := "/api/Config"; API_CLIENTS := "/api/Client";
     API_PRODUCTS := "/api/Product"; API_BUSINESS_UNITS := "/api/BusinessUnit";
     API_DIVISIONS := "/API/Client/Divisions" |}.

Definition ex_business_units : list json :=
  [JDict [("BusinessUnitID", JVal (PInt 12)); ("BusinessUnit", JVal (PStr "Strategy"))];
   JDict [("BusinessUnitID", JVal (PInt 0)); ("BusinessUnit", JVal (PStr "Nameless"))]].

(** One config, 6, and what [main] gathers for it when Chase answers every
    request with [ex_business_units]. *)
Definition ex_configs : list json :=
  [JDict [("ConfigID", JVal (PInt 6)); ("CompanyName", JVal (PStr "Up and Up"))]].

Definition ex_collected : collected :=
  match collect_configs ex_api [] ex_configs nothing_collected
          (run_from (world_answering PostTimeout (GetJson (JList ex_business_units))))
  with
  | (Value c, _) => c
  | _ => nothing_collected
  end.

(** [m] never ends with [sys.exit]. *)
Definition never_exits {A : Type} (m : Run A) : Prop :=
  forall s code s', m s <> (SystemExit code, s').

(** [m] ends with [sys.exit] only with the status 1. *)
Definition exits_with_1 {A : Type} (m : Run A) : Prop :=
  forall s code s', m s = (SystemExit code, s') -> code = 1.

(** [m] leaves the side of Pipefy as it is: no request, the same answers
    to come, the same phase cache. *)
Definition leaves_pipefy {A : Type} (m : M A) : Prop :=
  forall w, pipefy_posts (snd (m w)) = pipefy_posts w
            /\ pipefy_net (snd (m w)) = pipefy_net w
            /\ DONE_PHASE_CACHE (snd (m w)) = DONE_PHASE_CACHE w.

(** The business unit of the examples as Pipefy serves it, and as the diff
    reads it. *)
Definition ex_page_3 : page :=
  {| page_body :=
       ex_page_body
         [JDict [("node",
                  JDict [("id", JVal (PStr "900")); ("title", JVal (PStr "Strategy Team"));
                         ("record_fields",
                          JList [JDict [("field", JDict [("id", JVal (PStr "config_id"))]);
                                        ("value", JVal (PStr "6"))];
                                 JDict [("field",
                                         JDict [("id", JVal (PStr "business_unit_id"))]);
                                        ("value", JVal (PStr "12"))];
                                 JDict [("field",
                                         JDict [("id", JVal (PStr "business_unit_name"))]);
                                        ("value", JVal (PStr "Strategy Team "))];
                                 JDict [("field", JDict [("id", JVal (PStr "status"))]);
                                        ("value", JVal (PStr "Active"))]])])]]
         false PNone;
     page_records :=
       [[("pipefy_record_id", JVal (PStr "900")); ("title", JVal (PStr "Strategy Team"));
         ("config_id", JVal (PStr "6")); ("business_unit_id", JVal (PStr "12"));
         ("business_unit_name", JVal (PStr "Strategy Team "));
         ("status", JVal (PStr "Active"))]];
     page_cursor := PNone |}.

Definition ex_fetched_bu : record :=
  [("pipefy_record_id", PStr "900"); ("title", PStr "Strategy Team");
   ("config_id", PStr "6"); ("business_unit_id", PStr "12");
   ("business_unit_name", PStr "Strategy Team "); ("status", PStr "Active")].

(* ================================================================== *)
(** * Properties *)
(* ================================================================== *)

Unset Implicit Arguments.

(* ------------------------------------------------------------------ *)
(** ** Sanitization *)
(* ------------------------------------------------------------------ *)

Ltac ascii_cases c := destruct c as [[] [] [] [] [] [] [] []].

Lemma append_nil_r (s : string) : (s ++ "")%string = s.
Proof. induction s; simpl; congruence. Qed.

Lemma append_assoc (s t u : string) : ((s ++ t) ++ u)%string = (s ++ (t ++ u))%string.
Proof. induction s; simpl; congruence. Qed.

Lemma length_append (s t : string) :
  String.length (s ++ t) = String.length s + String.length t.
Proof. induction s; simpl; congruence. Qed.

Lemma all_chars_append p (s t : string) :
  all_chars p (s ++ t) = all_chars p s && all_chars p t.
Proof. induction s; simpl; [reflexivity|]. rewrite IHs. apply andb_assoc. Qed.

Lemma all_chars_impl (p q : ascii -> bool) (s : string) :
  (forall c, p c = true -> q c = true) ->
  all_chars p s = true -> all_chars q s = true.
Proof.
  intros Hpq. induction s; simpl; [reflexivity|].
  intros H. apply andb_true_iff in H as [H1 H2].
  rewrite (Hpq _ H1), (IHs H2). reflexivity.
Qed.

Lemma is_empty_true (s : string) : is_empty s = true <-> s = EmptyString.
Proof. destruct s; simpl; split; congruence. Qed.

Lemma is_empty_append (s t : string) :
  is_empty (s ++ t) = is_empty s && is_empty t.
Proof. destruct s; reflexivity. Qed.

(** *** [split] and [join] *)
Lemma split_from_word (w acc rest : string) :
  no_space w = true ->
  split_from acc (w ++ rest) = split_from (acc ++ w) rest.
Proof.
  revert acc. induction w as [|c w IH]; intros acc H; simpl.
  - now rewrite append_nil_r.
  - simpl in H. apply andb_true_iff in H as [Hc Hw].
    apply negb_true_iff in Hc. rewrite Hc, (IH _ Hw), append_assoc. reflexivity.
Qed.

Lemma split_join (ws : list string) :
  Forall word_ok ws -> split (join " " ws) = ws.
Proof.
  unfold split. induction ws as [|w ws IH]; intros H; [reflexivity|].
  inversion H as [|? ? [Hne Hns] Hrest]; subst.
  destruct ws as [|w2 ws].
  - simpl. rewrite <- (append_nil_r w) at 1.
    rewrite split_from_word by assumption. simpl.
    destruct w; [congruence | reflexivity].
  - change (join " " (w :: w2 :: ws)) with (w ++ (" " ++ join " " (w2 :: ws)))%string.
    rewrite split_from_word by assumption. simpl.
    destruct w; [congruence|]. simpl. f_equal. apply IH. assumption.
Qed.

Lemma split_from_ok (s acc : string) :
  acc = EmptyString \/ word_ok acc -> Forall word_ok (split_from acc s).
Proof.
  revert acc. induction s as [|c r IH]; intros acc Hacc; simpl.
  - destruct Hacc as [-> | Hok]; simpl; [constructor|].
    destruct acc; [destruct Hok; congruence|]. simpl. constructor; [assumption|constructor].
  - destruct (isspace c) eqn:Hc.
    + destruct Hacc as [-> | Hok]; simpl.
      * apply IH. now left.
      * destruct acc; [destruct Hok; congruence|]. simpl.
        constructor; [assumption|]. apply IH. now left.
    + apply IH. right. split.
      * destruct acc; discriminate.
      * unfold no_space. rewrite all_chars_append. simpl. rewrite Hc. simpl.
        destruct Hacc as [-> | [_ Hok]]; [reflexivity|].
        unfold no_space in Hok. rewrite Hok. reflexivity.
Qed.

Lemma split_ok (s : string) : Forall word_ok (split s).
Proof. apply split_from_ok. now left. Qed.

Lemma normalize_ws_idempotent (s : string) :
  normalize_ws (normalize_ws s) = normalize_ws s.
Proof. unfold normalize_ws. rewrite split_join by apply split_ok. reflexivity. Qed.

(** *** [escape], character by character *)
Lemma replace_char_append c r (s t : string) :
  replace_char c r (s ++ t) = (replace_char c r s ++ replace_char c r t)%string.
Proof. induction s; simpl; [reflexivity|]. rewrite IHs, append_assoc. reflexivity. Qed.

Lemma escape_append (s t : string) : escape (s ++ t) = (escape s ++ escape t)%string.
Proof. unfold escape. now rewrite !replace_char_append. Qed.

Lemma escape_cons (c : ascii) (s : string) :
  escape (String c s) = (escape (str1 c) ++ escape s)%string.
Proof. change (String c s) with (str1 c ++ s)%string. apply escape_append. Qed.

Lemma escape_char_word (c : ascii) :
  isspace c = false ->
  is_empty (escape (str1 c)) = false /\ no_space (escape (str1 c)) = true.
Proof. ascii_cases c; intros H; (discriminate H || (split; reflexivity)). Qed.

Lemma escape_char_nonempty (c : ascii) : is_empty (escape (str1 c)) = false.
Proof. ascii_cases c; reflexivity. Qed.

Lemma escape_word_ok (w : string) : word_ok w -> word_ok (escape w).
Proof.
  intros [Hne Hns]. split.
  - destruct w as [|c w]; [congruence|]. rewrite escape_cons.
    intros E. apply is_empty_true in E. rewrite is_empty_append, escape_char_nonempty in E.
    discriminate.
  - clear Hne. induction w as [|c w IH]; [reflexivity|].
    simpl in Hns. apply andb_true_iff in Hns as [Hc Hw]. apply negb_true_iff in Hc.
    rewrite escape_cons. unfold no_space. rewrite all_chars_append.
    destruct (escape_char_word c Hc) as [_ H1]. unfold no_space in H1. rewrite H1.
    apply IH, Hw.
Qed.

Lemma escape_join (ws : list string) :
  escape (join " " ws) = join " " (map escape ws).
Proof.
  induction ws as [|w ws IH]; [reflexivity|].
  destruct ws as [|w2 ws]; [reflexivity|].
  change (join " " (w :: w2 :: ws)) with (w ++ (" " ++ join " " (w2 :: ws)))%string.
  rewrite !escape_append, IH. reflexivity.
Qed.

Lemma normalize_escape_normalize (s : string) :
  normalize_ws (escape (normalize_ws s)) = escape (normalize_ws s).
Proof.
  unfold normalize_ws at 2 3. rewrite escape_join. unfold normalize_ws.
  rewrite split_join; [reflexivity|].
  apply Forall_map. eapply Forall_impl; [|apply split_ok].
  intros w. apply escape_word_ok.
Qed.

Lemma sanitize_twice (x : string) :
  sanitize_graphql_string (PStr (sanitize_graphql_string (PStr x)))
  = escape (escape (normalize_ws x)).
Proof. simpl. now rewrite normalize_escape_normalize. Qed.

(** *** The characters of a normalized string *)
Lemma all_chars_join p (ws : list string) :
  p ch_space = true ->
  Forall (fun w => all_chars p w = true) ws -> all_chars p (join " " ws) = true.
Proof.
  intros Hsp. unfold ch_space in Hsp.
  induction ws as [|w ws IH]; intros H; [reflexivity|].
  inversion H; subst. destruct ws as [|w2 ws]; [assumption|].
  change (join " " (w :: w2 :: ws)) with (w ++ (" " ++ join " " (w2 :: ws)))%string.
  rewrite all_chars_append. specialize (IH H3).
  remember (join " " (w2 :: ws)) as J. simpl. now rewrite H2, Hsp, IH.
Qed.

Lemma join_all_chars p (ws : list string) :
  all_chars p (join " " ws) = true -> Forall (fun w => all_chars p w = true) ws.
Proof.
  induction ws as [|w ws IH]; intros H; [constructor|].
  destruct ws as [|w2 ws]; [constructor; [assumption|constructor]|].
  change (join " " (w :: w2 :: ws)) with (w ++ (" " ++ join " " (w2 :: ws)))%string in H.
  rewrite all_chars_append in H. apply andb_true_iff in H as [H1 H2].
  remember (join " " (w2 :: ws)) as J.
  simpl in H2. apply andb_true_iff in H2 as [_ H2]. subst J.
  constructor; [assumption|]. apply IH, H2.
Qed.

Lemma split_from_all_chars p (s acc : string) :
  all_chars p acc = true -> all_chars p s = true ->
  Forall (fun w => all_chars p w = true) (split_from acc s).
Proof.
  revert acc. induction s as [|c r IH]; intros acc Hacc Hs; simpl.
  - destruct (is_empty acc); repeat constructor; assumption.
  - simpl in Hs. apply andb_true_iff in Hs as [Hc Hr].
    destruct (isspace c).
    + destruct (is_empty acc); [|constructor; [assumption|]]; now apply IH.
    + apply IH; [|assumption]. rewrite all_chars_append, Hacc. simpl. now rewrite Hc.
Qed.

Lemma all_chars_split_from p (s acc : string) :
  Forall (fun w => all_chars p w = true) (split_from acc s) ->
  all_chars p acc = true /\ all_chars (fun c => isspace c || p c) s = true.
Proof.
  revert acc. induction s as [|c r IH]; intros acc H; simpl in *.
  - split; [|reflexivity]. destruct acc; [reflexivity|]. simpl in H. now inversion H.
  - destruct (isspace c) eqn:Hc; simpl.
    + destruct acc as [|a acc]; simpl in H.
      * split; [reflexivity|]. now apply IH in H.
      * inversion H; subst. split; [assumption|]. now apply (IH EmptyString).
    + apply IH in H as [H1 H2]. rewrite all_chars_append in H1.
      apply andb_true_iff in H1 as [H1 H3]. simpl in H3. rewrite andb_true_r in H3.
      now rewrite H3, H2.
Qed.

Lemma no_special_normalize (x : string) :
  no_special (normalize_ws x) = no_special x.
Proof.
  unfold normalize_ws, no_special.
  destruct (all_chars (fun c => negb (special c)) x) eqn:Hx.
  - apply all_chars_join; [reflexivity|].
    apply split_from_all_chars; [reflexivity|assumption].
  - apply not_true_is_false. intros H. apply join_all_chars in H.
    apply all_chars_split_from in H as [_ H].
    rewrite (all_chars_impl (fun c => isspace c || negb (special c))
               (fun c => negb (special c)) x) in Hx; [discriminate| |exact H].
    intros c. ascii_cases c; intros E; (discriminate E || reflexivity).
Qed.

Lemma no_space_tabs_normalize (x : string) :
  all_chars (fun c => Ascii.eqb c ch_space || negb (isspace c)) (normalize_ws x) = true.
Proof.
  apply all_chars_join; [reflexivity|].
  eapply Forall_impl; [|apply split_ok].
  intros w [_ H]. revert H. apply all_chars_impl. intros c ->. apply orb_true_r.
Qed.

Lemma escape_plain (s : string) :
  all_chars (fun c => (Ascii.eqb c ch_space || negb (isspace c)) && negb (special c)) s = true ->
  escape s = s.
Proof.
  induction s as [|c s IH]; [reflexivity|]. simpl all_chars.
  intros H. apply andb_true_iff in H as [Hc Hs].
  rewrite escape_cons, (IH Hs).
  replace (escape (str1 c)) with (str1 c); [reflexivity|].
  revert Hc. clear. ascii_cases c; intros H; (discriminate H || reflexivity).
Qed.

Lemma all_chars_andb p q (s : string) :
  all_chars (fun c => p c && q c) s = all_chars p s && all_chars q s.
Proof.
  induction s as [|c s IH]; [reflexivity|]. simpl. rewrite IH.
  destruct (p c), (q c), (all_chars p s), (all_chars q s); reflexivity.
Qed.

Lemma escape_normalized_plain (x : string) :
  no_special x = true -> escape (normalize_ws x) = normalize_ws x.
Proof.
  intros H. apply escape_plain. rewrite all_chars_andb, no_space_tabs_normalize.
  fold (no_special (normalize_ws x)). now rewrite no_special_normalize.
Qed.

Lemma escape_length_le (s : string) : String.length s <= String.length (escape s).
Proof.
  induction s as [|c s IH]; [apply Nat.le_refl|].
  rewrite escape_cons, length_append. simpl String.length at 1.
  assert (1 <= String.length (escape (str1 c))) by (ascii_cases c; simpl; lia).
  lia.
Qed.

Lemma escape_special_longer (s : string) :
  no_special s = false -> String.length s < String.length (escape s).
Proof.
  induction s as [|c s IH]; [discriminate|]. unfold no_special. simpl all_chars. intros H.
  rewrite escape_cons, length_append. simpl String.length at 1.
  apply andb_false_iff in H as [H|H].
  - assert (2 <= String.length (escape (str1 c))).
    { revert H. clear. ascii_cases c; intros H; (discriminate H || (simpl; lia)). }
    pose proof (escape_length_le s). lia.
  - assert (1 <= String.length (escape (str1 c))) by (ascii_cases c; simpl; lia).
    specialize (IH H). lia.
Qed.

Lemma escape_keeps_special (s : string) :
  no_special s = false -> no_special (escape s) = false.
Proof.
  induction s as [|c s IH]; [discriminate|]. unfold no_special in *. simpl all_chars. intros H.
  rewrite escape_cons, all_chars_append.
  apply andb_false_iff in H as [H|H].
  - replace (all_chars (fun c0 => negb (special c0)) (escape (str1 c))) with false; [reflexivity|].
    revert H. clear. ascii_cases c; intros H; (discriminate H || reflexivity).
  - rewrite (IH H). apply andb_false_r.
Qed.

(** C5, as the code has it: re-sanitizing a sanitized string gives the
    same string exactly when the string holds no backslash and no double
    quote; the whitespace part (trim, collapse) is idempotent for every
    string, the escaping of the two characters is applied again. *)
Theorem sanitize_idempotent_iff (x : string) :
  sanitize_graphql_string (PStr (sanitize_graphql_string (PStr x)))
  = sanitize_graphql_string (PStr x)
  <-> no_special x = true.
Proof.
  rewrite sanitize_twice. simpl. split.
  - intros E. destruct (no_special x) eqn:Hx; [reflexivity|].
    rewrite <- no_special_normalize in Hx. apply escape_keeps_special in Hx.
    apply escape_special_longer in Hx. rewrite E in Hx. lia.
  - intros H. now rewrite !(escape_normalized_plain _ H).
Qed.

Lemma sanitize_idempotent_witness :
  sanitize_graphql_string
    (PStr (sanitize_graphql_string (PStr "  Up   and Up	Agency ")))
  = sanitize_graphql_string (PStr "  Up   and Up	Agency ").
Proof.
  apply (proj2 (sanitize_idempotent_iff "  Up   and Up	Agency ")). reflexivity.
Defined.

(** C5 as stated fails on a string holding a double quote: the second
    pass escapes the backslash the first pass wrote. *)
Lemma sanitize_not_idempotent_on_quote :
  sanitize_graphql_string (PStr (sanitize_graphql_string (PStr (str1 ch_dquote))))
  <> sanitize_graphql_string (PStr (str1 ch_dquote)).
Proof. vm_compute. discriminate. Qed.

(* ------------------------------------------------------------------ *)
(** ** Reconciliation and the fragments of each class *)
(* ------------------------------------------------------------------ *)

(** *** Dictionaries *)
Lemma dict_get_set_same {V} (d : dict V) (k : string) (v : V) :
  dict_get (dict_set d k v) k = Some v.
Proof.
  induction d as [|[k' v'] d IH]; simpl.
  - now rewrite String.eqb_refl.
  - destruct (String.eqb_spec k' k) as [->|Hne]; simpl.
    + now rewrite String.eqb_refl.
    + destruct (String.eqb_spec k' k); [contradiction|exact IH].
Qed.

Lemma dict_set_not_nil {V} (d : dict V) (k : string) (v : V) :
  is_nil (dict_set d k v) = false.
Proof. destruct d as [|[k' v'] d]; simpl; [reflexivity|]. destruct (k' =? k)%string; reflexivity. Qed.

Lemma dict_get_set_other {V} (d : dict V) (k k' : string) (v : V) :
  k <> k' -> dict_get (dict_set d k v) k' = dict_get d k'.
Proof.
  intros Hne. induction d as [|[k0 v0] d IH]; simpl.
  - destruct (String.eqb_spec k k'); [contradiction|reflexivity].
  - destruct (String.eqb_spec k0 k) as [->|N]; simpl.
    + destruct (String.eqb_spec k k'); [contradiction|reflexivity].
    + destruct (k0 =? k')%string; [reflexivity|exact IH].
Qed.

Lemma dict_get_set (V : Type) (d : dict V) (k k' : string) (v : V) :
  dict_get (dict_set d k v) k' = if (k =? k')%string then Some v else dict_get d k'.
Proof.
  destruct (String.eqb_spec k k') as [->|N].
  - apply dict_get_set_same.
  - now apply dict_get_set_other.
Qed.

Lemma existsb_false {A} (f : A -> bool) (l : list A) :
  (forall x, In x l -> f x = false) -> existsb f l = false.
Proof.
  intros H. apply not_true_is_false. intros E.
  apply existsb_exists in E as [x [Hx Hf]]. rewrite (H x Hx) in Hf. discriminate.
Qed.

(** *** The diff *)

Lemma classify_sources_unchanged (fm : field_mapping) (pipefy_map : dict record)
    (chase_key : string) (chase_record : record) (before after : dict record) :
  classify_source fm pipefy_map chase_key chase_record = Ret UNCHANGED ->
  classify_sources fm pipefy_map (before ++ (chase_key, chase_record) :: after)
  = classify_sources fm pipefy_map (before ++ after).
Proof.
  intros H. induction before as [|[k r] before IH]; simpl.
  - rewrite H. destruct (classify_sources fm pipefy_map after) as [[tc tu]|e]; reflexivity.
  - now rewrite IH.
Qed.

Lemma classify_sources_create (fm : field_mapping) (pipefy_map : dict record)
    (chase_key : string) (chase_record : record) (items : dict record) :
  forall to_create to_update,
    classify_sources fm pipefy_map items = Ret (to_create, to_update) ->
    In (chase_key, chase_record) items ->
    classify_source fm pipefy_map chase_key chase_record = Ret (CREATE chase_record) ->
    In chase_record to_create.
Proof.
  induction items as [|[k r] items IH]; intros tc tu E Hin Hc; [destruct Hin|].
  simpl in E.
  destruct (classify_source fm pipefy_map k r) as [c|e] eqn:Ek; [|discriminate].
  destruct (classify_sources fm pipefy_map items) as [[tc' tu']|e]; [|discriminate].
  destruct Hin as [Heq|Hin].
  - injection Heq as -> ->. rewrite Hc in Ek. injection Ek as <-.
    injection E as <- _. now left.
  - specialize (IH tc' tu' eq_refl Hin Hc).
    destruct c; injection E as <- _; simpl; auto.
Qed.

Lemma archive_list_skip (chase_map : dict record) (pipefy_key : string)
    (pipefy_record : record) (before after : dict record) :
  classify_destination chase_map pipefy_key pipefy_record = false ->
  archive_list chase_map (before ++ (pipefy_key, pipefy_record) :: after)
  = archive_list chase_map (before ++ after).
Proof.
  intros H. unfold archive_list. rewrite !filter_app. cbn [filter fst snd].
  now rewrite H.
Qed.

(** C1: a source record and the destination record under the same key, with
    every mapped attribute outside the key equal after normalization, the
    same title and an active destination status, are left alone: the turn
    of the first loop decides [UNCHANGED], so that [to_create] and
    [to_update] are what they are without the record, and the test of the
    second loop keeps the destination record out of [to_archive]. *)
Theorem unchanged_record_no_mutation
    (fm : field_mapping) (chase_map pipefy_map : dict record)
    (chase_key : string) (chase_record pipefy_record : record) :
  dict_mem chase_key chase_map = true ->
  dict_get pipefy_map chase_key = Some pipefy_record ->
  (forall record_key pipefy_slug,
      In (record_key, pipefy_slug) (fields fm) ->
      str_in record_key (keys fm) = false ->
      normalize_destination (rget pipefy_record pipefy_slug)
      = sanitize_graphql_string (rget chase_record record_key)) ->
  eq_str (dict_get_default pipefy_record "title" (PStr "")) (title_of chase_record) = true ->
  eq_str (rget pipefy_record "status") "Active" = true ->
  classify_source fm pipefy_map chase_key chase_record = Ret UNCHANGED
  /\ classify_destination chase_map chase_key pipefy_record = false
  /\ (forall before after,
         classify_sources fm pipefy_map (before ++ (chase_key, chase_record) :: after)
         = classify_sources fm pipefy_map (before ++ after))
  /\ (forall before after,
         archive_list chase_map (before ++ (chase_key, pipefy_record) :: after)
         = archive_list chase_map (before ++ after)).
Proof.
  intros Hmem Hget Hfields Htitle Hstatus.
  assert (Hs : classify_source fm pipefy_map chase_key chase_record = Ret UNCHANGED).
  { unfold classify_source. rewrite Hget.
    replace (needs_update fm chase_record pipefy_record) with false; [reflexivity|].
    symmetry. unfold needs_update, title_differs. rewrite Htitle, Hstatus.
    rewrite andb_false_r. simpl. rewrite !orb_false_r.
    unfold fields_differ. apply existsb_false. intros [record_key pipefy_slug] Hin.
    cbn [fst snd]. destruct (str_in record_key (keys fm)) eqn:Hk; [reflexivity|].
    rewrite (Hfields _ _ Hin Hk), String.eqb_refl. reflexivity. }
  assert (Hd : classify_destination chase_map chase_key pipefy_record = false).
  { unfold classify_destination. rewrite Hmem. reflexivity. }
  repeat split; try assumption.
  - intros before after. now apply classify_sources_unchanged.
  - intros before after. now apply archive_list_skip.
Qed.

Lemma unchanged_record_witness :
  classify_source bu_agency_field_map [("6-12", ex_pipefy_bu)] "6-12" ex_chase_bu
  = Ret UNCHANGED
  /\ classify_destination [("6-12", ex_chase_bu)] "6-12" ex_pipefy_bu = false.
Proof.
  pose proof (unchanged_record_no_mutation bu_agency_field_map
                [("6-12", ex_chase_bu)] [("6-12", ex_pipefy_bu)] "6-12"
                ex_chase_bu ex_pipefy_bu) as H.
  split; apply H; try reflexivity;
    intros rk slug Hin Hk; simpl in Hin;
    destruct Hin as [E|[E|[E|[]]]]; inversion E; subst;
    (discriminate Hk || reflexivity).
Defined.

(** One unchanged business unit: the sync of the table posts nothing and
    succeeds. *)
Example sync_of_unchanged_record_posts_nothing :
  let run := sync_table [ex_chase_bu] (Some [ex_pipefy_bu]) BU_AGENCY_TABLE_ID
               bu_agency_field_map (world_answering PostTimeout GetTimeout) in
  fst run = Ret true
  /\ pipefy_posts (snd run) = 0
  /\ trace (snd run)
     = [EvLog (LogSyncStart BU_AGENCY_TABLE_ID);
        EvLog (LogSyncResults BU_AGENCY_TABLE_ID 0 0 0);
        EvLog LogNoMutations; EvLog LogNoMutations; EvLog LogNoMutations;
        EvLog (LogSyncFinished BU_AGENCY_TABLE_ID)].
Proof. vm_compute. repeat split. Qed.

(** *** The create branch *)
Lemma str_Z_not_empty (z : Z) : str_Z z <> EmptyString.
Proof.
  unfold str_Z. destruct z as [|p|p]; simpl; try discriminate.
  pose proof (DecimalPos.Unsigned.to_uint_nonnil p) as Hn.
  destruct (Pos.to_uint p); simpl; try discriminate. congruence.
Qed.

Lemma py_str_empty (v : pyval) : py_str v = EmptyString <-> v = PStr EmptyString.
Proof.
  split; [|intros ->; reflexivity].
  destruct v as [| [] | z | s]; simpl; try discriminate.
  - intros E. now apply str_Z_not_empty in E.
  - now intros ->.
Qed.

Lemma create_skipped_iff (key_identifiers : list string) (r : record) :
  create_skipped key_identifiers r = true
  <-> exists k, In k key_identifiers /\ dict_get r k = Some (PStr EmptyString).
Proof.
  unfold create_skipped. rewrite negb_true_iff. split.
  - intros H. apply not_true_iff_false in H.
    destruct (existsb (fun k => dict_mem k r && is_empty (py_str (rget r k))) key_identifiers) eqn:E.
    + apply existsb_exists in E as [k [Hin Hk]]. apply andb_true_iff in Hk as [Hm He].
      exists k. split; [assumption|]. unfold dict_mem in Hm. unfold rget, dict_get_default in He.
      destruct (dict_get r k) as [v|]; [|discriminate].
      apply is_empty_true, py_str_empty in He. now subst.
    + exfalso. apply H. apply forallb_forall. intros k Hk. apply filter_In in Hk as [Hin Hm].
      destruct (is_empty (py_str (rget r k))) eqn:He; [|reflexivity].
      assert (existsb (fun k => dict_mem k r && is_empty (py_str (rget r k))) key_identifiers = true).
      { apply existsb_exists. exists k. now rewrite Hm, He. }
      congruence.
  - intros [k [Hin Hk]]. apply not_true_iff_false. intros H.
    rewrite forallb_forall in H. specialize (H k).
    unfold rget, dict_get_default in H. rewrite Hk in H. simpl in H.
    assert (false = true); [|discriminate]. apply H. apply filter_In. split; [assumption|].
    unfold dict_mem. now rewrite Hk.
Qed.

(** C2, as the code has it: a record whose key is not in the destination
    map is classified CREATE and is put in [to_create].  The create branch
    skips a record, logging it, exactly when some declared key attribute
    that is present in the record has an empty text, [str(value) == ''] (a
    key attribute missing from the record is not looked at); otherwise it
    emits exactly one createTableRecord fragment, in particular when every
    key attribute is present and not empty. *)
Theorem create_classification_and_skip :
  (forall fm pipefy_map chase_key chase_record,
      dict_mem chase_key pipefy_map = false ->
      classify_source fm pipefy_map chase_key chase_record = Ret (CREATE chase_record)
      /\ forall items to_create to_update,
           classify_sources fm pipefy_map items = Ret (to_create, to_update) ->
           In (chase_key, chase_record) items ->
           In chase_record to_create)
  /\ (forall table_id action fm i r w,
         (create_skipped (keys fm) r = true
          <-> exists k, In k (keys fm) /\ dict_mem k r = true
                        /\ py_str (rget r k) = EmptyString)
         /\ (create_skipped (keys fm) r = true ->
             build_create table_id action fm i r w
             = (Ret [], log_to w (LogSkipCreate table_id r)))
         /\ (create_skipped (keys fm) r = false ->
             exists attrs,
               dict_get attrs "status" = Some "Active"
               /\ build_create table_id action fm i r w
                  = (Ret [ {| frag_alias := mut_alias action (keys fm) i r;
                              frag_body := CreateTableRecord table_id (title_of r)
                                                             attrs |} ],
                     w)))
  /\ (forall fm r,
         (forall k, In k (keys fm) ->
                    exists v, dict_get r k = Some v /\ py_str v <> EmptyString) ->
         create_skipped (keys fm) r = false).
Proof.
  split; [|split].
  - intros fm pipefy_map k cr Hm.
    assert (Hc : classify_source fm pipefy_map k cr = Ret (CREATE cr)).
    { unfold classify_source. unfold dict_mem in Hm.
      destruct (dict_get pipefy_map k); [discriminate|reflexivity]. }
    split; [exact Hc|]. intros items tc tu E Hin.
    eapply classify_sources_create; eauto.
  - intros table_id action fm i r w. split; [|split].
    + rewrite create_skipped_iff. split.
      * intros [k [Hin Hk]]. exists k. split; [assumption|].
        unfold dict_mem, rget, dict_get_default. now rewrite Hk.
      * intros [k [Hin [Hm He]]]. exists k. split; [assumption|].
        unfold dict_mem in Hm. unfold rget, dict_get_default in He.
        destruct (dict_get r k) as [v|]; [|discriminate].
        apply py_str_empty in He. now subst.
    + intros H. unfold build_create. rewrite H. reflexivity.
    + intros H. unfold build_create. rewrite H. eexists.
      split; [apply dict_get_set_same | reflexivity].
  - intros fm r H. apply not_true_is_false. intros E.
    apply create_skipped_iff in E as [k [Hin Hk]].
    destruct (H k Hin) as [v [Hv Hne]]. rewrite Hk in Hv. injection Hv as <-.
    now apply Hne.
Qed.

Lemma create_witness :
  exists attrs,
    dict_get attrs "status" = Some "Active"
    /\ build_create BU_AGENCY_TABLE_ID "create" bu_agency_field_map 0 ex_chase_bu
         (world_answering PostTimeout GetTimeout)
       = (Ret [ {| frag_alias := "mut_create_0_6_12";
                   frag_body := CreateTableRecord BU_AGENCY_TABLE_ID "Strategy Team"
                                                  attrs |} ],
          world_answering PostTimeout GetTimeout).
Proof.
  apply (proj2 (proj2 (proj1 (proj2 create_classification_and_skip)
                         BU_AGENCY_TABLE_ID "create" bu_agency_field_map 0
                         ex_chase_bu (world_answering PostTimeout GetTimeout)))).
  reflexivity.
Defined.

(** C2 as stated fails on a record that lacks both key attributes: it is
    not skipped, one create fragment is emitted. *)
Lemma create_not_skipped_when_key_missing :
  dict_mem "config_id" ex_no_keys = false
  /\ dict_mem "business_unit_id" ex_no_keys = false
  /\ fst (build_fragments [ex_no_keys] BU_AGENCY_TABLE_ID "create" bu_agency_field_map
            (world_answering PostTimeout GetTimeout))
     = Ret [ {| frag_alias := "mut_create_0__";
                frag_body := CreateTableRecord BU_AGENCY_TABLE_ID "Strategy"
                               [("business_unit_name", "Strategy"); ("status", "Active")] |} ].
Proof. repeat split; reflexivity. Qed.

(** *** The update branch *)


Section Comprehension.
Variables (keep : string -> bool) (r : record) (slug : string).




End Comprehension.



(** The values sent for the product of the example: the two mapped
    attributes that are neither key nor title, then the status. *)
Example update_fragment_values :
  fst (build_update "update" product_client_field_map 0 ex_update_product
         (world_answering PostTimeout GetTimeout))
  = Ret [ {| frag_alias := "mut_update_0_6_3_9";
             frag_body := UpdateFieldsValues "950"
                            [("customer_name", "Acme Ltd");
                             ("client_contact_name", "Jo Doe");
                             ("status", "Active")] |} ].
Proof. reflexivity. Qed.


(** *** The archive branch *)

Lemma get_done_phase_id_cached (table_id : string) (v : json) (w : world) :
  dict_get (DONE_PHASE_CACHE w) table_id = Some v ->
  get_done_phase_id table_id w = (Ret v, w).
Proof.
  intros H. unfold get_done_phase_id, bind, cache_lookup. rewrite H. reflexivity.
Qed.




(* ------------------------------------------------------------------ *)
(** ** Aliases *)
(* ------------------------------------------------------------------ *)

Lemma append_inj_l (s a b : string) : (s ++ a)%string = (s ++ b)%string -> a = b.
Proof. induction s; simpl; intros H; [assumption|]. injection H as H. auto. Qed.

Lemma uint_digits (d : Decimal.uint) :
  all_chars isdigit (NilEmpty.string_of_uint d) = true.
Proof. induction d; simpl; auto. Qed.

Lemma str_nat_digits (n : nat) : all_chars isdigit (str_nat n) = true.
Proof. apply uint_digits. Qed.

Lemma str_nat_inj (i j : nat) : str_nat i = str_nat j -> i = j.
Proof.
  unfold str_nat. intros H. apply DecimalNat.Unsigned.to_uint_inj.
  apply (f_equal NilEmpty.uint_of_string) in H. rewrite !NilEmpty.usu in H.
  now injection H.
Qed.

Lemma digits_prefix_inj (a b x y : string) :
  all_chars isdigit a = true -> all_chars isdigit b = true ->
  (a ++ String ch_underscore x)%string = (b ++ String ch_underscore y)%string ->
  a = b.
Proof.
  revert b. induction a as [|c a IH]; intros [|c' b] Ha Hb H; simpl in *.
  - reflexivity.
  - injection H as Hc _. subst c'. discriminate Hb.
  - injection H as Hc _. subst c. discriminate Ha.
  - injection H as Hc H. subst c'.
    apply andb_true_iff in Ha as [_ Ha]. apply andb_true_iff in Hb as [_ Hb].
    f_equal. eauto.
Qed.

Lemma sub_nonword_append (s t : string) :
  sub_nonword (s ++ t) = (sub_nonword s ++ sub_nonword t)%string.
Proof. induction s; simpl; congruence. Qed.

Lemma isdigit_isword (c : ascii) : isdigit c = true -> isword c = true.
Proof. ascii_cases c; intros H; (discriminate H || reflexivity). Qed.

Lemma sub_nonword_digits (s : string) :
  all_chars isdigit s = true -> sub_nonword s = s.
Proof.
  induction s as [|c s IH]; simpl; [reflexivity|]. intros H.
  apply andb_true_iff in H as [Hc Hs]. now rewrite (isdigit_isword _ Hc), IH.
Qed.

Lemma sub_nonword_index (act K : string) (i : nat) :
  sub_nonword (act ++ String ch_underscore (str_nat i ++ String ch_underscore K))
  = (sub_nonword act
     ++ String ch_underscore (str_nat i ++ String ch_underscore (sub_nonword K)))%string.
Proof.
  rewrite sub_nonword_append. f_equal.
  change (sub_nonword (String ch_underscore ?x)) with (String ch_underscore (sub_nonword x)).
  f_equal. rewrite sub_nonword_append, sub_nonword_digits by apply str_nat_digits.
  reflexivity.
Qed.

Lemma append_ttl_neq (a : string) : a <> (a ++ "_ttl")%string.
Proof.
  intros H. apply (f_equal String.length) in H. rewrite length_append in H.
  simpl in H. lia.
Qed.

(** *** The aliases one record gives *)

Lemma own_aliases_none (A : string) : own_aliases A [].
Proof. split; [constructor|]. intros a []. Qed.

Lemma own_aliases_plain (A : string) : own_aliases A [A].
Proof.
  split; [repeat constructor; intros []|].
  intros a [<-|[]]. exists "". symmetry. apply append_nil_r.
Qed.

Lemma own_aliases_ttl (A : string) : own_aliases A [(A ++ "_ttl")%string].
Proof.
  split; [repeat constructor; intros []|]. intros a [<-|[]]. now exists "_ttl".
Qed.

Lemma own_aliases_both (A : string) : own_aliases A [A; (A ++ "_ttl")%string].
Proof.
  split.
  - constructor; [|apply own_aliases_ttl]. intros [E|[]].
    symmetry in E. now apply append_ttl_neq in E.
  - intros a [<-|[<-|[]]]; [exists ""; symmetry; apply append_nil_r | now exists "_ttl"].
Qed.

Create HintDb aliases.
#[local] Hint Resolve own_aliases_none own_aliases_plain own_aliases_ttl
  own_aliases_both : aliases.

Section Aliases.
Variables (table_id action : string) (fm : field_mapping).

Lemma mut_alias_form (i : nat) (r : record) :
  exists rest,
    mut_alias action (keys fm) i r
    = (alias_prefix action ++ str_nat i ++ String ch_underscore rest)%string.
Proof.
  unfold mut_alias, unique_suffix, alias_prefix.
  set (act := replace_char "-" "_" action).
  set (K := join "_" _).
  exists (sub_nonword K).
  change (act ++ "_" ++ str_nat i ++ "_" ++ K)%string
    with (act ++ String ch_underscore (str_nat i ++ String ch_underscore K))%string.
  pose proof (sub_nonword_index act K i) as E.
  unfold re_sub_identifier.
  destruct act as [|c act'].
  - cbn [append] in *. rewrite E. reflexivity.
  - cbn [append].
    change (String c (act' ++ String ch_underscore (str_nat i ++ String ch_underscore K)))
      with (String c act' ++ String ch_underscore (str_nat i ++ String ch_underscore K))%string.
    rewrite E. destruct (isdigit c); cbn [append]; rewrite ?append_assoc; reflexivity.
Qed.

(** Two aliases of one call, with whatever suffix, that are equal belong to
    the same index. *)
Lemma mut_alias_index_inj (i j : nat) (r r' : record) (s s' : string) :
  (mut_alias action (keys fm) i r ++ s)%string
  = (mut_alias action (keys fm) j r' ++ s')%string ->
  i = j.
Proof.
  destruct (mut_alias_form i r) as [x ->].
  destruct (mut_alias_form j r') as [y ->].
  rewrite !append_assoc. intros H. apply append_inj_l in H.
  cbn [append] in H.
  apply str_nat_inj.
  eapply digits_prefix_inj; [apply str_nat_digits | apply str_nat_digits | exact H].
Qed.

Lemma build_record_aliases (i : nat) (r : record) (w : world) :
  match build_record table_id action fm i r w with
  | (Ret fs, _) => own_aliases (mut_alias action (keys fm) i r) (map frag_alias fs)
  | (Raise _, _) => action = "archive"
  end.
Proof.
  unfold build_record.
  destruct (action =? "create")%string.
  { unfold build_create. destruct (create_skipped (keys fm) r); cbn; auto with aliases. }
  destruct (action =? "update")%string.
  { unfold build_update.
    destruct (negb (truthy (rget r "pipefy_record_id"))); [cbn; auto with aliases|].
    match goal with |- context [negb (is_nil ?fv)] => destruct (negb (is_nil fv)) end;
    match goal with |- context [eq_str ?a ?b] =>
      destruct (negb (is_empty (title_of r)) && negb (eq_str a b)) end;
      cbn; auto with aliases. }
  destruct (String.eqb_spec action "archive") as [Ha|_]; [|cbn; auto with aliases].
  unfold build_archive.
  destruct (negb (truthy (rget r "pipefy_record_id"))); [cbn; auto with aliases|].
  unfold bind at 1.
  destruct (get_done_phase_id table_id w) as [[d|e] w1]; [|exact Ha].
  destruct (json_truthy d); [|cbn; auto with aliases].
  destruct d; cbn; auto with aliases.
Qed.

Lemma build_from_aliases (records : list record) :
  forall (i : nat) (w : world),
    match build_from table_id action fm i records w with
    | (Ret frs, _) =>
        NoDup (map frag_alias frs)
        /\ forall a, In a (map frag_alias frs) ->
                     exists j r s, i <= j /\ a = (mut_alias action (keys fm) j r ++ s)%string
    | (Raise _, _) => action = "archive"
    end.
Proof.
  induction records as [|r rest IH]; intros i w.
  - simpl. split; [constructor|]. intros a [].
  - cbn [build_from]. unfold bind at 1.
    pose proof (build_record_aliases i r w) as Hr.
    destruct (build_record table_id action fm i r w) as [[fs|e] w1]; [|exact Hr].
    unfold bind at 1. specialize (IH (S i) w1).
    destruct (build_from table_id action fm (S i) rest w1) as [[more|e] w2]; [|exact IH].
    unfold ret. destruct Hr as [Hn1 Hs1]. destruct IH as [Hn2 Hs2].
    rewrite map_app. split.
    + apply NoDup_app; [assumption|assumption|].
      intros a Ha1 Ha2. destruct (Hs1 a Ha1) as [s ->].
      destruct (Hs2 _ Ha2) as [j [r' [s' [Hj E]]]].
      apply mut_alias_index_inj in E. lia.
    + intros a Ha. apply in_app_or in Ha as [Ha|Ha].
      * destruct (Hs1 a Ha) as [s ->]. exists i, r, s. split; [lia|reflexivity].
      * destruct (Hs2 a Ha) as [j [r' [s' [Hj ->]]]]. exists j, r', s'.
        split; [lia|reflexivity].
Qed.

End Aliases.

(** C7: the aliases of the fragments one call of [build_pipefy_mutations]
    produces are pairwise distinct, the [_ttl] aliases included, for every
    list of records and every action; the call can only fail to return
    fragments in the archive action, when the phase lookup raises. *)
Theorem aliases_pairwise_distinct
    (records : list record) (table_id action : string) (fm : field_mapping) (w : world) :
  match fst (build_fragments records table_id action fm w) with
  | Ret frs => NoDup (map frag_alias frs)
  | Raise _ => action = "archive"
  end.
Proof.
  unfold build_fragments.
  pose proof (build_from_aliases table_id action fm records 0 w) as H.
  destruct (build_from table_id action fm 0 records w) as [[frs|e] w']; simpl.
  - apply H.
  - exact H.
Qed.

(* ------------------------------------------------------------------ *)
(** ** Transport *)
(* ------------------------------------------------------------------ *)

(** *** Stretches of the trace *)

Lemma posts_in_app (d1 d2 : list event) : posts_in (d1 ++ d2) = posts_in d1 ++ posts_in d2.
Proof. apply flat_map_app. Qed.

Lemma sleeps_in_app (d1 d2 : list event) :
  sleeps_in (d1 ++ d2) = sleeps_in d1 ++ sleeps_in d2.
Proof. apply flat_map_app. Qed.

Lemma gets_in_app (d1 d2 : list event) : gets_in (d1 ++ d2) = gets_in d1 ++ gets_in d2.
Proof. apply flat_map_app. Qed.

Lemma logs_are_silent (lines : list log_msg) :
  posts_in (map EvLog lines) = [] /\ sleeps_in (map EvLog lines) = []
  /\ gets_in (map EvLog lines) = [].
Proof. induction lines as [|m lines IH]; [repeat split | exact IH]. Qed.

Lemma logged_app (w : world) (l1 l2 : list log_msg) :
  logged w (l1 ++ l2) = logged (logged w l1) l2.
Proof. apply fold_left_app. Qed.

Lemma logged_world (lines : list log_msg) :
  forall w,
    pipefy_net (logged w lines) = pipefy_net w
    /\ pipefy_posts (logged w lines) = pipefy_posts w
    /\ chase_net (logged w lines) = chase_net w
    /\ chase_gets (logged w lines) = chase_gets w
    /\ DONE_PHASE_CACHE (logged w lines) = DONE_PHASE_CACHE w
    /\ trace (logged w lines) = trace w ++ map EvLog lines.
Proof.
  induction lines as [|m lines IH]; intros w.
  - cbn. now rewrite app_nil_r.
  - cbn [logged fold_left]. destruct (IH (log_to w m)) as (A & B & C & D & E & F).
    unfold logged in *. rewrite A, B, C, D, E, F. cbn. now rewrite <- app_assoc.
Qed.

(** *** One attempt *)

Lemma dict_mem_get {V} (k : string) (d : dict V) :
  dict_mem k d = true -> exists v, dict_get d k = Some v.
Proof. unfold dict_mem. destruct (dict_get d k) as [v|]; [eauto|discriminate]. Qed.

(** An attempt of [pipefy_post] sends the request and logs at most one
    line; then the call ends as [post_decides] says, or goes on to the
    pause and the next attempt, or to giving up. *)
Lemma pipefy_post_attempt (attempt : nat) (rest : list nat) (delay : nat)
    (p : payload) (w : world) :
  exists lines,
    pipefy_post_loop (attempt :: rest) delay p w
    = match post_decides attempt (pipefy_net w (pipefy_posts w)) with
      | Some o => (o, logged (posted w p) lines)
      | None =>
          (if Nat.ltb attempt (max_retries - 1)
           then sleep delay ;;; pipefy_post_loop rest (delay * 2) p
           else log LogPipefyExhausted ;;; ret (JDict pipefy_exhausted))
            (logged (posted w p) lines)
      end.
Proof.
  cbn [pipefy_post_loop]. unfold bind at 1. unfold session_post at 1. fold (posted w p).
  destruct (pipefy_net w (pipefy_posts w)) as [body| |status text]; cbn [post_decides].
  - destruct body as [v|l|d]; cbn [json_has].
    + destruct v as [| b | z | s]; try (exists []; reflexivity).
      unfold bind at 1. unfold lift at 1.
      destruct (contains "errors" s); exists []; reflexivity.
    + unfold bind at 1. unfold lift at 1.
      destruct (existsb _ l); exists []; reflexivity.
    + unfold bind at 1. unfold lift at 1.
      destruct (dict_mem "errors" d) eqn:He; [|exists []; reflexivity].
      destruct (dict_mem_get _ _ He) as [errors Hg].
      unfold bind at 1. unfold lift at 1. cbn [json_item]. rewrite Hg.
      exists [LogPipefyGraphQLError (attempt + 1) errors].
      unfold bind at 1. destruct (Nat.eqb attempt (max_retries - 1)) eqn:Ea.
      * reflexivity.
      * reflexivity.
  - exists [LogPipefyTimeout (attempt + 1) delay]. reflexivity.
  - exists [LogPipefyFailed (attempt + 1) (shown_status status) text].
    unfold bind at 1. destruct (is_client_error status); reflexivity.
Qed.

(** The same for [chase_api_get]. *)
Lemma chase_api_get_attempt (attempt : nat) (rest : list nat) (delay : nat)
    (endpoint : string) (config_id : pyval) (w : world) :
  exists lines,
    chase_api_get_loop (attempt :: rest) delay endpoint config_id w
    = match get_decides (chase_net w (chase_gets w)) with
      | Some v => (Ret v, logged (got w endpoint config_id) lines)
      | None =>
          (if Nat.ltb attempt (max_retries - 1)
           then sleep delay ;;;
                chase_api_get_loop rest (delay * 2) endpoint config_id
           else log (LogChaseExhausted endpoint) ;;; ret JNone)
            (logged (got w endpoint config_id) lines)
      end.
Proof.
  cbn [chase_api_get_loop]. unfold bind at 1. unfold session_get at 1.
  fold (got w endpoint config_id).
  destruct (chase_net w (chase_gets w)) as [body| | |status]; cbn [get_decides].
  - exists []. reflexivity.
  - exists [LogChaseEmpty endpoint (attempt + 1)]. reflexivity.
  - exists [LogChaseTimeout endpoint (attempt + 1) delay]. reflexivity.
  - exists [LogChaseFailed endpoint (attempt + 1) (shown_status status)].
    unfold bind at 1. destruct (is_client_error status); reflexivity.
Qed.

(** *** The three attempts *)

Lemma paused_world (w : world) (seconds : nat) :
  pipefy_net (paused w seconds) = pipefy_net w
  /\ pipefy_posts (paused w seconds) = pipefy_posts w
  /\ chase_net (paused w seconds) = chase_net w
  /\ chase_gets (paused w seconds) = chase_gets w
  /\ DONE_PHASE_CACHE (paused w seconds) = DONE_PHASE_CACHE w
  /\ trace (paused w seconds) = trace w ++ [EvSleep seconds].
Proof. repeat split. Qed.

(** What one attempt adds to the trace. *)
Lemma attempt_trace (p : payload) (lines : list log_msg) (d : list event) :
  posts_in ((EvPost p :: map EvLog lines) ++ d) = p :: posts_in d
  /\ sleeps_in ((EvPost p :: map EvLog lines) ++ d) = sleeps_in d.
Proof.
  destruct (logs_are_silent lines) as (P & S & _).
  rewrite posts_in_app, sleeps_in_app. cbn [posts_in sleeps_in flat_map app].
  fold (posts_in (map EvLog lines)). fold (sleeps_in (map EvLog lines)).
  now rewrite P, S.
Qed.

Lemma pipefy_post_run (p : payload) (w : world) :
  let n := pipefy_posts w in
  let vk := pipefy_post_spec (pipefy_net w n) (pipefy_net w (n + 1)) (pipefy_net w (n + 2)) in
  exists w' d,
    pipefy_post p w = (fst vk, w')
    /\ trace w' = trace w ++ d
    /\ posts_in d = repeat p (snd vk)
    /\ sleeps_in d = firstn (snd vk - 1) [5; 10]
    /\ pipefy_net w' = pipefy_net w
    /\ pipefy_posts w' = n + snd vk
    /\ DONE_PHASE_CACHE w' = DONE_PHASE_CACHE w.
Proof.
  cbv zeta. unfold pipefy_post, pipefy_post_spec.
  change (seq 0 max_retries) with [0; 1; 2].
  (* first attempt *)
  destruct (pipefy_post_attempt 0 [1; 2] 5 p w) as [l0 ->].
  destruct (logged_world l0 (posted w p)) as (N0 & P0 & _ & _ & C0 & T0).
  set (w0 := logged (posted w p) l0) in *. cbn [posted pipefy_net pipefy_posts
    DONE_PHASE_CACHE trace] in N0, P0, C0, T0.
  destruct (attempt_trace p l0 []) as (Ap0 & As0). rewrite app_nil_r in Ap0, As0.
  destruct (post_decides 0 (pipefy_net w (pipefy_posts w))) as [o|].
  { exists w0, (EvPost p :: map EvLog l0). cbn [fst snd].
    rewrite T0, <- app_assoc. repeat split; try assumption. lia. }
  change (Nat.ltb 0 (max_retries - 1)) with true. cbv iota.
  unfold bind at 1. change (sleep 5 w0) with (Ret tt, paused w0 5). cbv iota beta.
  (* second attempt *)
  destruct (pipefy_post_attempt 1 [2] (5 * 2) p (paused w0 5)) as [l1 ->].
  destruct (logged_world l1 (posted (paused w0 5) p)) as (N1 & P1 & _ & _ & C1 & T1).
  set (w1 := logged (posted (paused w0 5) p) l1) in *. cbn [posted paused pipefy_net
    pipefy_posts DONE_PHASE_CACHE trace] in N1, P1, C1, T1 |- *.
  rewrite N0, P0. replace (S (pipefy_posts w)) with (pipefy_posts w + 1) by lia.
  destruct (attempt_trace p l1 []) as (Ap1 & As1). rewrite app_nil_r in Ap1, As1.
  destruct (post_decides 1 (pipefy_net w (pipefy_posts w + 1))) as [o|].
  { exists w1, ((EvPost p :: map EvLog l0) ++ EvSleep 5 :: EvPost p :: map EvLog l1).
    cbn [fst snd]. rewrite T1, T0, <- !app_assoc.
    destruct (attempt_trace p l0 (EvSleep 5 :: EvPost p :: map EvLog l1)) as (-> & ->).
    cbn [posts_in sleeps_in flat_map app]. fold (posts_in (map EvLog l1)).
    fold (sleeps_in (map EvLog l1)).
    destruct (logs_are_silent l1) as (-> & -> & _).
    repeat split; try congruence. rewrite P1, P0. lia. }
  change (Nat.ltb 1 (max_retries - 1)) with true. cbv iota.
  unfold bind at 1. change (sleep (5 * 2) w1) with (Ret tt, paused w1 10). cbv iota beta.
  (* third attempt *)
  destruct (pipefy_post_attempt 2 [] (5 * 2 * 2) p (paused w1 10)) as [l2 ->].
  destruct (logged_world l2 (posted (paused w1 10) p)) as (N2 & P2 & _ & _ & C2 & T2).
  set (w2 := logged (posted (paused w1 10) p) l2) in *. cbn [posted paused pipefy_net
    pipefy_posts DONE_PHASE_CACHE trace] in N2, P2, C2, T2 |- *.
  rewrite N1, N0, P1, P0.
  replace (S (S (pipefy_posts w))) with (pipefy_posts w + 2) by lia.
  assert (Hd : forall tail,
             let d := (EvPost p :: map EvLog l0)
                      ++ EvSleep 5 :: (EvPost p :: map EvLog l1)
                      ++ EvSleep 10 :: (EvPost p :: map EvLog l2) ++ map EvLog tail in
             posts_in d = repeat p 3 /\ sleeps_in d = [5; 10]).
  { intros tail d. subst d.
    destruct (attempt_trace p l0 (EvSleep 5 :: (EvPost p :: map EvLog l1)
                                    ++ EvSleep 10 :: (EvPost p :: map EvLog l2)
                                    ++ map EvLog tail)) as (-> & ->).
    change (posts_in (EvSleep 5 :: ?x)) with (posts_in x).
    change (sleeps_in (EvSleep 5 :: ?x)) with (5 :: sleeps_in x).
    destruct (attempt_trace p l1 (EvSleep 10 :: (EvPost p :: map EvLog l2)
                                    ++ map EvLog tail)) as (-> & ->).
    change (posts_in (EvSleep 10 :: ?x)) with (posts_in x).
    change (sleeps_in (EvSleep 10 :: ?x)) with (10 :: sleeps_in x).
    destruct (attempt_trace p l2 (map EvLog tail)) as (-> & ->).
    destruct (logs_are_silent tail) as (-> & -> & _). split; reflexivity. }
  destruct (post_decides 2 (pipefy_net w (pipefy_posts w + 2))) as [o|].
  { destruct (Hd []) as (Hp & Hs). cbn [map] in Hp, Hs. rewrite app_nil_r in Hp, Hs.
    eexists w2, _. cbn [fst snd].
    split; [reflexivity|]. split; [|split; [exact Hp|split; [exact Hs|]]].
    - rewrite T2, T1, T0, <- !app_assoc. cbn [app]. reflexivity.
    - repeat split; try congruence. rewrite P2, P1, P0. lia. }
  change (Nat.ltb 2 (max_retries - 1)) with false. cbv iota.
  destruct (Hd [LogPipefyExhausted]) as (Hp & Hs).
  eexists (log_to w2 LogPipefyExhausted), _. cbn [fst snd].
  split; [reflexivity|]. split; [|split; [exact Hp|split; [exact Hs|]]].
  - cbn [log_to trace]. rewrite T2, T1, T0, <- !app_assoc. cbn [app map]. reflexivity.
  - cbn [log_to pipefy_net pipefy_posts DONE_PHASE_CACHE].
    repeat split; try congruence. rewrite P2, P1, P0. lia.
Qed.

(** What one attempt of [chase_api_get] adds to the trace. *)
Lemma get_attempt_trace (e : string) (c : pyval) (lines : list log_msg) (d : list event) :
  gets_in ((EvGet e c :: map EvLog lines) ++ d) = (e, c) :: gets_in d
  /\ sleeps_in ((EvGet e c :: map EvLog lines) ++ d) = sleeps_in d.
Proof.
  destruct (logs_are_silent lines) as (_ & S & G).
  rewrite gets_in_app, sleeps_in_app. cbn [gets_in sleeps_in flat_map app].
  fold (gets_in (map EvLog lines)). fold (sleeps_in (map EvLog lines)).
  now rewrite G, S.
Qed.

Lemma chase_api_get_run_spec (endpoint : string) (config_id : pyval) (w : world) :
  let n := chase_gets w in
  let vk := chase_api_get_spec (chase_net w n) (chase_net w (n + 1)) (chase_net w (n + 2)) in
  exists w' d,
    chase_api_get endpoint config_id w = (Ret (fst vk), w')
    /\ trace w' = trace w ++ d
    /\ gets_in d = repeat (endpoint, config_id) (snd vk)
    /\ sleeps_in d = firstn (snd vk - 1) [5; 10]
    /\ chase_net w' = chase_net w
    /\ chase_gets w' = n + snd vk.
Proof.
  cbv zeta. unfold chase_api_get, chase_api_get_spec.
  change (seq 0 max_retries) with [0; 1; 2].
  set (e := endpoint). set (c := config_id).
  (* first attempt *)
  destruct (chase_api_get_attempt 0 [1; 2] 5 e c w) as [l0 ->].
  destruct (logged_world l0 (got w e c)) as (_ & _ & N0 & P0 & _ & T0).
  set (w0 := logged (got w e c) l0) in *.
  cbn [got chase_net chase_gets trace] in N0, P0, T0.
  destruct (get_attempt_trace e c l0 []) as (Ap0 & As0). rewrite app_nil_r in Ap0, As0.
  destruct (get_decides (chase_net w (chase_gets w))) as [o|].
  { exists w0, (EvGet e c :: map EvLog l0). cbn [fst snd].
    rewrite T0, <- app_assoc. repeat split; try assumption. lia. }
  change (Nat.ltb 0 (max_retries - 1)) with true. cbv iota.
  unfold bind at 1. change (sleep 5 w0) with (Ret tt, paused w0 5). cbv iota beta.
  (* second attempt *)
  destruct (chase_api_get_attempt 1 [2] (5 * 2) e c (paused w0 5)) as [l1 ->].
  destruct (logged_world l1 (got (paused w0 5) e c)) as (_ & _ & N1 & P1 & _ & T1).
  set (w1 := logged (got (paused w0 5) e c) l1) in *.
  cbn [got paused chase_net chase_gets trace] in N1, P1, T1 |- *.
  rewrite N0, P0. replace (S (chase_gets w)) with (chase_gets w + 1) by lia.
  destruct (get_decides (chase_net w (chase_gets w + 1))) as [o|].
  { exists w1, ((EvGet e c :: map EvLog l0) ++ EvSleep 5 :: EvGet e c :: map EvLog l1).
    cbn [fst snd]. rewrite T1, T0, <- !app_assoc.
    destruct (get_attempt_trace e c l0 (EvSleep 5 :: EvGet e c :: map EvLog l1))
      as (-> & ->).
    cbn [gets_in sleeps_in flat_map app]. fold (gets_in (map EvLog l1)).
    fold (sleeps_in (map EvLog l1)).
    destruct (logs_are_silent l1) as (_ & -> & ->).
    repeat split; try congruence. rewrite P1, P0. lia. }
  change (Nat.ltb 1 (max_retries - 1)) with true. cbv iota.
  unfold bind at 1. change (sleep (5 * 2) w1) with (Ret tt, paused w1 10). cbv iota beta.
  (* third attempt *)
  destruct (chase_api_get_attempt 2 [] (5 * 2 * 2) e c (paused w1 10)) as [l2 ->].
  destruct (logged_world l2 (got (paused w1 10) e c)) as (_ & _ & N2 & P2 & _ & T2).
  set (w2 := logged (got (paused w1 10) e c) l2) in *.
  cbn [got paused chase_net chase_gets trace] in N2, P2, T2 |- *.
  rewrite N1, N0, P1, P0.
  replace (S (S (chase_gets w))) with (chase_gets w + 2) by lia.
  assert (Hd : forall tail,
             let d := (EvGet e c :: map EvLog l0)
                      ++ EvSleep 5 :: (EvGet e c :: map EvLog l1)
                      ++ EvSleep 10 :: (EvGet e c :: map EvLog l2) ++ map EvLog tail in
             gets_in d = repeat (e, c) 3 /\ sleeps_in d = [5; 10]).
  { intros tail d. subst d.
    destruct (get_attempt_trace e c l0 (EvSleep 5 :: (EvGet e c :: map EvLog l1)
                                          ++ EvSleep 10 :: (EvGet e c :: map EvLog l2)
                                          ++ map EvLog tail)) as (-> & ->).
    change (gets_in (EvSleep 5 :: ?x)) with (gets_in x).
    change (sleeps_in (EvSleep 5 :: ?x)) with (5 :: sleeps_in x).
    destruct (get_attempt_trace e c l1 (EvSleep 10 :: (EvGet e c :: map EvLog l2)
                                          ++ map EvLog tail)) as (-> & ->).
    change (gets_in (EvSleep 10 :: ?x)) with (gets_in x).
    change (sleeps_in (EvSleep 10 :: ?x)) with (10 :: sleeps_in x).
    destruct (get_attempt_trace e c l2 (map EvLog tail)) as (-> & ->).
    destruct (logs_are_silent tail) as (_ & -> & ->). split; reflexivity. }
  destruct (get_decides (chase_net w (chase_gets w + 2))) as [o|].
  { destruct (Hd []) as (Hp & Hs). cbn [map] in Hp, Hs. rewrite app_nil_r in Hp, Hs.
    eexists w2, _. cbn [fst snd].
    split; [reflexivity|]. split; [|split; [exact Hp|split; [exact Hs|]]].
    - rewrite T2, T1, T0, <- !app_assoc. cbn [app]. reflexivity.
    - repeat split; try congruence. rewrite P2, P1, P0. lia. }
  change (Nat.ltb 2 (max_retries - 1)) with false. cbv iota.
  destruct (Hd [LogChaseExhausted e]) as (Hp & Hs).
  eexists (log_to w2 (LogChaseExhausted e)), _. cbn [fst snd].
  split; [reflexivity|]. split; [|split; [exact Hp|split; [exact Hs|]]].
  - cbn [log_to trace]. rewrite T2, T1, T0, <- !app_assoc. cbn [app map]. reflexivity.
  - cbn [log_to chase_net chase_gets].
    repeat split; try congruence. rewrite P2, P1, P0. lia.
Qed.

(** *** What the failures give *)













(* ------------------------------------------------------------------ *)
(** ** Batching and execution *)
(* ------------------------------------------------------------------ *)

Lemma slice_batch {A} (l : list A) (i : nat) :
  slice l i (i + batch_size) = firstn batch_size (skipn i l).
Proof. unfold slice. f_equal. lia. Qed.

Lemma range_from_concat {A} (l : list A) (fuel start : nat) :
  List.length l <= start + fuel ->
  concat (map (fun i => slice l i (i + batch_size))
              (range_from fuel start (List.length l) batch_size))
  = skipn start l.
Proof.
  revert start. induction fuel as [|fuel IH]; intros start Hf; simpl.
  - symmetry. apply skipn_all2. lia.
  - destruct (Nat.ltb_spec start (List.length l)) as [Hlt|Hge]; simpl.
    + rewrite IH by (unfold batch_size; lia).
      rewrite slice_batch, Nat.add_comm, <- skipn_skipn. apply firstn_skipn.
    + symmetry. apply skipn_all2. lia.
Qed.

Lemma range_from_length (fuel start stop : nat) :
  stop <= start + fuel ->
  List.length (range_from fuel start stop batch_size)
  = (stop - start + batch_size - 1) / batch_size.
Proof.
  unfold batch_size.
  revert start. induction fuel as [|fuel IH]; intros start Hf; cbn [range_from List.length].
  - replace (stop - start + 50 - 1) with 49 by lia. reflexivity.
  - destruct (Nat.ltb_spec start stop) as [Hlt|Hge]; cbn [List.length].
    + rewrite IH by lia.
      destruct (Nat.le_gt_cases (start + 50) stop) as [Hle|Hgt].
      * replace (stop - start + 50 - 1) with (stop - (start + 50) + 50 - 1 + 1 * 50) by lia.
        rewrite Nat.div_add by lia. lia.
      * replace (stop - (start + 50) + 50 - 1) with 49 by lia.
        change (49 / 50) with 0.
        apply (Nat.div_unique _ 50 1 (stop - start - 1)); lia.
    + replace (stop - start + 50 - 1) with 49 by lia. reflexivity.
Qed.

Lemma range_from_below (fuel start stop step i : nat) :
  In i (range_from fuel start stop step) -> i < stop.
Proof.
  revert start. induction fuel as [|fuel IH]; intros start; simpl; [tauto|].
  destruct (Nat.ltb_spec start stop); simpl; [|tauto].
  intros [<- | H']; [assumption | eauto].
Qed.

Lemma batches_length (mutations : list string) :
  List.length (batches mutations) = (List.length mutations + batch_size - 1) / batch_size.
Proof.
  unfold batches, py_range. rewrite length_map, range_from_length by lia.
  now rewrite Nat.sub_0_r.
Qed.

(** *** Computations that send nothing *)

Lemma sends_nothing_ret {A} (a : A) : sends_nothing (ret a).
Proof. intros w. exists []. cbn. now rewrite app_nil_r. Qed.

Lemma sends_nothing_lift {A} (o : outcome A) : sends_nothing (lift o).
Proof. intros w. exists []. cbn. now rewrite app_nil_r. Qed.

Lemma sends_nothing_log (m : log_msg) : sends_nothing (log m).
Proof. intros w. exists [EvLog m]. repeat split. Qed.

Lemma sends_nothing_sleep (seconds : nat) : sends_nothing (sleep seconds).
Proof. intros w. exists [EvSleep seconds]. repeat split. Qed.

Lemma sends_nothing_bind {A B} (m : M A) (f : A -> M B) :
  sends_nothing m -> (forall a, sends_nothing (f a)) -> sends_nothing (bind m f).
Proof.
  intros Hm Hf w. unfold bind. destruct (Hm w) as (d1 & T1 & P1 & N1 & K1 & C1).
  destruct (m w) as [[a|e] w1]; cbn [snd] in *.
  - destruct (Hf a w1) as (d2 & T2 & P2 & N2 & K2 & C2).
    exists (d1 ++ d2). rewrite T2, T1, <- app_assoc, posts_in_app, P1, P2.
    repeat split; congruence.
  - exists d1. auto.
Qed.

Ltac silent :=
  repeat match goal with
    | |- sends_nothing (ret _) => apply sends_nothing_ret
    | |- sends_nothing (lift _) => apply sends_nothing_lift
    | |- sends_nothing (log _) => apply sends_nothing_log
    | |- sends_nothing (sleep _) => apply sends_nothing_sleep
    | |- sends_nothing (bind _ _) => apply sends_nothing_bind; [|intros ?]
    | |- sends_nothing (if ?b then _ else _) => destruct b
    | |- sends_nothing (match ?x with _ => _ end) => destruct x
    end.

Lemma sends_nothing_log_errors (errors : list json) : sends_nothing (log_errors errors).
Proof.
  induction errors as [|e rest IH]; [apply sends_nothing_ret|].
  cbn [log_errors]. silent; exact IH.
Qed.

Lemma sends_nothing_batch_verdict (mutations : list string) (i : nat) (b : bool)
    (response : json) :
  sends_nothing (batch_verdict mutations i b response).
Proof. unfold batch_verdict. silent; apply sends_nothing_log_errors. Qed.

(** *** Computations that return *)

Lemma runs_ret {A} (a : A) (P : A -> list event -> Prop) : P a [] -> runs (ret a) P.
Proof. intros H w. exists a, w, []. now rewrite app_nil_r. Qed.

Lemma runs_weaken {A} (m : M A) (P Q : A -> list event -> Prop) :
  runs m P -> (forall a d, P a d -> Q a d) -> runs m Q.
Proof.
  intros Hm HPQ w. destruct (Hm w) as [a [w' [d [E [T HP]]]]].
  exists a, w', d. auto.
Qed.

Lemma runs_bind {A B} (m : M A) (f : A -> M B) (P : A -> list event -> Prop)
    (R : B -> list event -> Prop) :
  runs m P ->
  (forall a d1, P a d1 -> runs (f a) (fun b d2 => R b (d1 ++ d2))) ->
  runs (bind m f) R.
Proof.
  intros Hm Hf w. destruct (Hm w) as [a [w1 [d1 [E1 [T1 HP]]]]].
  destruct (Hf a d1 HP w1) as [b [w2 [d2 [E2 [T2 HR]]]]].
  exists b, w2, (d1 ++ d2). unfold bind. rewrite E1, E2, T2, T1, app_assoc. auto.
Qed.

Lemma runs_emit (e : event) : runs (emit e) (fun _ d => d = [e]).
Proof. intros w. eexists tt, _, [e]. repeat split. Qed.

Lemma runs_emit_then {B} (e : event) (k : M B) (R : B -> list event -> Prop) :
  runs k (fun b d => R b (e :: d)) -> runs (emit e ;;; k) R.
Proof.
  intros Hk. eapply runs_bind; [apply runs_emit|]. intros _ d1 ->. exact Hk.
Qed.

Section BatchLoop.
Variable mutations : list string.

Lemma log_errors_runs (errors : list json) :
  forallb is_dict errors = true -> runs (log_errors errors) (fun _ _ => True).
Proof.
  induction errors as [|e rest IH]; intros H; [now apply runs_ret|].
  cbn [forallb] in H. apply andb_true_iff in H as [He Hr].
  destruct e as [v|l|d]; try discriminate He.
  cbn [log_errors json_get].
  change (bind (lift (Ret ?x)) ?f) with (f x). cbn beta.
  apply runs_emit_then.
  eapply runs_bind with (P := fun _ _ => True).
  - destruct (dict_mem "path" d); [|now apply runs_ret].
    eapply runs_weaken; [apply runs_emit|]. auto.
  - intros _ d1 _. eapply runs_weaken; [apply (IH Hr)|]. auto.
Qed.

Lemma filter_length_all {A} (f : A -> bool) (l : list A) :
  Nat.eqb (List.length (filter f l)) (List.length l) = forallb f l.
Proof.
  assert (Hle : forall l', List.length (filter f l') <= List.length l').
  { intros l'. induction l' as [|x l' IH]; simpl; [lia|]. destruct (f x); simpl; lia. }
  induction l as [|a l IH]; [reflexivity|]. simpl.
  destruct (f a); simpl; [exact IH|].
  apply Nat.eqb_neq. specialize (Hle l). lia.
Qed.

(** What a turn makes of a response of the shape GraphQL gives. *)
Lemma batch_verdict_runs (i : nat) (b : bool) (response : json) :
  well_formed_response (slice mutations i (i + batch_size)) response = true ->
  runs (batch_verdict mutations i b response)
       (fun ok _ => ok = b && batch_succeeded response).
Proof.
  intros Hwf. unfold batch_verdict, batch_succeeded.
  destruct response as [v|l|d]; try discriminate Hwf.
  cbn [well_formed_response] in Hwf. unfold response_failed. cbn [json_truthy json_has].
  destruct d as [|kv d'].
  - (* the empty object *)
    cbn [is_nil negb]. change (bind (lift (Ret ?x)) ?f) with (f x). cbn beta iota.
    apply runs_emit_then. change (bind (ret ?x) ?f) with (f x). cbn beta.
    apply runs_ret. now rewrite andb_false_r.
  - set (d := kv :: d') in *. change (is_nil d) with false in *. cbn [negb orb] in *.
    change (bind (lift (Ret ?x)) ?f) with (f x). cbn beta.
    unfold dict_mem. destruct (dict_get d "errors") as [errors|] eqn:He.
    + (* errors *)
      destruct errors as [v|errors|o]; try discriminate Hwf.
      apply runs_emit_then.
      eapply runs_bind with (P := fun _ _ => True).
      * change (bind (lift (Ret ?x)) ?f) with (f x). cbn beta iota.
        cbn [json_item]. rewrite He.
        change (bind (lift (Ret ?x)) ?f) with (f x). cbn beta.
        cbn [json_iter]. change (bind (lift (Ret ?x)) ?f) with (f x). cbn beta.
        eapply runs_weaken; [apply (log_errors_runs _ Hwf)|]. auto.
      * intros _ d1 _. apply runs_ret. now rewrite andb_false_r.
    + (* data *)
      cbn [negb andb]. unfold response_data. cbn [json_get].
      change (bind (lift (Ret ?x)) ?f) with (f x). cbn beta.
      destruct (dict_get_default d "data" (JDict [])) as [v|l|data]; try discriminate Hwf.
      cbn [json_items]. change (bind (lift (Ret ?x)) ?f) with (f x). cbn beta.
      apply Nat.eqb_eq in Hwf. unfold success_count.
      rewrite <- Hwf, filter_length_all.
      destruct (forallb (fun ar => is_success (snd ar)) data).
      * eapply runs_bind with (P := fun ok _ => ok = b).
        -- apply runs_emit_then. now apply runs_ret.
        -- intros ok d1 ->.
           eapply runs_bind with (P := fun _ _ => True).
           ++ destruct (Nat.ltb _ _); [|now apply runs_ret].
              eapply runs_weaken; [apply runs_emit|]. auto.
           ++ intros _ d2 _. apply runs_ret. now rewrite andb_true_r.
      * eapply runs_bind with (P := fun ok _ => ok = false).
        -- apply runs_emit_then.
           eapply runs_bind with (P := fun _ _ => True).
           ++ destruct (is_nil _); [now apply runs_ret|].
              eapply runs_weaken; [apply runs_emit|]. auto.
           ++ intros _ d1 _. now apply runs_ret.
        -- intros ok d1 ->.
           eapply runs_bind with (P := fun _ _ => True).
           ++ destruct (Nat.ltb _ _); [|now apply runs_ret].
              eapply runs_weaken; [apply runs_emit|]. auto.
           ++ intros _ d2 _. apply runs_ret. now rewrite andb_false_r.
Qed.

(** The first half of a turn: the batch goes out as many times as
    [pipefy_post] makes attempts, and nothing else does. *)
Lemma batch_request_run (i : nat) (w : world) :
  let call := pipefy_post_outcome w in
  exists w' d,
    batch_request mutations i w = (fst call, w')
    /\ trace w' = trace w ++ d
    /\ posts_in d = repeat (batch_payload (slice mutations i (i + batch_size))) (snd call)
    /\ pipefy_net w' = pipefy_net w
    /\ pipefy_posts w' = pipefy_posts w + snd call
    /\ DONE_PHASE_CACHE w' = DONE_PHASE_CACHE w.
Proof.
  cbv zeta. unfold batch_request.
  set (batch := slice mutations i (i + batch_size)).
  assert (H : exists lines,
             forall k : M json,
               (log (LogBatchStart (i / batch_size + 1)
                       ((List.length mutations + batch_size - 1) / batch_size)
                       (List.length batch)) ;;;
                (if Nat.leb (List.length batch) 3
                 then log (LogBatchDebug (substring 0 500 (full_mutation_string batch)))
                 else ret tt) ;;; k) w
               = k (logged w lines)).
  { destruct (Nat.leb (List.length batch) 3); [eexists [_; _] | eexists [_]];
      intros k; reflexivity. }
  destruct H as [lines ->].
  destruct (logged_world lines w) as (N & P & _ & _ & C & T).
  destruct (pipefy_post_run (batch_payload batch) (logged w lines))
    as (w' & d & E & Ht & Hp & _ & Hn & Hk & Hc).
  cbv zeta in E, Hp, Hk. rewrite N, P in E, Hp, Hk.
  exists w', (map EvLog lines ++ d). unfold pipefy_post_outcome.
  destruct (logs_are_silent lines) as (Sp & _ & _).
  rewrite E, Ht, T, <- app_assoc, posts_in_app, Sp, Hp.
  repeat split; congruence.
Qed.

(** The loop over the starts [starts]: it posts the batches in order, as
    many of them as it makes turns, and it makes every turn when it
    returns; when the calls return responses of the shape GraphQL gives, it
    returns, with the conjunction of what the batches come to. *)
Lemma execute_batches_run (starts : list nat) :
  forall (b : bool) (w : world),
    let calls := calls_from (pipefy_net w) (pipefy_posts w) in
    let batch i := slice mutations i (i + batch_size) in
    exists j d,
      j <= List.length starts
      /\ trace (snd (execute_batches mutations starts b w)) = trace w ++ d
      /\ posts_in d = batch_posts (map batch (firstn j starts)) (calls j)
      /\ (forall b', fst (execute_batches mutations starts b w) = Ret b' ->
                     j = List.length starts)
      /\ (Forall2 (fun i call => answered (well_formed_response (batch i)) call = true)
                  starts (calls (List.length starts)) ->
          fst (execute_batches mutations starts b w)
          = Ret (b && forallb (answered batch_succeeded) (calls (List.length starts)))).
Proof.
  induction starts as [|i rest IH]; intros b w calls batch.
  - exists 0, []. cbn. rewrite app_nil_r, andb_true_r. repeat split. lia.
  - subst calls. cbn [List.length calls_from]. fold (pipefy_post_outcome w).
    assert (Hstep : execute_batches mutations (i :: rest) b w
                    = match batch_request mutations i w with
                      | (Ret response, w1) =>
                          match batch_verdict mutations i b response w1 with
                          | (Ret ok, w2) => execute_batches mutations rest ok w2
                          | (Raise e, w2) => (Raise e, w2)
                          end
                      | (Raise e, w1) => (Raise e, w1)
                      end).
    { cbn [execute_batches]. unfold execute_batch, bind.
      destruct (batch_request mutations i w) as [[response|e] w1]; reflexivity. }
    rewrite Hstep. clear Hstep.
    destruct (batch_request_run i w) as (w1 & d1 & E1 & T1 & P1 & N1 & K1 & _).
    cbv zeta in E1, P1, K1. rewrite E1.
    set (call := pipefy_post_outcome w) in *.
    assert (Hone : batch_posts (map batch (firstn 1 (i :: rest)))
                     (calls_from (pipefy_net w) (pipefy_posts w) 1)
                   = repeat (batch_payload (batch i)) (snd call)).
    { unfold batch_posts. cbn. now rewrite app_nil_r. }
    destruct (fst call) as [response|e] eqn:Hcall.
    + (* the call returned *)
      destruct (sends_nothing_batch_verdict mutations i b response w1)
        as (d2 & T2 & P2 & N2 & K2 & _).
      destruct (batch_verdict mutations i b response w1) as [[ok|e] w2] eqn:E2;
        cbn [snd] in T2, N2, K2.
      * (* the turn ended *)
        destruct (IH ok w2) as (j & d3 & Hj & T3 & P3 & Hall & Hwf). cbv zeta in *.
        rewrite N2, N1, K2, K1 in P3, Hwf.
        exists (S j), (d1 ++ d2 ++ d3). split; [lia|]. split; [|split; [|split]].
        -- rewrite T3, T2, T1, <- !app_assoc. reflexivity.
        -- rewrite !posts_in_app, P1, P2, P3. cbn [firstn map calls_from].
           fold call. unfold batch_posts. cbn [combine flat_map fst snd]. reflexivity.
        -- intros b' Hb'. f_equal. now apply (Hall b').
        -- intros F. inversion F as [|? ? ? ? Hw Hrest]; subst.
           unfold answered in Hw. fold call in Hw. rewrite Hcall in Hw.
           destruct (batch_verdict_runs i b response Hw w1)
             as (ok' & w2' & d2' & E2' & _ & Hok).
           rewrite E2 in E2'. injection E2' as <- <-.
           rewrite (Hwf Hrest). cbn [forallb]. unfold answered at 2. fold call.
           rewrite Hcall, Hok. now rewrite andb_assoc.
      * (* the turn raised *)
        exists 1, (d1 ++ d2). cbn [fst snd].
        split; [cbn; lia|]. split; [|split; [|split]].
        -- rewrite T2, T1, <- !app_assoc. reflexivity.
        -- rewrite posts_in_app, P1, P2, app_nil_r. now rewrite Hone.
        -- intros b' Hb'. discriminate Hb'.
        -- intros F. inversion F as [|? ? ? ? Hw Hrest]; subst.
           unfold answered in Hw. fold call in Hw. rewrite Hcall in Hw.
           destruct (batch_verdict_runs i b response Hw w1)
             as (ok' & w2' & d2' & E2' & _ & Hok).
           rewrite E2 in E2'. discriminate E2'.
    + (* the call raised *)
      exists 1, d1. cbn [fst snd]. split; [cbn; lia|]. split; [exact T1|]. split; [|split].
      * rewrite P1. now rewrite Hone.
      * intros b' Hb'. discriminate Hb'.
      * intros F. inversion F as [|? ? ? ? Hw Hrest]; subst.
        unfold answered in Hw. fold call in Hw. rewrite Hcall in Hw. discriminate Hw.
Qed.

End BatchLoop.

(** C9: the batches of a list of N fragments are ceil(N/50) in number,
    each holds between 1 and 50 fragments, and their concatenation in
    order is the list itself.  They are what the loop of
    [execute_pipefy_mutations] posts: in every world the requests it sends
    are those of the first batches, in order, each batch as many times as
    [pipefy_post] makes attempts for it, and of all the batches when the
    function returns. *)
Theorem batches_partition (mutations : list string) :
  let N := List.length mutations in
  let k := List.length (batches mutations) in
  k = (N + batch_size - 1) / batch_size
  /\ (N <= batch_size * k < N + batch_size)
  /\ Forall (fun batch => 1 <= List.length batch <= batch_size) (batches mutations)
  /\ concat (batches mutations) = mutations
  /\ forall w,
       exists j d,
         j <= k
         /\ trace (snd (execute_pipefy_mutations mutations w)) = trace w ++ d
         /\ posts_in d
            = batch_posts (firstn j (batches mutations))
                (calls_from (pipefy_net w) (pipefy_posts w) j)
         /\ (forall b, fst (execute_pipefy_mutations mutations w) = Ret b -> j = k).
Proof.
  intros N k.
  assert (Hk : k = (N + batch_size - 1) / batch_size) by apply batches_length.
  split; [exact Hk|]. split; [|split; [|split]].
  - rewrite Hk. unfold batch_size.
    pose proof (Nat.div_mod_eq (N + 50 - 1) 50) as E.
    pose proof (Nat.mod_upper_bound (N + 50 - 1) 50). lia.
  - unfold batches. apply Forall_forall. intros b Hb.
    apply in_map_iff in Hb as [i [<- Hi]]. apply range_from_below in Hi.
    rewrite slice_batch, length_firstn, length_skipn. unfold batch_size. fold N. lia.
  - unfold batches, py_range. rewrite range_from_concat by lia. reflexivity.
  - intros w. unfold execute_pipefy_mutations.
    destruct mutations as [|m ms].
    + exists 0, [EvLog LogNoMutations]. repeat split. lia.
    + cbn [is_nil]. set (mutations := m :: ms) in *.
      destruct (execute_batches_run mutations
                  (py_range 0 (List.length mutations) batch_size) true w)
        as (j & d & Hj & T & P & Hall & _).
      cbv zeta in P.
      assert (Hlen : List.length (py_range 0 (List.length mutations) batch_size) = k).
      { unfold k, batches. now rewrite length_map. }
      rewrite Hlen in Hj, Hall.
      assert (Hp : posts_in d
                   = batch_posts (firstn j (batches mutations))
                       (calls_from (pipefy_net w) (pipefy_posts w) j)).
      { rewrite P. unfold batches. now rewrite firstn_map. }
      match goal with |- context [bind ?m ?f w] =>
        assert (Hrun : bind m f w
                       = match m w with
                         | (Ret ok, w1) =>
                             (Ret ok, log_to w1 (if ok then LogAllBatchesSucceeded
                                                 else LogSomeBatchesFailed))
                         | (Raise e, w1) => (Raise e, w1)
                         end)
      end.
      { unfold bind.
        destruct (execute_batches mutations _ true w) as [[[|]|e] w1]; reflexivity. }
      rewrite Hrun. clear Hrun.
      destruct (execute_batches mutations _ true w) as [[ok|e] w1]; cbn [fst snd] in *.
      * specialize (Hall ok eq_refl).
        exists j, (d ++ [EvLog (if ok then LogAllBatchesSucceeded
                                else LogSomeBatchesFailed)]).
        split; [exact Hj|]. split; [|split].
        -- cbn [log_to trace]. now rewrite T, app_assoc.
        -- rewrite posts_in_app, Hp. cbn. now rewrite app_nil_r.
        -- intros _ _. exact Hall.
      * exists j, d. split; [exact Hj|]. split; [exact T|]. split; [exact Hp|].
        intros b Hb. discriminate Hb.
Qed.

(** C10: on an empty list [execute_pipefy_mutations] returns [True]; it
    only writes one log line and posts nothing, so a table with nothing to
    create, update and archive syncs successfully without a request. *)
Theorem execute_empty_succeeds (w : world) :
  exists w',
    execute_pipefy_mutations [] w = (Ret true, w')
    /\ pipefy_posts w' = pipefy_posts w
    /\ trace w' = trace w ++ [EvLog LogNoMutations]
    /\ forall table_id fm,
         exists w2,
           sync_table [] (Some []) table_id fm w = (Ret true, w2)
           /\ pipefy_posts w2 = pipefy_posts w.
Proof.
  eexists. split; [reflexivity|]. split; [reflexivity|]. split; [reflexivity|].
  intros. eexists. split; [cbv; reflexivity | reflexivity].
Qed.

Lemma pipefy_post_spec_count (a0 a1 a2 : post_attempt) :
  1 <= snd (pipefy_post_spec a0 a1 a2) <= 3.
Proof.
  unfold pipefy_post_spec.
  destruct (post_decides 0 a0); [simpl; lia|].
  destruct (post_decides 1 a1); [simpl; lia|].
  destruct (post_decides 2 a2); simpl; lia.
Qed.

Lemma calls_from_count (net : nat -> post_attempt) (count : nat) :
  forall n, Forall (fun call => 1 <= snd call <= 3) (calls_from net n count).
Proof.
  induction count as [|count IH]; intros n; cbn [calls_from]; constructor.
  - apply pipefy_post_spec_count.
  - apply IH.
Qed.

Lemma calls_from_length (net : nat -> post_attempt) (count : nat) :
  forall n, List.length (calls_from net n count) = count.
Proof. induction count as [|count IH]; intros n; cbn; [reflexivity|now rewrite IH]. Qed.

Lemma Forall2_map_l {A B C} (f : A -> B) (P : B -> C -> Prop) (l : list A) (l' : list C) :
  Forall2 P (map f l) l' -> Forall2 (fun x y => P (f x) y) l l'.
Proof.
  revert l'. induction l as [|x l IH]; intros l' H; inversion H; subst; constructor; auto.
Qed.

(** C8, for responses of the shape GraphQL gives them.  The calls of
    [pipefy_post] that the batches make are decided by the answers of the
    network, each call taking up the answers where the call before left
    them.  When each of these calls returns an object whose [errors], if
    it has any, is a list of objects, and whose [data] otherwise is an
    object with one result for each fragment sent,
    [execute_pipefy_mutations] returns.  It has then posted every batch,
    in order, each as many times as its call made attempts, one to three,
    whatever the batches before came to; and the result is [True] exactly
    when every call returned an object without [errors] in which every
    alias is a success. *)
Theorem every_batch_attempted (mutations : list string) (w : world) :
  mutations <> [] ->
  let calls :=
    calls_from (pipefy_net w) (pipefy_posts w) (List.length (batches mutations)) in
  Forall2 (fun batch call => answered (well_formed_response batch) call = true)
          (batches mutations) calls ->
  exists all_successful w' d,
    execute_pipefy_mutations mutations w = (Ret all_successful, w')
    /\ trace w' = trace w ++ d
    /\ posts_in d = batch_posts (batches mutations) calls
    /\ List.length calls = List.length (batches mutations)
    /\ Forall (fun call => 1 <= snd call <= 3) calls
    /\ (all_successful = true
        <-> Forall (fun call => answered batch_succeeded call = true) calls).
Proof.
  intros Hne calls Hwf.
  unfold batches in Hwf. apply Forall2_map_l in Hwf.
  destruct (execute_batches_run mutations
              (py_range 0 (List.length mutations) batch_size) true w)
    as (j & d & Hj & T & P & Hall & Hret).
  cbv zeta in P, Hret.
  assert (Hlen : List.length (py_range 0 (List.length mutations) batch_size)
                 = List.length (batches mutations)).
  { unfold batches. now rewrite length_map. }
  rewrite Hlen in Hall, Hret, Hj. fold calls in Hret.
  specialize (Hret Hwf). cbn [andb] in Hret.
  pose proof (Hall _ Hret) as ->.
  rewrite <- Hlen, firstn_all in P. rewrite Hlen in P. fold calls in P.
  change (map _ (py_range 0 (List.length mutations) batch_size))
    with (batches mutations) in P.
  exists (forallb (answered batch_succeeded) calls).
  unfold execute_pipefy_mutations.
  destruct mutations as [|m ms]; [congruence|]. cbn [is_nil].
  set (final := if forallb (answered batch_succeeded) calls
                then LogAllBatchesSucceeded else LogSomeBatchesFailed).
  match goal with |- context [bind ?m ?f w] =>
    assert (Hrun : bind m f w
                   = match m w with
                     | (Ret ok, w1) =>
                         (Ret ok, log_to w1 (if ok then LogAllBatchesSucceeded
                                             else LogSomeBatchesFailed))
                     | (Raise e, w1) => (Raise e, w1)
                     end)
  end.
  { unfold bind.
    destruct (execute_batches (m :: ms) _ true w) as [[[|]|e] w1]; reflexivity. }
  rewrite Hrun. clear Hrun.
  destruct (execute_batches (m :: ms) _ true w) as [o w1]. cbn [fst snd] in *.
  subst o. exists (log_to w1 final), (d ++ [EvLog final]).
  split; [|split; [|split; [|split; [|split]]]].
  - reflexivity.
  - cbn [log_to trace]. rewrite T, app_assoc. reflexivity.
  - rewrite posts_in_app, P. cbn. now rewrite app_nil_r.
  - apply calls_from_length.
  - apply calls_from_count.
  - rewrite forallb_forall, Forall_forall. reflexivity.
Qed.

Lemma every_batch_attempted_witness :
  let calls :=
    calls_from (pipefy_net ex_batch_world) (pipefy_posts ex_batch_world)
      (List.length (batches ex_mutations)) in
  exists all_successful w' d,
    execute_pipefy_mutations ex_mutations ex_batch_world = (Ret all_successful, w')
    /\ trace w' = trace ex_batch_world ++ d
    /\ posts_in d = batch_posts (batches ex_mutations) calls
    /\ List.length calls = List.length (batches ex_mutations)
    /\ Forall (fun call => 1 <= snd call <= 3) calls
    /\ (all_successful = true
        <-> Forall (fun call => answered batch_succeeded call = true) calls).
Proof.
  apply (every_batch_attempted ex_mutations ex_batch_world).
  - discriminate.
  - vm_compute. repeat constructor.
Defined.

(** The first batch of the example is sent three times and given up, the
    second is still posted and succeeds; the result is [False]. *)
Example failed_batch_does_not_stop_the_next :
  fst (execute_pipefy_mutations ex_mutations ex_batch_world) = Ret false
  /\ pipefy_posts (snd (execute_pipefy_mutations ex_mutations ex_batch_world)) = 4
  /\ map (fun call => (answered batch_succeeded call, snd call))
         (calls_from (pipefy_net ex_batch_world) (pipefy_posts ex_batch_world)
            (List.length (batches ex_mutations)))
     = [(false, 3); (true, 1)].
Proof. vm_compute. repeat split. Qed.

(** C8 as stated fails outside that shape.  An answer without [errors]
    whose [data] is null ends the loop with [AttributeError]: of the two
    batches only the first is posted.  And the count decides: an answer
    with a success for the one fragment sent and a null result under
    another alias makes the function return [True] although an alias
    failed. *)
Lemma batch_loop_outside_the_shape :
  (List.length (batches ex_mutations) = 2
   /\ fst (execute_pipefy_mutations ex_mutations ex_null_data_world)
      = Raise AttributeError
   /\ pipefy_posts (snd (execute_pipefy_mutations ex_mutations ex_null_data_world)) = 1)
  /\ (fst (execute_pipefy_mutations ex_one_mutation ex_extra_alias_world) = Ret true
      /\ fst (pipefy_post_outcome ex_extra_alias_world)
         = Ret (JDict [("data",
                        JDict [("mut_create_0_6_12",
                                JDict [("table_record",
                                        JDict [("id", JVal (PStr "902"))])]);
                               ("mut_create_1_6_13", JNone)])])
      /\ is_success JNone = false).
Proof. vm_compute. repeat split. Qed.

(* ------------------------------------------------------------------ *)
(** ** Transport as a function of the answers *)
(* ------------------------------------------------------------------ *)

(** *** The retry loops *)

Lemma post_decides_value (attempt : nat) (a : post_attempt) (o : outcome json) :
  post_decides attempt a = Some o ->
  o <> Ret JNone
  /\ (forall e, o = Raise e -> e = TypeError)
  /\ ((forall body, a = PostJson body -> is_dict body = true) -> exists v, o = Ret v).
Proof.
  destruct a as [[v|l|d]| |status text]; cbn [post_decides].
  - destruct v as [| b | z | s]; try destruct (contains "errors" s);
      intros E; injection E as <-;
      (split; [discriminate|]; split; [congruence|]);
      intros H; now specialize (H _ eq_refl).
  - destruct (existsb _ l); intros E; injection E as <-;
      (split; [discriminate|]; split; [congruence|]);
      intros H; now specialize (H _ eq_refl).
  - destruct (dict_mem "errors" d); [destruct (Nat.eqb attempt (max_retries - 1))|];
      try discriminate; intros E; injection E as <-;
      (split; [discriminate|]; split; [discriminate|]); eauto.
  - discriminate.
  - destruct (is_client_error status); [|discriminate].
    intros E; injection E as <-. split; [discriminate|]. split; [discriminate|]. eauto.
Qed.

(** X1: [pipefy_post] is [pipefy_post_spec] of what its next three requests
    meet.  It ends with the first attempt that decides: it returns a body
    without [errors], the client error body for a 4xx status other than
    429, or the object with [errors] at the third attempt, and it raises
    [TypeError] on a body that is JSON but null, a boolean or a number, or
    a list or a string that holds [errors].  When no attempt decides it
    returns the body of exhaustion; a body that is not JSON decides
    nothing.  It never returns [None], raises nothing but [TypeError], and
    raises nothing when every JSON body is an object.  It sends the same
    payload once per attempt, one to three times, sleeps 5 and then 10
    seconds between attempts, and leaves the phase cache as it was. *)
Theorem pipefy_post_refines_spec (p : payload) (w : world) :
  let n := pipefy_posts w in
  let vk := pipefy_post_spec (pipefy_net w n) (pipefy_net w (n + 1)) (pipefy_net w (n + 2)) in
  exists w' d,
    pipefy_post p w = (fst vk, w')
    /\ trace w' = trace w ++ d
    /\ posts_in d = repeat p (snd vk)
    /\ sleeps_in d = firstn (snd vk - 1) [5; 10]
    /\ pipefy_net w' = pipefy_net w
    /\ pipefy_posts w' = n + snd vk
    /\ DONE_PHASE_CACHE w' = DONE_PHASE_CACHE w
    /\ 1 <= snd vk <= 3
    /\ fst vk <> Ret JNone
    /\ (forall e, fst vk = Raise e -> e = TypeError)
    /\ ((forall k body, k < 3 -> pipefy_net w (n + k) = PostJson body ->
                        is_dict body = true) ->
        exists v, fst vk = Ret v)
    /\ (forall k text, post_decides k (post_not_json text) = None).
Proof.
  cbv zeta.
  destruct (pipefy_post_run p w) as (w' & d & E & Ht & Hp & Hs & Hn & Hc & Hk).
  exists w', d.
  split; [exact E|]. split; [exact Ht|]. split; [exact Hp|]. split; [exact Hs|].
  split; [exact Hn|]. split; [exact Hc|]. split; [exact Hk|].
  split; [apply pipefy_post_spec_count|].
  assert (H : forall k, k < 3 ->
                forall o, post_decides k (pipefy_net w (pipefy_posts w + k)) = Some o ->
                          o <> Ret JNone
                          /\ (forall e, o = Raise e -> e = TypeError)
                          /\ ((forall k body, k < 3 ->
                                  pipefy_net w (pipefy_posts w + k) = PostJson body ->
                                  is_dict body = true) ->
                              exists v, o = Ret v)).
  { intros k Hlt o Ho. destruct (post_decides_value _ _ _ Ho) as (A & B & C).
    split; [exact A|]. split; [exact B|]. intros Hd. apply C. intros body Hb.
    now apply (Hd k). }
  pose proof (H 0 ltac:(lia)) as H0. rewrite Nat.add_0_r in H0.
  pose proof (H 1 ltac:(lia)) as H1. pose proof (H 2 ltac:(lia)) as H2.
  split; [|split; [|split; [|reflexivity]]]; unfold pipefy_post_spec;
    (destruct (post_decides 0 _) as [o|]; [now apply (H0 o)|]);
    (destruct (post_decides 1 _) as [o|]; [now apply (H1 o)|]);
    (destruct (post_decides 2 _) as [o|]; [now apply (H2 o)|]);
    cbn [fst]; try discriminate; eauto.
Qed.

(** Bodies that are JSON but no objects: null raises, the empty list is
    returned as it is, each at the first attempt. *)
Example pipefy_post_of_no_object :
  fst (pipefy_post (batch_payload ex_one_mutation)
         (world_answering (PostJson JNone) GetTimeout))
  = Raise TypeError
  /\ pipefy_post (batch_payload ex_one_mutation)
       (world_answering (PostJson (JList [])) GetTimeout)
     = (Ret (JList []),
        posted (world_answering (PostJson (JList [])) GetTimeout)
          (batch_payload ex_one_mutation)).
Proof. split; reflexivity. Qed.

(* ------------------------------------------------------------------ *)
(** ** Sanitized text *)
(* ------------------------------------------------------------------ *)

(** *** What a sanitized value looks like *)

Lemma scan_escape_char (c : ascii) (rest : string) :
  scan_escapes false (escape (str1 c) ++ rest) = scan_escapes false rest.
Proof. ascii_cases c; reflexivity. Qed.

Lemma escape_well_escaped (s : string) : well_escaped (escape s) = true.
Proof.
  unfold well_escaped. induction s as [|c s IH]; [reflexivity|].
  now rewrite escape_cons, scan_escape_char.
Qed.

(** X2: whatever the value, the text [sanitize_graphql_string] returns can
    stand between double quotes: every backslash in it starts one of the five
    escapes it writes, and no double quote, newline, carriage return or tab
    stands unescaped. The text is also unchanged by a further whitespace
    normalization. *)
Theorem sanitized_value_is_safe (v : pyval) :
  well_escaped (sanitize_graphql_string v) = true
  /\ normalize_ws (sanitize_graphql_string v) = sanitize_graphql_string v.
Proof.
  destruct v; simpl; split; try reflexivity;
    first [apply escape_well_escaped | apply normalize_escape_normalize].
Qed.

(** *** [escape] loses nothing *)

Lemma escape_char_head (c : ascii) :
  escape (str1 c) = str1 c /\ Ascii.eqb c ch_backslash = false
  \/ Ascii.eqb c ch_backslash = true /\ escape (str1 c) = String ch_backslash (str1 ch_backslash)
  \/ Ascii.eqb c ch_dquote = true /\ escape (str1 c) = String ch_backslash (str1 ch_dquote)
  \/ Ascii.eqb c ch_nl = true /\ escape (str1 c) = String ch_backslash "n"
  \/ Ascii.eqb c ch_cr = true /\ escape (str1 c) = String ch_backslash "r"
  \/ Ascii.eqb c ch_tab = true /\ escape (str1 c) = String ch_backslash "t".
Proof. ascii_cases c; cbv; tauto. Qed.

Lemma escape_injective (s t : string) : escape s = escape t -> s = t.
Proof.
  revert t. induction s as [|c s IH]; intros [|c' t] H.
  - reflexivity.
  - exfalso. rewrite escape_cons in H. apply (f_equal is_empty) in H.
    rewrite is_empty_append, escape_char_nonempty in H. discriminate.
  - exfalso. rewrite escape_cons in H. apply (f_equal is_empty) in H.
    rewrite is_empty_append, escape_char_nonempty in H. discriminate.
  - rewrite (escape_cons c), (escape_cons c') in H.
    destruct (escape_char_head c) as [[E N]|[[B E]|[[B E]|[[B E]|[[B E]|[B E]]]]]];
    destruct (escape_char_head c') as [[E' N']|[[B' E']|[[B' E']|[[B' E']|[[B' E']|[B' E']]]]]];
      rewrite E, E' in H; cbn [append str1] in H;
      try apply Ascii.eqb_eq in B; try apply Ascii.eqb_eq in B'; subst;
      try (injection H as H1 H2; try discriminate H1;
           try (subst; rewrite Ascii.eqb_refl in *; discriminate);
           try (f_equal; [congruence | now apply IH])).
  all: injection H as H; f_equal; now apply IH.
Qed.

(** X3: two strings have the same sanitized text exactly when they are the
    same after whitespace normalization: the escaping loses nothing. *)
Theorem sanitize_equal_iff (x y : string) :
  sanitize_graphql_string (PStr x) = sanitize_graphql_string (PStr y)
  <-> normalize_ws x = normalize_ws y.
Proof.
  simpl. split; [apply escape_injective | now intros ->].
Qed.

(** X4: the diff compares the sanitized source value with the normalized
    destination value. For one and the same value on both sides the two are
    equal exactly when its text holds no backslash and no double quote: a
    value with one of them compares as changed on every run. *)
Theorem same_value_compares_equal_iff (v : pyval) :
  sanitize_graphql_string v = normalize_destination v
  <-> no_special (py_str v) = true.
Proof.
  assert (H : forall x, escape (normalize_ws x) = normalize_ws x <-> no_special x = true).
  { intros x. split.
    - intros E. destruct (no_special x) eqn:Hx; [reflexivity|].
      rewrite <- no_special_normalize in Hx.
      apply escape_special_longer in Hx. rewrite E in Hx. lia.
    - apply escape_normalized_plain. }
  destruct v as [|b|z|s]; [split; reflexivity| | |]; apply H.
Qed.

(* ------------------------------------------------------------------ *)
(** ** Aliases and keys *)
(* ------------------------------------------------------------------ *)

(** *** Aliases are names *)

Lemma sub_nonword_isword (s : string) : all_chars isword (sub_nonword s) = true.
Proof.
  induction s as [|c s IH]; [reflexivity|]. cbn [sub_nonword all_chars]. rewrite IH.
  destruct (isword c) eqn:E; [now rewrite E | reflexivity].
Qed.

Lemma sub_nonword_fixed (s : string) : all_chars isword s = true -> sub_nonword s = s.
Proof.
  induction s as [|c s IH]; [reflexivity|]. cbn [sub_nonword all_chars]. intros H.
  apply andb_true_iff in H as [Hc Hs]. now rewrite Hc, IH.
Qed.

Lemma sub_nonword_head_digit (c : ascii) :
  isdigit c = false -> isdigit (if isword c then c else ch_underscore) = false.
Proof. intros H. destruct (isword c); [exact H | reflexivity]. Qed.

Lemma re_sub_identifier_fixed (s : string) :
  all_chars isword s = true ->
  match s with String c _ => isdigit c = false | EmptyString => True end ->
  re_sub_identifier s = s.
Proof.
  destruct s as [|c s]; [reflexivity|]. intros Hw Hd.
  unfold re_sub_identifier. rewrite Hd. now apply sub_nonword_fixed.
Qed.

Lemma re_sub_identifier_isword (s : string) :
  all_chars isword (re_sub_identifier s) = true.
Proof.
  destruct s as [|c s]; [reflexivity|]. unfold re_sub_identifier.
  destruct (isdigit c).
  - cbn [all_chars]. now rewrite (sub_nonword_isword (String c s)).
  - apply sub_nonword_isword.
Qed.

Lemma re_sub_identifier_head (s : string) :
  match re_sub_identifier s with
  | String c _ => isdigit c = false
  | EmptyString => s = EmptyString
  end.
Proof.
  destruct s as [|c s]; [reflexivity|]. unfold re_sub_identifier.
  destruct (isdigit c) eqn:Hd; [reflexivity|].
  cbn [sub_nonword]. now apply sub_nonword_head_digit.
Qed.

(** X5: the substitution that makes the alias suffix returns word characters
    only; the result does not start with a digit, is empty only for the empty
    string, and the substitution applied to it changes nothing. *)
Theorem re_sub_identifier_gives_a_name (s : string) :
  all_chars isword (re_sub_identifier s) = true
  /\ match re_sub_identifier s with
     | String c _ => isdigit c = false
     | EmptyString => s = EmptyString
     end
  /\ re_sub_identifier (re_sub_identifier s) = re_sub_identifier s.
Proof.
  split; [apply re_sub_identifier_isword|]. split; [apply re_sub_identifier_head|].
  apply re_sub_identifier_fixed; [apply re_sub_identifier_isword|].
  pose proof (re_sub_identifier_head s) as H.
  destruct (re_sub_identifier s); [exact I | exact H].
Qed.

(** X6: every alias, with the title suffix or without, consists of word
    characters only and starts with [mut_], whatever the action, the key
    values and the index. *)
Theorem aliases_are_names (action : string) (key_identifiers : list string)
    (i : nat) (r : record) :
  let alias := mut_alias action key_identifiers i r in
  all_chars isword alias = true
  /\ all_chars isword (alias ++ "_ttl") = true
  /\ exists rest, alias = ("mut_" ++ rest)%string.
Proof.
  intros alias. subst alias. unfold mut_alias.
  pose proof (re_sub_identifier_isword
              (replace_char "-" "_" action ++ "_" ++ str_nat i ++ "_"
               ++ join "_" (map (fun k => py_str (dict_get_default r k (PStr "")))
                            key_identifiers))) as Hw.
  unfold unique_suffix. repeat split.
  - rewrite all_chars_append, Hw. reflexivity.
  - rewrite !all_chars_append, Hw. reflexivity.
  - eexists. reflexivity.
Qed.

(** *** Keys *)

(** X7: when the destination record holds under the slug of every key
    attribute the text the source record holds under the attribute, [get_key]
    gives both the same key: these texts joined by a hyphen. For the divisions
    table the attributes are [division_id] and [customer_id], whatever the
    keys of the mapping. *)
Theorem get_key_agrees (pipefy_table_id : string) (fm : field_mapping)
    (chase_record pipefy_record : record) :
  (forall k, In k (key_attributes pipefy_table_id fm) ->
             exists pipefy_slug,
               dict_get (fields fm) k = Some pipefy_slug
               /\ key_part pipefy_record pipefy_slug = key_part chase_record k) ->
  get_key pipefy_table_id fm chase_record false
  = Ret (join "-" (map (key_part chase_record) (key_attributes pipefy_table_id fm)))
  /\ get_key pipefy_table_id fm pipefy_record true
     = get_key pipefy_table_id fm chase_record false.
Proof.
  unfold key_attributes, get_key. intros H.
  destruct (pipefy_table_id =? DIVISIONS_TABLE_ID)%string.
  - split; [reflexivity|].
    destruct (H "division_id" ltac:(simpl; auto)) as [sd [-> Ed]].
    destruct (H "customer_id" ltac:(simpl; auto)) as [sc [-> Ec]].
    now rewrite Ed, Ec.
  - split; [reflexivity|]. f_equal. f_equal. apply map_ext_in.
    intros k Hk. destruct (H k Hk) as [slug [-> E]]. exact E.
Qed.

Lemma get_key_agrees_witness :
  get_key BU_AGENCY_TABLE_ID bu_agency_field_map ex_chase_bu false = Ret "6-12"
  /\ get_key BU_AGENCY_TABLE_ID bu_agency_field_map ex_pipefy_bu true
     = get_key BU_AGENCY_TABLE_ID bu_agency_field_map ex_chase_bu false.
Proof.
  apply (get_key_agrees BU_AGENCY_TABLE_ID bu_agency_field_map ex_chase_bu ex_pipefy_bu).
  intros k Hk. simpl in Hk. destruct Hk as [<-|[<-|[]]]; eexists; split; reflexivity.
Defined.

Lemma dict_get_none_keys {V} (d : dict V) (k : string) :
  dict_get d k = None <-> ~ In k (map fst d).
Proof.
  induction d as [|[k0 v0] d IH]; simpl; [tauto|].
  destruct (String.eqb_spec k0 k) as [->|N].
  - split; [discriminate|]. intros H. exfalso. apply H. now left.
  - rewrite IH. split.
    + intros H [E|E]; [contradiction|now apply H].
    + intros H E. apply H. now right.
Qed.

Lemma dict_set_keys {V} (d : dict V) (k : string) (v : V) :
  map fst (dict_set d k v)
  = if dict_mem k d then map fst d else map fst d ++ [k].
Proof.
  unfold dict_mem. induction d as [|[k0 v0] d IH]; simpl; [reflexivity|].
  destruct (String.eqb_spec k0 k) as [->|N]; simpl; [reflexivity|].
  rewrite IH. now destruct (dict_get d k).
Qed.

Lemma dict_set_nodup {V} (d : dict V) (k : string) (v : V) :
  NoDup (map fst d) -> NoDup (map fst (dict_set d k v)).
Proof.
  intros H. rewrite dict_set_keys. unfold dict_mem.
  destruct (dict_get d k) eqn:E; [exact H|].
  apply NoDup_app; [exact H | repeat constructor; intros [] |].
  intros a Ha [<-|[]]. now apply dict_get_none_keys in E.
Qed.

Lemma key_map_from (pipefy_table_id : string) (fm : field_mapping) (is_pipefy : bool)
    (records : list record) :
  forall acc m,
    key_map pipefy_table_id fm is_pipefy records acc = Ret m ->
    (NoDup (map fst acc) -> NoDup (map fst m))
    /\ forall k,
         dict_get m k
         = match last_with_key pipefy_table_id fm is_pipefy records k with
           | Some r => Some r
           | None => dict_get acc k
           end.
Proof.
  induction records as [|r rest IH]; intros acc m E; simpl in E.
  - injection E as <-. split; [auto|reflexivity].
  - cbn [last_with_key].
    destruct (get_key pipefy_table_id fm r is_pipefy) as [kr|e]; [|discriminate].
    destruct (IH _ _ E) as [Hn Hg]. split.
    + intros H. apply Hn. now apply dict_set_nodup.
    + intros k. rewrite Hg.
      destruct (last_with_key pipefy_table_id fm is_pipefy rest k); [reflexivity|].
      rewrite dict_get_set. now destruct (kr =? k)%string.
Qed.

(** X8: the map from keys to records has distinct keys and holds, for each
    key, the last record of the list with that key; the key of every record of
    the list is in the map, which has no more entries than the list has
    records. *)
Theorem key_map_keeps_last (pipefy_table_id : string) (fm : field_mapping)
    (is_pipefy : bool) (records : list record) (m : dict record) :
  key_map pipefy_table_id fm is_pipefy records [] = Ret m ->
  NoDup (map fst m)
  /\ (forall k, dict_get m k = last_with_key pipefy_table_id fm is_pipefy records k)
  /\ (forall r, In r records ->
                exists k, get_key pipefy_table_id fm r is_pipefy = Ret k
                          /\ dict_mem k m = true)
  /\ List.length m <= List.length records.
Proof.
  intros E. destruct (key_map_from _ _ _ _ _ _ E) as [Hn Hg].
  assert (Hk : forall k, dict_get m k = last_with_key pipefy_table_id fm is_pipefy records k).
  { intros k. rewrite Hg. now destruct (last_with_key _ _ _ _ _). }
  split; [apply Hn; constructor|]. split; [exact Hk|]. split.
  - clear Hn Hg. intros r Hin.
    assert (Hall : forall acc, key_map pipefy_table_id fm is_pipefy records acc = Ret m ->
                   exists k, get_key pipefy_table_id fm r is_pipefy = Ret k).
    { clear Hk E. induction records as [|r0 rest IH]; [destruct Hin|].
      intros acc E. simpl in E.
      destruct (get_key pipefy_table_id fm r0 is_pipefy) as [k0|e] eqn:E0; [|discriminate].
      destruct Hin as [<-|Hin]; [eauto|]. eapply IH; eauto. }
    destruct (Hall _ E) as [k Ek]. exists k. split; [exact Ek|].
    unfold dict_mem. rewrite Hk. clear Hall E Hk.
    induction records as [|r0 rest IH]; [destruct Hin|]. cbn [last_with_key].
    destruct Hin as [<-|Hin].
    + destruct (last_with_key pipefy_table_id fm is_pipefy rest k); [reflexivity|].
      now rewrite Ek, String.eqb_refl.
    + specialize (IH Hin).
      now destruct (last_with_key pipefy_table_id fm is_pipefy rest k).
  - clear Hk Hg Hn.
    assert (H : forall acc, key_map pipefy_table_id fm is_pipefy records acc = Ret m ->
                List.length m <= List.length acc + List.length records).
    { clear E. induction records as [|r0 rest IH]; intros acc E; simpl in E.
      - injection E as <-. simpl. lia.
      - destruct (get_key pipefy_table_id fm r0 is_pipefy); [|discriminate].
        apply IH in E.
        assert (List.length (dict_set acc a r0) <= S (List.length acc)).
        { rewrite <- (length_map fst), dict_set_keys, <- (length_map fst acc).
          destruct (dict_mem a acc); [lia|]. rewrite length_app. simpl. lia. }
        simpl. lia. }
    exact (H [] E).
Qed.

Lemma key_map_keeps_last_witness :
  exists m,
    key_map BU_AGENCY_TABLE_ID bu_agency_field_map false [ex_chase_bu; ex_chase_renamed] []
    = Ret m
    /\ dict_get m "6-12" = Some ex_chase_renamed
    /\ List.length m <= 2.
Proof.
  eexists. split; [reflexivity|].
  destruct (key_map_keeps_last BU_AGENCY_TABLE_ID bu_agency_field_map false
              [ex_chase_bu; ex_chase_renamed] _ eq_refl) as (_ & Hk & _ & Hl).
  split; [rewrite Hk; reflexivity | exact Hl].
Defined.

(* ------------------------------------------------------------------ *)
(** ** The diff *)
(* ------------------------------------------------------------------ *)

(** *** The diff as a whole *)

Lemma update_data_get (r : record) (id title status : pyval) (k : string) :
  ~ In k update_attributes ->
  dict_get (dict_set (dict_set (dict_set r "pipefy_record_id" id) "current_title" title)
                     "status" status) k
  = dict_get r k.
Proof.
  intros H. unfold update_attributes in H. simpl in H.
  rewrite !dict_get_set_other; [reflexivity| | |]; intros E; apply H; auto.
Qed.

Lemma update_data_title (r : record) (id title status : pyval) :
  title_of (dict_set (dict_set (dict_set r "pipefy_record_id" id) "current_title" title)
                     "status" status)
  = title_of r.
Proof.
  unfold title_of, dict_mem, rget, dict_get_default.
  rewrite !update_data_get; [reflexivity| | |];
    unfold update_attributes; simpl; intros [E|[E|[E|[]]]]; discriminate.
Qed.

Lemma classify_source_update (fm : field_mapping) (pipefy_map : dict record)
    (chase_key : string) (chase_record update_data : record) :
  classify_source fm pipefy_map chase_key chase_record = Ret (UPDATE update_data) ->
  exists pipefy_record pipefy_record_id,
    dict_get pipefy_map chase_key = Some pipefy_record
    /\ needs_update fm chase_record pipefy_record = true
    /\ dict_get pipefy_record "pipefy_record_id" = Some pipefy_record_id
    /\ dict_get update_data "pipefy_record_id" = Some pipefy_record_id
    /\ dict_get update_data "status" = Some (PStr "Active")
    /\ dict_get update_data "current_title"
       = Some (dict_get_default pipefy_record "title" (PStr ""))
    /\ (forall k, ~ In k update_attributes ->
                  dict_get update_data k = dict_get chase_record k)
    /\ title_of update_data = title_of chase_record
    /\ title_changed update_data = title_differs chase_record pipefy_record.
Proof.
  unfold classify_source. intros H.
  destruct (dict_get pipefy_map chase_key) as [pr|]; [|discriminate].
  destruct (needs_update fm chase_record pr) eqn:Hn; [|discriminate].
  destruct (dict_get pr "pipefy_record_id") as [id|] eqn:Hid; [|discriminate].
  injection H as <-. exists pr, id.
  split; [reflexivity|]. split; [exact Hn|]. split; [exact Hid|].
  split. { rewrite !dict_get_set_other by discriminate. apply dict_get_set_same. }
  split. { apply dict_get_set_same. }
  split. { rewrite dict_get_set_other by discriminate. apply dict_get_set_same. }
  split. { intros k Hk. now apply update_data_get. }
  split. { apply update_data_title. }
  unfold title_changed, title_differs. rewrite update_data_title.
  unfold dict_get_default at 1.
  rewrite dict_get_set_other by discriminate. rewrite dict_get_set_same. reflexivity.
Qed.

(** X9: an update record of the diff carries the id of the destination record
    and the status Active, and apart from the three attributes the diff adds
    it is the source record. For a true id the update branch makes of it the
    field fragment for that id, with status Active among its values, followed
    by the title fragment exactly when the title of the source record is not
    empty and differs from the title of the destination record. *)
Theorem update_record_composition (fm : field_mapping) (pipefy_map : dict record)
    (chase_key : string) (chase_record update_data : record) :
  classify_source fm pipefy_map chase_key chase_record = Ret (UPDATE update_data) ->
  exists pipefy_record pipefy_record_id,
    dict_get pipefy_map chase_key = Some pipefy_record
    /\ needs_update fm chase_record pipefy_record = true
    /\ dict_get pipefy_record "pipefy_record_id" = Some pipefy_record_id
    /\ dict_get update_data "pipefy_record_id" = Some pipefy_record_id
    /\ dict_get update_data "status" = Some (PStr "Active")
    /\ (forall k, ~ In k update_attributes ->
                  dict_get update_data k = dict_get chase_record k)
    /\ (truthy pipefy_record_id = true ->
        forall action i w,
        exists values,
          dict_get values "status" = Some "Active"
          /\ build_update action fm i update_data w
             = (Ret ({| frag_alias := mut_alias action (keys fm) i update_data;
                        frag_body := UpdateFieldsValues (py_str pipefy_record_id)
                                                        values |}
                     :: if title_differs chase_record pipefy_record
                        then [ {| frag_alias :=
                                    (mut_alias action (keys fm) i update_data
                                     ++ "_ttl")%string;
                                  frag_body :=
                                    UpdateTableRecord (py_str pipefy_record_id)
                                                      (title_of chase_record) |} ]
                        else []), w)).
Proof.
  intros H.
  destruct (classify_source_update _ _ _ _ _ H)
    as (pr & id & Hg & Hn & Hid & Hu & Hs & Hct & Hk & Ht & Htc).
  exists pr, id. repeat split; try assumption.
  intros Hid_true action i w. unfold build_update.
  assert (Hr : rget update_data "pipefy_record_id" = id).
  { unfold rget, dict_get_default. now rewrite Hu. }
  rewrite Hr, Hid_true. cbn [negb]. rewrite dict_set_not_nil. cbn [negb orb].
  assert (Hst : sanitize_graphql_string
                  (dict_get_default update_data "status" (PStr "Active")) = "Active").
  { unfold dict_get_default. rewrite Hs. reflexivity. }
  rewrite Hst.
  change (negb (is_empty (title_of update_data))
          && negb (eq_str (dict_get_default update_data "current_title" (PStr ""))
                          (title_of update_data)))
    with (title_changed update_data).
  rewrite Htc, Ht. eexists. split; [apply dict_get_set_same|].
  destruct (title_differs chase_record pr); reflexivity.
Qed.

Lemma update_record_composition_witness :
  exists pipefy_record pipefy_record_id,
    dict_get [("6-12", ex_pipefy_bu)] "6-12" = Some pipefy_record
    /\ needs_update bu_agency_field_map ex_chase_renamed pipefy_record = true
    /\ dict_get pipefy_record "pipefy_record_id" = Some pipefy_record_id
    /\ dict_get ex_update_data "pipefy_record_id" = Some pipefy_record_id
    /\ dict_get ex_update_data "status" = Some (PStr "Active")
    /\ (forall k, ~ In k update_attributes ->
                  dict_get ex_update_data k = dict_get ex_chase_renamed k)
    /\ (truthy pipefy_record_id = true ->
        forall action i w,
        exists values,
          dict_get values "status" = Some "Active"
          /\ build_update action bu_agency_field_map i ex_update_data w
             = (Ret ({| frag_alias :=
                          mut_alias action (keys bu_agency_field_map) i ex_update_data;
                        frag_body := UpdateFieldsValues (py_str pipefy_record_id)
                                                        values |}
                     :: if title_differs ex_chase_renamed pipefy_record
                        then [ {| frag_alias :=
                                    (mut_alias action (keys bu_agency_field_map) i
                                       ex_update_data ++ "_ttl")%string;
                                  frag_body :=
                                    UpdateTableRecord (py_str pipefy_record_id)
                                                      (title_of ex_chase_renamed) |} ]
                        else []), w)).
Proof.
  apply (update_record_composition bu_agency_field_map [("6-12", ex_pipefy_bu)] "6-12"
           ex_chase_renamed ex_update_data).
  reflexivity.
Defined.



(* ------------------------------------------------------------------ *)
(** ** Builds *)
(* ------------------------------------------------------------------ *)

(** *** Building without the network *)

Section BuildLogs.
Variables (table_id : string) (fm : field_mapping).

Lemma build_create_logs (action : string) (i : nat) (r : record) (w : world) :
  exists frs lines,
    build_create table_id action fm i r w = (Ret frs, logged w lines)
    /\ List.length frs + List.length lines = 1.
Proof.
  unfold build_create. destruct (create_skipped (keys fm) r).
  - exists [], [LogSkipCreate table_id r]. split; reflexivity.
  - eexists _, []. split; reflexivity.
Qed.

Lemma build_update_logs (action : string) (i : nat) (r : record) (w : world) :
  exists frs lines,
    build_update action fm i r w = (Ret frs, logged w lines)
    /\ 1 <= List.length frs + List.length lines <= 2.
Proof.
  unfold build_update. destruct (negb (truthy (rget r "pipefy_record_id"))).
  - exists [], [LogSkipUpdateNoId]. split; [reflexivity|simpl; lia].
  - rewrite dict_set_not_nil. cbn [negb orb].
    match goal with |- context [eq_str ?a ?b] =>
      destruct (negb (is_empty (title_of r)) && negb (eq_str a b)) end;
      eexists _, []; (split; [reflexivity|simpl; lia]).
Qed.

Lemma build_archive_cached_logs (action : string) (v : pyval) (i : nat) (r : record)
    (w : world) :
  dict_get (DONE_PHASE_CACHE w) table_id = Some (JVal v) ->
  truthy v = true ->
  exists frs lines,
    build_archive table_id action fm i r w = (Ret frs, logged w lines)
    /\ List.length frs + List.length lines = 1
    /\ Forall (fun f => frag_body f
                        = UpdateTableRecordField (py_str (rget r "pipefy_record_id"))
                                                 "current_phase" (py_str v)) frs.
Proof.
  intros Hc Hv. unfold build_archive.
  destruct (negb (truthy (rget r "pipefy_record_id"))).
  - exists [], [LogSkipArchiveNoId]. repeat split; constructor.
  - unfold bind at 1. rewrite (get_done_phase_id_cached _ _ _ Hc).
    cbn [json_truthy]. rewrite Hv. eexists _, []. split; [reflexivity|].
    split; [reflexivity|]. repeat constructor.
Qed.

End BuildLogs.

(** X11: the builds of create and of update never raise and touch nothing but
    the log: no request, no pause, the same phase cache. Every record gives at
    least one fragment or one line that says why it was skipped, and at most
    two; for create exactly one. *)
Theorem build_create_update_offline (records : list record) (table_id action : string)
    (fm : field_mapping) (w : world) :
  action = "create" \/ action = "update" ->
  exists mutations lines,
    build_pipefy_mutations records table_id action fm w
    = (Ret mutations, logged w lines)
    /\ List.length records <= List.length mutations + List.length lines
    /\ List.length mutations + List.length lines <= 2 * List.length records
    /\ (action = "create" ->
        List.length mutations + List.length lines = List.length records).
Proof.
  intros Ha. unfold build_pipefy_mutations, build_fragments. unfold bind at 1.
  assert (H : forall i w, exists frs lines,
             build_from table_id action fm i records w = (Ret frs, logged w lines)
             /\ List.length records <= List.length frs + List.length lines
             /\ List.length frs + List.length lines <= 2 * List.length records
             /\ (action = "create" ->
                 List.length frs + List.length lines = List.length records)).
  { clear w. induction records as [|r rest IH]; intros i w.
    - exists [], []. repeat split; simpl; lia.
    - cbn [build_from]. unfold bind at 1.
      assert (Hr : exists fs l1,
                 build_record table_id action fm i r w = (Ret fs, logged w l1)
                 /\ 1 <= List.length fs + List.length l1 <= 2
                 /\ (action = "create" -> List.length fs + List.length l1 = 1)).
      { unfold build_record. destruct Ha as [-> | ->]; cbn [String.eqb Ascii.eqb Bool.eqb].
        - destruct (build_create_logs table_id fm "create" i r w) as (fs & l1 & E & L).
          exists fs, l1. repeat split; [exact E|lia|lia|auto].
        - destruct (build_update_logs fm "update" i r w) as (fs & l1 & E & L).
          exists fs, l1. repeat split; [exact E|lia|lia|discriminate]. }
      destruct Hr as (fs & l1 & -> & L1 & C1).
      unfold bind at 1.
      destruct (IH (S i) (logged w l1)) as (more & l2 & -> & L2 & U2 & C2).
      exists (fs ++ more), (l1 ++ l2). rewrite logged_app. split; [reflexivity|].
      rewrite !length_app. cbn [List.length]. repeat split; try lia.
      intros Hc. specialize (C1 Hc). specialize (C2 Hc). lia. }
  destruct (H 0 w) as (frs & lines & -> & L & U & C).
  exists (map render_fragment frs), lines. rewrite length_map. auto.
Qed.

Lemma build_create_update_offline_witness :
  exists mutations lines,
    build_pipefy_mutations [ex_chase_bu; ex_no_keys] BU_AGENCY_TABLE_ID "create"
      bu_agency_field_map (world_answering PostTimeout GetTimeout)
    = (Ret mutations, logged (world_answering PostTimeout GetTimeout) lines)
    /\ 2 <= List.length mutations + List.length lines
    /\ List.length mutations + List.length lines <= 4
    /\ ("create" = "create" -> List.length mutations + List.length lines = 2).
Proof.
  apply (build_create_update_offline [ex_chase_bu; ex_no_keys] BU_AGENCY_TABLE_ID
           "create" bu_agency_field_map (world_answering PostTimeout GetTimeout)).
  left. reflexivity.
Defined.

(** X12: with a true Done phase in the cache for the table, the build of
    archive sends no request: every record gives either one fragment, a move
    to that phase, or one line in the log. *)
Theorem build_archive_with_cached_phase (records : list record) (table_id : string)
    (fm : field_mapping) (v : pyval) (w : world) :
  dict_get (DONE_PHASE_CACHE w) table_id = Some (JVal v) ->
  truthy v = true ->
  exists frs lines,
    build_fragments records table_id "archive" fm w = (Ret frs, logged w lines)
    /\ List.length frs + List.length lines = List.length records
    /\ Forall (fun f => exists table_record_id,
                 frag_body f
                 = UpdateTableRecordField table_record_id "current_phase" (py_str v)) frs.
Proof.
  intros Hc Hv. unfold build_fragments. generalize 0 as i.
  revert w Hc. induction records as [|r rest IH]; intros w Hc i.
  - exists [], []. repeat split; constructor.
  - cbn [build_from]. unfold bind at 1.
    change (build_record table_id "archive" fm i r)
      with (build_archive table_id "archive" fm i r).
    destruct (build_archive_cached_logs table_id fm "archive" v i r w Hc Hv)
      as (fs & l1 & -> & L1 & F1).
    unfold bind at 1.
    assert (Hc' : dict_get (DONE_PHASE_CACHE (logged w l1)) table_id = Some (JVal v)).
    { destruct (logged_world l1 w) as (_ & _ & _ & _ & -> & _). exact Hc. }
    destruct (IH _ Hc' (S i)) as (more & l2 & -> & L2 & F2).
    exists (fs ++ more), (l1 ++ l2). rewrite logged_app. split; [reflexivity|].
    rewrite !length_app. cbn [List.length]. split; [lia|].
    apply Forall_app. split; [|exact F2].
    eapply Forall_impl; [|exact F1]. intros f Hf. eexists. exact Hf.
Qed.

Lemma build_archive_with_cached_phase_witness :
  exists frs lines,
    build_fragments [ex_orphan; ex_no_keys] BU_AGENCY_TABLE_ID "archive"
      bu_agency_field_map (world_with_cache [(BU_AGENCY_TABLE_ID, JVal (PStr "222"))])
    = (Ret frs, logged (world_with_cache [(BU_AGENCY_TABLE_ID, JVal (PStr "222"))]) lines)
    /\ List.length frs + List.length lines = 2
    /\ Forall (fun f => exists table_record_id,
                 frag_body f
                 = UpdateTableRecordField table_record_id "current_phase" "222") frs.
Proof.
  apply (build_archive_with_cached_phase [ex_orphan; ex_no_keys] BU_AGENCY_TABLE_ID
           bu_agency_field_map (PStr "222")
           (world_with_cache [(BU_AGENCY_TABLE_ID, JVal (PStr "222"))]));
    reflexivity.
Defined.

(** *** From an alias back to the record *)

Section Located.
Variables (table_id action : string) (fm : field_mapping).

Ltac fragment_ok :=
  split; [first [left; reflexivity | right; reflexivity] | cbn; auto].

Ltac located E :=
  injection E as <- _;
  repeat first [apply Forall_nil | apply Forall_cons; [fragment_ok|]].

Lemma build_record_located (i : nat) (r : record) (w : world) :
  forall fs w', build_record table_id action fm i r w = (Ret fs, w') ->
                Forall (fragment_of action fm i r) fs.
Proof.
  intros fs w'. unfold build_record.
  destruct (action =? "create")%string.
  { unfold build_create. destruct (create_skipped (keys fm) r); cbn; intros E;
      located E. }
  destruct (action =? "update")%string.
  { unfold build_update.
    destruct (negb (truthy (rget r "pipefy_record_id")));
      [cbn; intros E; located E|].
    rewrite dict_set_not_nil. cbn [negb orb].
    match goal with |- context [eq_str ?a ?b] =>
      destruct (negb (is_empty (title_of r)) && negb (eq_str a b)) end;
      cbn; intros E; located E. }
  destruct (action =? "archive")%string; [|cbn; intros E; located E].
  unfold build_archive.
  destruct (negb (truthy (rget r "pipefy_record_id"))); [cbn; intros E; located E|].
  unfold bind at 1.
  destruct (get_done_phase_id table_id w) as [[d|e] w1]; [|discriminate].
  destruct (json_truthy d).
  - destruct d; cbn; intros E; try discriminate E. located E.
  - cbn. intros E. located E.
Qed.

Lemma build_from_located (records : list record) :
  forall i w frs w',
    build_from table_id action fm i records w = (Ret frs, w') ->
    Forall (fun f => exists j r, nth_error records j = Some r
                                 /\ fragment_of action fm (i + j) r f) frs.
Proof.
  induction records as [|r rest IH]; intros i w frs w'.
  - cbn. intros E. injection E as <- _. constructor.
  - cbn [build_from]. unfold bind at 1.
    destruct (build_record table_id action fm i r w) as [[fs|e] w1] eqn:Er; [|discriminate].
    unfold bind at 1.
    destruct (build_from table_id action fm (S i) rest w1) as [[more|e] w2] eqn:Em;
      [|discriminate].
    cbn. intros E. injection E as <- _. apply Forall_app. split.
    + eapply Forall_impl; [|exact (build_record_located _ _ _ _ _ Er)].
      intros f Hf. exists 0, r. rewrite Nat.add_0_r. split; [reflexivity|exact Hf].
    + eapply Forall_impl; [|exact (IH _ _ _ _ Em)].
      intros f (j & r' & Hn & Hf). exists (S j), r'.
      rewrite Nat.add_succ_r. split; [exact Hn|exact Hf].
Qed.

End Located.

(** X13: every fragment of a build has the alias of a position of the input
    list, with the title suffix or without, and acts on the record at that
    position: it names the id of that record, and the title it sets is the
    title of that record. *)
Theorem fragment_names_its_record (records : list record) (table_id action : string)
    (fm : field_mapping) (w w' : world) (frs : list fragment) :
  build_fragments records table_id action fm w = (Ret frs, w') ->
  forall f, In f frs ->
    exists i r,
      nth_error records i = Some r
      /\ (frag_alias f = mut_alias action (keys fm) i r
          \/ frag_alias f = (mut_alias action (keys fm) i r ++ "_ttl")%string)
      /\ acts_on r (frag_body f).
Proof.
  intros E f Hf. unfold build_fragments in E.
  pose proof (build_from_located table_id action fm records 0 w frs w' E) as H.
  rewrite Forall_forall in H. destruct (H f Hf) as (j & r & Hn & Ha & Hb).
  exists j, r. auto.
Qed.

Lemma fragment_names_its_record_witness :
  exists i r,
    nth_error [ex_chase_bu; ex_update_data] i = Some r
    /\ (("mut_update_1_6_12_ttl" : string) = mut_alias "update" ["config_id"; "business_unit_id"] i r
        \/ ("mut_update_1_6_12_ttl" : string)
           = (mut_alias "update" ["config_id"; "business_unit_id"] i r ++ "_ttl")%string)
    /\ acts_on r (UpdateTableRecord "900" "Brand Team").
Proof.
  refine (fragment_names_its_record [ex_chase_bu; ex_update_data] BU_AGENCY_TABLE_ID
            "update" bu_agency_field_map (world_with_cache [])
            (snd (build_fragments [ex_chase_bu; ex_update_data] BU_AGENCY_TABLE_ID
                    "update" bu_agency_field_map (world_with_cache [])))
            _ _
            {| frag_alias := "mut_update_1_6_12_ttl";
               frag_body := UpdateTableRecord "900" "Brand Team" |} _).
  - vm_compute. reflexivity.
  - simpl. right. left. reflexivity.
Defined.

(* ------------------------------------------------------------------ *)
(** ** The Done phase and its cache *)
(* ------------------------------------------------------------------ *)

(** *** The Done phase *)

(** X14: the search for the Done phase returns the [id] of the first phase
    whose name, stripped and in lower case, is [done], every phase before it
    being an object with another name; it returns [None] when every phase is
    an object with another name. *)
Theorem find_done_phase_first (phases : list json) (v : json) :
  find_done_phase phases = Ret v ->
  (exists before phase after n,
      phases = before ++ JDict phase :: after
      /\ Forall (fun p => exists m, named p m /\ lower (strip m) <> "done") before
      /\ named (JDict phase) n /\ lower (strip n) = "done"
      /\ v = dict_get_default phase "id" JNone)
  \/ (v = JNone
      /\ Forall (fun p => exists m, named p m /\ lower (strip m) <> "done") phases).
Proof.
  revert v. induction phases as [|p rest IH]; intros v E; simpl in E.
  - injection E as <-. right. split; [reflexivity|constructor].
  - destruct p as [x|l|d]; simpl in E; try discriminate.
    destruct (dict_get_default d "name" (JVal (PStr ""))) as [[| |z|n]|l|d'] eqn:En;
      simpl in E; try discriminate.
    destruct (String.eqb_spec (lower (strip n)) "done") as [Hd|Hd].
    + injection E as <-. left. exists [], d, rest, n.
      repeat split; [constructor | exists d; auto | exact Hd].
    + assert (Hp : exists m, named (JDict d) m /\ lower (strip m) <> "done").
      { exists n. split; [exists d; auto | exact Hd]. }
      destruct (IH v E) as [(before & phase & after & m & -> & Hb & Hn & Hm & Hv) | [-> Hall]].
      * left. exists (JDict d :: before), phase, after, m.
        repeat split; auto.
      * right. split; [reflexivity|]. constructor; assumption.
Qed.

Lemma find_done_phase_first_witness :
  (exists before phase after n,
      [JDict [("id", JVal (PStr "111")); ("name", JVal (PStr "Backlog"))];
       JDict [("id", JVal (PStr "222")); ("name", JVal (PStr " DONE "))];
       JDict [("id", JVal (PStr "333")); ("name", JVal (PStr "done"))]]
      = before ++ JDict phase :: after
      /\ Forall (fun p => exists m, named p m /\ lower (strip m) <> "done") before
      /\ named (JDict phase) n /\ lower (strip n) = "done"
      /\ JVal (PStr "222") = dict_get_default phase "id" JNone)
  \/ (JVal (PStr "222") = JNone
      /\ Forall (fun p => exists m, named p m /\ lower (strip m) <> "done")
           [JDict [("id", JVal (PStr "111")); ("name", JVal (PStr "Backlog"))];
            JDict [("id", JVal (PStr "222")); ("name", JVal (PStr " DONE "))];
            JDict [("id", JVal (PStr "333")); ("name", JVal (PStr "done"))]]).
Proof.
  apply (find_done_phase_first
           [JDict [("id", JVal (PStr "111")); ("name", JVal (PStr "Backlog"))];
            JDict [("id", JVal (PStr "222")); ("name", JVal (PStr " DONE "))];
            JDict [("id", JVal (PStr "333")); ("name", JVal (PStr "done"))]]
           (JVal (PStr "222"))).
  reflexivity.
Defined.

(** The world after [DONE_PHASE_CACHE[table_id] = v]. *)
Lemma cache_store_world (table_id : string) (v : json) (w : world) :
  DONE_PHASE_CACHE (snd (cache_store table_id v w))
  = dict_set (DONE_PHASE_CACHE w) table_id v
  /\ pipefy_posts (snd (cache_store table_id v w)) = pipefy_posts w
  /\ trace (snd (cache_store table_id v w)) = trace w.
Proof. repeat split. Qed.

Lemma pipefy_post_outcome_count (w : world) :
  1 <= snd (pipefy_post_outcome w) <= 3.
Proof. apply pipefy_post_spec_count. Qed.

(** A call that finds no entry in the cache: the request, then what is made
    of the answer. *)
Lemma get_done_phase_id_uncached (table_id : string) (w : world) :
  dict_get (DONE_PHASE_CACHE w) table_id = None ->
  exists w2,
    pipefy_post (phases_payload table_id) (log_to w (LogFetchingDonePhase table_id))
    = (fst (pipefy_post_outcome w), w2)
    /\ DONE_PHASE_CACHE w2 = DONE_PHASE_CACHE w
    /\ pipefy_posts w2 = pipefy_posts w + snd (pipefy_post_outcome w)
    /\ pipefy_net w2 = pipefy_net w
    /\ get_done_phase_id table_id w
       = match fst (pipefy_post_outcome w) with
         | Raise e => (Raise e, w2)
         | Ret response =>
             match response_failed response with
             | Raise e => (Raise e, w2)
             | Ret true =>
                 (Ret JNone, log_to w2 (LogFetchPhasesFailed table_id response))
             | Ret false =>
                 match phases_of response with
                 | Raise e => (Raise e, w2)
                 | Ret phase_list =>
                     match find_done_phase phase_list with
                     | Raise e => (Raise e, w2)
                     | Ret done_phase =>
                         if json_truthy done_phase
                         then (Ret done_phase,
                               snd (cache_store table_id done_phase
                                      (log_to w2 (LogFoundDonePhase table_id done_phase))))
                         else match phase_names phase_list with
                              | Raise e => (Raise e, w2)
                              | Ret names =>
                                  (Ret done_phase,
                                   snd (cache_store table_id JNone
                                          (log_to w2 (LogNoDonePhase table_id names))))
                              end
                     end
                 end
             end
         end.
Proof.
  intros Hc.
  destruct (pipefy_post_run (phases_payload table_id)
              (log_to w (LogFetchingDonePhase table_id)))
    as (w2 & d & E & _ & _ & _ & Hnet & Hp & Hk).
  exists w2. split; [exact E|]. split; [exact Hk|]. split; [exact Hp|].
  split; [exact Hnet|].
  unfold get_done_phase_id. unfold bind at 1. unfold cache_lookup. rewrite Hc.
  unfold bind at 1. change (log (LogFetchingDonePhase table_id) w)
    with (Ret tt, log_to w (LogFetchingDonePhase table_id)).
  cbv iota. unfold bind at 1.
  change {| query := phases_query; variables := Some [("table_id", PStr table_id)] |}
    with (phases_payload table_id).
  rewrite E. cbv iota zeta.
  change (pipefy_post_spec _ _ _) with (pipefy_post_outcome w).
  destruct (fst (pipefy_post_outcome w)) as [response|e]; [|reflexivity].
  unfold bind at 1. unfold lift at 1.
  destruct (response_failed response) as [[|]|e]; [reflexivity| |reflexivity].
  unfold phases_of, and_then.
  unfold bind at 1. unfold lift at 1.
  destruct (response_data response) as [data|e]; [|reflexivity].
  unfold bind at 1. unfold lift at 1.
  destruct (json_get data "table" (JDict [])) as [table|e]; [|reflexivity].
  unfold bind at 1. unfold lift at 1.
  destruct (json_get table "phases" (JList [])) as [phases|e]; [|reflexivity].
  unfold bind at 1. unfold lift at 1.
  destruct (json_iter phases) as [phase_list|e]; [|reflexivity].
  unfold bind at 1. unfold lift at 1.
  destruct (find_done_phase phase_list) as [done_phase|e]; [|reflexivity].
  destruct (json_truthy done_phase); [reflexivity|].
  unfold bind at 1. unfold bind at 1. unfold lift at 1.
  destruct (phase_names phase_list) as [names|e]; reflexivity.
Qed.

(** X15: [get_done_phase_id] never changes the cache entry of another table,
    and when the table has an entry it returns the entry and does nothing
    else. *)
Theorem done_phase_cache_is_stable (table_id : string) (w : world) :
  let w' := snd (get_done_phase_id table_id w) in
  (forall t, t <> table_id ->
             dict_get (DONE_PHASE_CACHE w') t = dict_get (DONE_PHASE_CACHE w) t)
  /\ (forall c, dict_get (DONE_PHASE_CACHE w) table_id = Some c ->
                get_done_phase_id table_id w = (Ret c, w)).
Proof.
  cbv zeta. split; [|intros c Hc; now apply get_done_phase_id_cached].
  intros t Ht.
  destruct (dict_get (DONE_PHASE_CACHE w) table_id) as [c|] eqn:Hc.
  { now rewrite (get_done_phase_id_cached _ _ _ Hc). }
  destruct (get_done_phase_id_uncached table_id w Hc) as (w2 & _ & Hk & _ & _ & ->).
  destruct (fst (pipefy_post_outcome w)) as [response|e]; [|cbn; now rewrite Hk].
  destruct (response_failed response) as [[|]|e]; try (cbn; now rewrite Hk).
  destruct (phases_of _) as [phase_list|e]; [|cbn; now rewrite Hk].
  destruct (find_done_phase phase_list) as [done_phase|e]; [|cbn; now rewrite Hk].
  destruct (json_truthy done_phase).
  - cbn. rewrite dict_get_set_other by congruence. now rewrite Hk.
  - destruct (phase_names phase_list); cbn; [|now rewrite Hk].
    rewrite dict_get_set_other by congruence. now rewrite Hk.
Qed.

(** X16: after a call of [get_done_phase_id] that returned, a true result is
    in the cache; whatever entry the table has then is what the next call
    returns, with no effect, and has the truth value of the result; and the
    table has no entry only when the request failed, in which case the result
    is [None] and at least one request was sent. *)
Theorem done_phase_is_remembered (table_id : string) (w w1 : world) (v : json) :
  get_done_phase_id table_id w = (Ret v, w1) ->
  (json_truthy v = true -> dict_get (DONE_PHASE_CACHE w1) table_id = Some v)
  /\ (forall c, dict_get (DONE_PHASE_CACHE w1) table_id = Some c ->
                json_truthy c = json_truthy v
                /\ get_done_phase_id table_id w1 = (Ret c, w1))
  /\ (dict_get (DONE_PHASE_CACHE w1) table_id = None ->
      v = JNone
      /\ and_then (fst (pipefy_post_outcome w)) response_failed = Ret true
      /\ pipefy_posts w < pipefy_posts w1).
Proof.
  intros E.
  destruct (dict_get (DONE_PHASE_CACHE w) table_id) as [c|] eqn:Hc.
  { rewrite (get_done_phase_id_cached _ _ _ Hc) in E. injection E as <- <-.
    split; [intros _; exact Hc|]. split.
    - intros c' Hc'. rewrite Hc in Hc'. injection Hc' as <-.
      split; [reflexivity|now apply get_done_phase_id_cached].
    - rewrite Hc. discriminate. }
  destruct (get_done_phase_id_uncached table_id w Hc) as (w2 & _ & Hk & Hp & _ & R).
  rewrite R in E. clear R.
  pose proof (pipefy_post_outcome_count w) as Hn.
  destruct (fst (pipefy_post_outcome w)) as [response|e]; [|discriminate].
  cbn [and_then].
  destruct (response_failed response) as [[|]|e] eqn:Hf; [| |discriminate].
  { injection E as <- <-. cbn. rewrite Hk, Hc.
    split; [discriminate|]. split; [discriminate|].
    intros _. repeat split. rewrite Hp. lia. }
  destruct (phases_of _) as [phase_list|e]; [|discriminate].
  destruct (find_done_phase phase_list) as [done_phase|e]; [|discriminate].
  destruct (json_truthy done_phase) eqn:Ht.
  - injection E as <- <-. cbn. rewrite dict_get_set_same.
    split; [reflexivity|]. split; [|discriminate].
    intros c Hc'. injection Hc' as <-. split; [reflexivity|].
    first [reflexivity | apply get_done_phase_id_cached; cbn; apply dict_get_set_same].
  - destruct (phase_names phase_list) as [names|e]; [|discriminate].
    injection E as <- <-. cbn. rewrite dict_get_set_same.
    split; [rewrite Ht; discriminate|]. split; [|discriminate].
    intros c Hc'. injection Hc' as <-. split; [now rewrite Ht|].
    first [reflexivity | apply get_done_phase_id_cached; cbn; apply dict_get_set_same].
Qed.

Lemma done_phase_is_remembered_witness :
  let w := world_answering (PostJson (JDict ex_phases_body)) GetTimeout in
  let w1 := snd (get_done_phase_id BU_AGENCY_TABLE_ID w) in
  (json_truthy (JVal (PStr "222")) = true ->
   dict_get (DONE_PHASE_CACHE w1) BU_AGENCY_TABLE_ID = Some (JVal (PStr "222")))
  /\ (forall c, dict_get (DONE_PHASE_CACHE w1) BU_AGENCY_TABLE_ID = Some c ->
                json_truthy c = json_truthy (JVal (PStr "222"))
                /\ get_done_phase_id BU_AGENCY_TABLE_ID w1 = (Ret c, w1))
  /\ (dict_get (DONE_PHASE_CACHE w1) BU_AGENCY_TABLE_ID = None ->
      JVal (PStr "222") = JNone
      /\ and_then (fst (pipefy_post_outcome w)) response_failed = Ret true
      /\ pipefy_posts w < pipefy_posts w1).
Proof.
  intros w w1.
  apply (done_phase_is_remembered BU_AGENCY_TABLE_ID w w1 (JVal (PStr "222"))).
  vm_compute. reflexivity.
Defined.

(* ------------------------------------------------------------------ *)
(** ** Requests sent *)
(* ------------------------------------------------------------------ *)

(** *** How many requests *)

Lemma posts_within_weaken {A} (k k' : nat) (m : M A) :
  k <= k' -> posts_within k m -> posts_within k' m.
Proof. intros Hk H w. destruct (H w). split; lia. Qed.

Lemma posts_within_ret {A} (a : A) : posts_within 0 (ret a).
Proof. intros w. cbn. lia. Qed.

Lemma posts_within_lift {A} (o : outcome A) : posts_within 0 (lift o).
Proof. intros w. cbn. lia. Qed.

Lemma posts_within_emit (e : event) : posts_within 0 (emit e).
Proof. intros w. cbn. lia. Qed.

Lemma posts_within_cache_store (t : string) (v : json) : posts_within 0 (cache_store t v).
Proof. intros w. cbn. lia. Qed.

Lemma posts_within_cache_lookup (t : string) : posts_within 0 (cache_lookup t).
Proof. intros w. cbn. lia. Qed.

Lemma posts_within_bind {A B} (k1 k2 : nat) (m : M A) (f : A -> M B) :
  posts_within k1 m -> (forall a, posts_within k2 (f a)) ->
  posts_within (k1 + k2) (bind m f).
Proof.
  intros Hm Hf w. unfold bind. specialize (Hm w).
  destruct (m w) as [[a|e] w1]; cbn [snd] in *.
  - specialize (Hf a w1). lia.
  - lia.
Qed.

Lemma posts_within_then {A B} (k : nat) (m : M A) (f : A -> M B) :
  posts_within 0 m -> (forall a, posts_within k (f a)) -> posts_within k (bind m f).
Proof. intros Hm Hf. change k with (0 + k). now apply posts_within_bind. Qed.

Lemma posts_within_pipefy_post (p : payload) : posts_within 3 (pipefy_post p).
Proof.
  intros w. destruct (pipefy_post_run p w) as (w' & d & E & _ & _ & _ & _ & Hp & _).
  rewrite E. cbn [snd]. rewrite Hp.
  pose proof (pipefy_post_outcome_count w) as Hn. unfold pipefy_post_outcome in Hn. lia.
Qed.

Ltac quiet :=
  repeat match goal with
    | |- posts_within _ (ret _) => apply posts_within_ret
    | |- posts_within _ (lift _) => apply posts_within_lift
    | |- posts_within _ (emit _) => apply posts_within_emit
    | |- posts_within _ (cache_store _ _) => apply posts_within_cache_store
    | |- posts_within _ (cache_lookup _) => apply posts_within_cache_lookup
    | |- posts_within _ (bind _ _) => apply posts_within_then; [|intros ?]
    | |- posts_within _ (if ?b then _ else _) => destruct b
    | |- posts_within _ (match ?x with _ => _ end) => destruct x
    end.

Lemma posts_within_log_errors (errors : list json) : posts_within 0 (log_errors errors).
Proof.
  induction errors as [|e rest IH]; [apply posts_within_ret|].
  cbn [log_errors]. unfold log. quiet; exact IH.
Qed.

Lemma posts_within_batch_verdict (mutations : list string) (i : nat) (b : bool)
    (response : json) :
  posts_within 0 (batch_verdict mutations i b response).
Proof.
  unfold batch_verdict, log, sleep. quiet; apply posts_within_log_errors.
Qed.

Lemma posts_within_execute_batch (mutations : list string) (i : nat) (b : bool) :
  posts_within 3 (execute_batch mutations i b).
Proof.
  unfold execute_batch. change 3 with (3 + 0). apply posts_within_bind.
  - unfold batch_request, log. quiet; apply posts_within_pipefy_post.
  - intros response. apply posts_within_batch_verdict.
Qed.

Lemma posts_within_execute_batches (mutations : list string) (starts : list nat) :
  forall b, posts_within (3 * List.length starts) (execute_batches mutations starts b).
Proof.
  induction starts as [|i rest IH]; intros b; [apply posts_within_ret|].
  cbn [execute_batches List.length].
  replace (3 * S (List.length rest)) with (3 + 3 * List.length rest) by lia.
  apply posts_within_bind; [apply posts_within_execute_batch|]. intros ok. apply IH.
Qed.

(** X17: [execute_pipefy_mutations] sends at most three requests for each
    batch of fifty mutations, whatever the answers and also when it ends with
    an exception. *)
Theorem execute_request_budget (mutations : list string) (w : world) :
  let w' := snd (execute_pipefy_mutations mutations w) in
  pipefy_posts w <= pipefy_posts w'
  /\ pipefy_posts w' <= pipefy_posts w + 3 * ((List.length mutations + 49) / 50).
Proof.
  cbv zeta.
  assert (H : posts_within (3 * ((List.length mutations + 49) / 50))
                (execute_pipefy_mutations mutations)).
  { unfold execute_pipefy_mutations, log.
    destruct (is_nil mutations).
    - eapply posts_within_weaken; [apply Nat.le_0_l|]. quiet.
    - replace (3 * ((List.length mutations + 49) / 50))
        with (3 * List.length (py_range 0 (List.length mutations) batch_size) + 0).
      + apply posts_within_bind; [apply posts_within_execute_batches|].
        intros ok. quiet.
      + rewrite Nat.add_0_r. f_equal.
        pose proof (batches_length mutations) as L. unfold batches in L.
        rewrite length_map in L. rewrite L. unfold batch_size. f_equal. lia. }
  apply H.
Qed.

Lemma posts_within_get_done_phase_id (table_id : string) :
  posts_within 3 (get_done_phase_id table_id).
Proof.
  unfold get_done_phase_id, log.
  apply posts_within_then; [apply posts_within_cache_lookup|]. intros [c|].
  - eapply posts_within_weaken; [apply Nat.le_0_l|]. apply posts_within_ret.
  - apply posts_within_then; [apply posts_within_emit|]. intros _.
    change 3 with (3 + 0). apply posts_within_bind; [apply posts_within_pipefy_post|].
    intros response. quiet.
Qed.

(** X18: a build sends at most three requests for each record, whatever the
    action and the answers. *)
Theorem build_request_budget (records : list record) (table_id action : string)
    (fm : field_mapping) (w : world) :
  let w' := snd (build_pipefy_mutations records table_id action fm w) in
  pipefy_posts w <= pipefy_posts w'
  /\ pipefy_posts w' <= pipefy_posts w + 3 * List.length records.
Proof.
  cbv zeta.
  assert (Hr : forall i r, posts_within 3 (build_record table_id action fm i r)).
  { intros i r. unfold build_record, build_create, build_update, build_archive, log.
    destruct (action =? "create")%string;
      [eapply posts_within_weaken; [apply Nat.le_0_l|]; quiet|].
    destruct (action =? "update")%string;
      [eapply posts_within_weaken; [apply Nat.le_0_l|]; quiet|].
    destruct (action =? "archive")%string;
      [|eapply posts_within_weaken; [apply Nat.le_0_l|]; quiet].
    destruct (negb (truthy (rget r "pipefy_record_id")));
      [eapply posts_within_weaken; [apply Nat.le_0_l|]; quiet|].
    change 3 with (3 + 0). apply posts_within_bind;
      [apply posts_within_get_done_phase_id|]. intros d. quiet. }
  assert (H : forall i, posts_within (3 * List.length records)
                          (build_from table_id action fm i records)).
  { induction records as [|r rest IH]; intros i; [apply posts_within_ret|].
    cbn [build_from List.length].
    replace (3 * S (List.length rest)) with (3 + (3 * List.length rest + 0)) by lia.
    apply posts_within_bind; [apply Hr|]. intros fs.
    apply posts_within_bind; [apply IH|]. intros more. apply posts_within_ret. }
  unfold build_pipefy_mutations, build_fragments.
  assert (H' : posts_within (3 * List.length records + 0)
                 (fs <- build_from table_id action fm 0 records ;;
                  ret (map render_fragment fs))).
  { apply posts_within_bind; [apply H|]. intros fs. apply posts_within_ret. }
  rewrite Nat.add_0_r in H'. apply H'.
Qed.

(* ------------------------------------------------------------------ *)
(** ** Whole runs of the diff *)
(* ------------------------------------------------------------------ *)

(** *** A run with nothing to do *)

Lemma classify_sources_all_unchanged (fm : field_mapping) (pipefy_map items : dict record) :
  (forall k r, In (k, r) items ->
               exists pipefy_record,
                 dict_get pipefy_map k = Some pipefy_record
                 /\ needs_update fm r pipefy_record = false) ->
  classify_sources fm pipefy_map items = Ret ([], []).
Proof.
  induction items as [|[k r] items IH]; intros H; [reflexivity|].
  cbn [classify_sources]. destruct (H k r (or_introl eq_refl)) as (pr & Hg & Hn).
  unfold classify_source. rewrite Hg, Hn.
  rewrite IH; [reflexivity|]. intros k' r' Hin. apply H. now right.
Qed.

Lemma archive_list_nil (chase_map pipefy_map : dict record) :
  (forall k r, In (k, r) pipefy_map -> classify_destination chase_map k r = false) ->
  archive_list chase_map pipefy_map = [].
Proof.
  unfold archive_list. induction pipefy_map as [|[k r] pm IH]; intros H; [reflexivity|].
  cbn [filter fst snd]. rewrite (H k r (or_introl eq_refl)).
  apply IH. intros k' r' Hin. apply H. now right.
Qed.

(** X19: when every source record has under its key a destination record that
    needs no update, and every destination record has its key in the source or
    is Archived, [sync_table] returns [True] and only writes to the log: the
    start, the counts 0, 0 and 0, three times that there is nothing to
    execute, and the end. *)
Theorem sync_of_synchronized_tables_is_a_no_op (chase_data_list pipefy_records : list record)
    (pipefy_table_id : string) (fm : field_mapping) (chase_map pipefy_map : dict record)
    (w : world) :
  key_map pipefy_table_id fm false chase_data_list [] = Ret chase_map ->
  key_map pipefy_table_id fm true pipefy_records [] = Ret pipefy_map ->
  (forall k chase_record, In (k, chase_record) chase_map ->
     exists pipefy_record,
       dict_get pipefy_map k = Some pipefy_record
       /\ needs_update fm chase_record pipefy_record = false) ->
  (forall k pipefy_record, In (k, pipefy_record) pipefy_map ->
     dict_mem k chase_map = true
     \/ eq_str (rget pipefy_record "status") "Archived" = true) ->
  sync_table chase_data_list (Some pipefy_records) pipefy_table_id fm w
  = (Ret true,
     logged w [LogSyncStart pipefy_table_id;
               LogSyncResults pipefy_table_id 0 0 0;
               LogNoMutations; LogNoMutations; LogNoMutations;
               LogSyncFinished pipefy_table_id]).
Proof.
  intros Hc Hp Hsrc Hdst. unfold sync_table.
  unfold bind at 1. cbn [log emit]. unfold bind at 1. unfold lift at 1. rewrite Hc.
  unfold bind at 1. unfold lift at 1. rewrite Hp.
  unfold bind at 1. unfold lift at 1.
  rewrite (classify_sources_all_unchanged fm pipefy_map chase_map Hsrc).
  rewrite archive_list_nil.
  - reflexivity.
  - intros k r Hin. unfold classify_destination.
    destruct (Hdst k r Hin) as [-> | ->]; [reflexivity|apply andb_false_r].
Qed.

Lemma sync_of_synchronized_tables_is_a_no_op_witness :
  sync_table [ex_chase_bu] (Some [ex_pipefy_bu; ex_pipefy_bu]) BU_AGENCY_TABLE_ID
    bu_agency_field_map (world_with_cache [])
  = (Ret true,
     logged (world_with_cache [])
       [LogSyncStart BU_AGENCY_TABLE_ID;
        LogSyncResults BU_AGENCY_TABLE_ID 0 0 0;
        LogNoMutations; LogNoMutations; LogNoMutations;
        LogSyncFinished BU_AGENCY_TABLE_ID]).
Proof.
  apply (sync_of_synchronized_tables_is_a_no_op [ex_chase_bu] [ex_pipefy_bu; ex_pipefy_bu]
           BU_AGENCY_TABLE_ID bu_agency_field_map
           [("6-12", ex_chase_bu)] [("6-12", ex_pipefy_bu)] (world_with_cache [])).
  - reflexivity.
  - reflexivity.
  - intros k r [E|[]]. injection E as <- <-. exists ex_pipefy_bu. split; reflexivity.
  - intros k r [E|[]]. injection E as <- <-. left. reflexivity.
Defined.

(** *** Archiving while the phase lookup fails *)

Lemma pipefy_post_outcome_timeouts (w : world) :
  (forall n, pipefy_net w n = PostTimeout) ->
  pipefy_post_outcome w = (Ret (JDict pipefy_exhausted), 3).
Proof. intros H. unfold pipefy_post_outcome. now rewrite !H. Qed.

Lemma build_archive_failed_lookup (table_id : string) (fm : field_mapping) (i : nat)
    (r : record) (w : world) :
  dict_get (DONE_PHASE_CACHE w) table_id = None ->
  (forall n, pipefy_net w n = PostTimeout) ->
  truthy (rget r "pipefy_record_id") = true ->
  exists w',
    build_archive table_id "archive" fm i r w
    = (Ret [ {| frag_alias := mut_alias "archive" (keys fm) i r;
                frag_body := UpdateFieldsValues (py_str (rget r "pipefy_record_id"))
                                                [("status", "Archived")] |} ], w')
    /\ pipefy_posts w' = pipefy_posts w + 3
    /\ pipefy_net w' = pipefy_net w
    /\ DONE_PHASE_CACHE w' = DONE_PHASE_CACHE w.
Proof.
  intros Hc Hnet Hid. unfold build_archive. rewrite Hid. cbn [negb].
  unfold bind at 1.
  destruct (get_done_phase_id_uncached table_id w Hc) as (w2 & _ & Hk & Hp & Hn & ->).
  rewrite (pipefy_post_outcome_timeouts w Hnet) in *. cbn [fst snd] in *.
  change (response_failed (JDict pipefy_exhausted)) with (@Ret bool true). cbv iota.
  change (json_truthy JNone) with false. cbv iota.
  eexists. split; [reflexivity|]. cbn. auto.
Qed.

(** X20: while Pipefy does not answer and the cache has no entry for the
    table, the build of archive repeats the phase lookup for every record that
    has an id: three requests each. Every such record gets the fallback
    fragment that sets the status to Archived, and the cache stays as it was.
    *)
Theorem archive_build_repeats_failed_lookup (records : list record) (table_id : string)
    (fm : field_mapping) (w : world) :
  dict_get (DONE_PHASE_CACHE w) table_id = None ->
  (forall n, pipefy_net w n = PostTimeout) ->
  exists frs w',
    build_fragments records table_id "archive" fm w = (Ret frs, w')
    /\ List.length frs
       = List.length (filter (fun r => truthy (rget r "pipefy_record_id")) records)
    /\ Forall (fun f => exists nodeId,
                 frag_body f = UpdateFieldsValues nodeId [("status", "Archived")]) frs
    /\ pipefy_posts w' = pipefy_posts w + 3 * List.length frs
    /\ DONE_PHASE_CACHE w' = DONE_PHASE_CACHE w.
Proof.
  intros Hc Hnet. unfold build_fragments.
  assert (H : forall i w,
             dict_get (DONE_PHASE_CACHE w) table_id = None ->
             (forall n, pipefy_net w n = PostTimeout) ->
             exists frs w',
               build_from table_id "archive" fm i records w = (Ret frs, w')
               /\ List.length frs
                  = List.length (filter (fun r => truthy (rget r "pipefy_record_id"))
                                        records)
               /\ Forall (fun f => exists nodeId,
                            frag_body f
                            = UpdateFieldsValues nodeId [("status", "Archived")]) frs
               /\ pipefy_posts w' = pipefy_posts w + 3 * List.length frs
               /\ DONE_PHASE_CACHE w' = DONE_PHASE_CACHE w).
  { clear w Hc Hnet. induction records as [|r rest IH]; intros i w Hc Hnet.
    - exists [], w. cbn. repeat split; [constructor|lia].
    - cbn [build_from]. unfold bind at 1.
      change (build_record table_id "archive" fm i r)
        with (build_archive table_id "archive" fm i r).
      cbn [filter]. destruct (truthy (rget r "pipefy_record_id")) eqn:Hid.
      + destruct (build_archive_failed_lookup table_id fm i r w Hc Hnet Hid)
          as (w1 & -> & P1 & N1 & C1).
        unfold bind at 1.
        destruct (IH (S i) w1) as (more & w' & -> & L & F & P & C).
        { now rewrite C1. }
        { intros n. now rewrite N1. }
        eexists _, w'. split; [reflexivity|].
        cbn [app List.length]. split; [now rewrite L|]. split.
        { constructor; [eexists; reflexivity|exact F]. }
        rewrite P, C, P1, C1. split; [lia|reflexivity].
      + assert (Hs : build_archive table_id "archive" fm i r w
                     = (Ret [], log_to w LogSkipArchiveNoId)).
        { unfold build_archive. rewrite Hid. reflexivity. }
        rewrite Hs. unfold bind at 1.
        destruct (IH (S i) (log_to w LogSkipArchiveNoId))
          as (more & w' & -> & L & F & P & C); [exact Hc|exact Hnet|].
        eexists _, w'. split; [reflexivity|].
        cbn [app]. repeat split; assumption. }
  exact (H 0 w Hc Hnet).
Qed.

Lemma archive_build_repeats_failed_lookup_witness :
  exists frs w',
    build_fragments [ex_orphan; ex_no_keys; ex_pipefy_bu] BU_AGENCY_TABLE_ID "archive"
      bu_agency_field_map (world_with_cache [])
    = (Ret frs, w')
    /\ List.length frs = 2
    /\ Forall (fun f => exists nodeId,
                 frag_body f = UpdateFieldsValues nodeId [("status", "Archived")]) frs
    /\ pipefy_posts w' = 0 + 3 * List.length frs
    /\ DONE_PHASE_CACHE w' = [].
Proof.
  apply (archive_build_repeats_failed_lookup [ex_orphan; ex_no_keys; ex_pipefy_bu]
           BU_AGENCY_TABLE_ID bu_agency_field_map (world_with_cache []));
    reflexivity.
Defined.

(* ------------------------------------------------------------------ *)
(** ** get_pipefy_table_records *)
(* ------------------------------------------------------------------ *)

(** *** Fetching the destination table *)

Lemma page_variables_scalar (table_id : string) (cursor : pyval) :
  page_variables table_id (JVal cursor)
  = Ret (if truthy cursor
         then [("table_id", PStr table_id); ("cursor", cursor)]
         else [("table_id", PStr table_id)]).
Proof. unfold page_variables. cbn [json_truthy]. now destruct (truthy cursor). Qed.

Lemma pipefy_post_answered (p : payload) (body : dict json) (w : world) :
  pipefy_net w (pipefy_posts w) = PostJson (JDict body) ->
  response_failed (JDict body) = Ret false ->
  exists w' d,
    pipefy_post p w = (Ret (JDict body), w')
    /\ trace w' = trace w ++ d
    /\ posts_in d = [p]
    /\ sleeps_in d = []
    /\ pipefy_net w' = pipefy_net w
    /\ pipefy_posts w' = S (pipefy_posts w)
    /\ DONE_PHASE_CACHE w' = DONE_PHASE_CACHE w.
Proof.
  intros Hn Hf.
  destruct (pipefy_post_run p w) as (w' & d & E & Ht & Hp & Hs & Hnet & Hc & Hk).
  cbv zeta in *. rewrite Hn in *.
  assert (He : dict_mem "errors" body = false).
  { unfold response_failed in Hf. cbn [json_truthy json_has] in Hf.
    destruct (negb (negb (is_nil body))); [discriminate|]. now injection Hf. }
  unfold pipefy_post_spec in *. cbn [post_decides] in *. rewrite He in *.
  cbn [fst snd] in *.
  exists w', d. repeat split; try assumption. lia.
Qed.

Lemma fetch_turn (turns : nat) (table_id : string) (all_records : list pipefy_record)
    (cursor : pyval) (page_count : nat) (s : run_state) (p : page) (has_next : bool) :
  serves_page (pipefy_net (outside s)) (pipefy_posts (outside s)) p has_next ->
  exists s1 d,
    trace (outside s1) = trace (outside s) ++ d
    /\ posts_in d = [page_request table_id cursor]
    /\ sleeps_in d = (if has_next then [1] else [])
    /\ pipefy_net (outside s1) = pipefy_net (outside s)
    /\ pipefy_posts (outside s1) = S (pipefy_posts (outside s))
    /\ DONE_PHASE_CACHE (outside s1) = DONE_PHASE_CACHE (outside s)
    /\ fetch_pages (S turns) table_id all_records (JVal cursor) page_count s
       = if has_next
         then fetch_pages turns table_id (all_records ++ page_records p)
                (JVal (page_cursor p)) (page_count + 1) s1
         else (Value (Some (all_records ++ page_records p)), s1).
Proof.
  intros (Hn & Hf & more & Hr & Hm).
  cbn [fetch_pages]. unfold rbind at 1. cbn [rlog]. unfold rbind at 1. unfold rlift at 1.
  rewrite page_variables_scalar. cbn [of_outcome].
  change {| query := records_query;
            variables := Some (if truthy cursor
                               then [("table_id", PStr table_id); ("cursor", cursor)]
                               else [("table_id", PStr table_id)]) |}
    with (page_request table_id cursor).
  unfold rbind at 1. unfold in_world at 1. cbn [outside run_log].
  destruct (pipefy_post_answered (page_request table_id cursor) (page_body p) (outside s)
              Hn Hf) as (w' & d & E & Ht & Hp & Hs & Hnet & Hc & Hk).
  rewrite E. cbn [of_outcome]. unfold rbind at 1. unfold rlift at 1. rewrite Hf.
  cbn [of_outcome]. unfold rbind at 1. unfold rlift at 1.
  rewrite Hr. cbn [of_outcome fst snd]. unfold rbind at 1. cbn [rlog]. rewrite Hm.
  destruct has_next.
  - unfold rbind at 1. unfold in_world at 1. cbn [outside run_log sleep emit].
    eexists. exists (d ++ [EvSleep 1]). split; [|split; [|split; [|split; [|split; [|split]]]]].
    7: reflexivity.
    + cbn [outside trace]. now rewrite Ht, app_assoc.
    + rewrite posts_in_app, Hp. reflexivity.
    + rewrite sleeps_in_app, Hs. reflexivity.
    + exact Hnet.
    + exact Hc.
    + exact Hk.
  - unfold rbind at 1. cbn [rlog rret].
    eexists. exists d. split; [|split; [|split; [|split; [|split; [|split]]]]].
    7: reflexivity.
    all: cbn [outside]; assumption.
Qed.

Lemma last_cons_default {A} (l : list A) :
  forall a d, last (a :: l) d = last l a.
Proof.
  induction l as [|b l IH]; intros a d; [reflexivity|].
  change (last (a :: b :: l) d) with (last (b :: l) d).
  now rewrite (IH b d), (IH b a).
Qed.

Lemma fetch_pages_served (table_id : string) (pages : list page) :
  forall (turns : nat) (all_records : list pipefy_record) (cursor : pyval)
         (page_count : nat) (s : run_state),
    serves (pipefy_net (outside s)) (pipefy_posts (outside s)) pages true ->
    exists s1 d,
      trace (outside s1) = trace (outside s) ++ d
      /\ posts_in d = page_requests table_id cursor pages
      /\ sleeps_in d = repeat 1 (List.length pages)
      /\ pipefy_net (outside s1) = pipefy_net (outside s)
      /\ pipefy_posts (outside s1) = pipefy_posts (outside s) + List.length pages
      /\ DONE_PHASE_CACHE (outside s1) = DONE_PHASE_CACHE (outside s)
      /\ fetch_pages (List.length pages + turns) table_id all_records (JVal cursor)
           page_count s
         = fetch_pages turns table_id (all_records ++ flat_map page_records pages)
             (JVal (cursor_after cursor pages)) (page_count + List.length pages) s1.
Proof.
  induction pages as [|p rest IH]; intros turns acc cursor pc s H.
  - exists s, []. cbn. rewrite !app_nil_r, !Nat.add_0_r. repeat split.
  - destruct H as [Hp Hrest]. rewrite orb_true_r in Hp.
    destruct (fetch_turn (List.length rest + turns) table_id acc cursor pc s p true Hp)
      as (s1 & d1 & Ht1 & Hp1 & Hs1 & Hn1 & Hc1 & Hk1 & E1).
    rewrite <- Hn1, <- Hc1 in Hrest.
    destruct (IH turns (acc ++ page_records p) (page_cursor p) (pc + 1) s1 Hrest)
      as (s2 & d2 & Ht2 & Hp2 & Hs2 & Hn2 & Hc2 & Hk2 & E2).
    exists s2, (d1 ++ d2). split; [|split; [|split; [|split; [|split; [|split]]]]].
    + now rewrite Ht2, Ht1, app_assoc.
    + rewrite posts_in_app, Hp1, Hp2. reflexivity.
    + rewrite sleeps_in_app, Hs1, Hs2. reflexivity.
    + now rewrite Hn2.
    + rewrite Hc2, Hc1. cbn [List.length]. lia.
    + now rewrite Hk2.
    + change (List.length (p :: rest) + turns) with (S (List.length rest + turns)).
      rewrite E1, E2. cbn [flat_map List.length]. unfold cursor_after.
      cbn [map]. rewrite last_cons_default, app_assoc.
      f_equal. lia.
Qed.

Lemma fetch_pages_collects (table_id : string) (pages : list page) :
  pages <> [] ->
  forall (turns : nat) (all_records : list pipefy_record) (cursor : pyval)
         (page_count : nat) (s : run_state),
    serves (pipefy_net (outside s)) (pipefy_posts (outside s)) pages false ->
    List.length pages <= turns ->
    exists s1 d,
      trace (outside s1) = trace (outside s) ++ d
      /\ posts_in d = page_requests table_id cursor pages
      /\ sleeps_in d = repeat 1 (List.length pages - 1)
      /\ pipefy_posts (outside s1) = pipefy_posts (outside s) + List.length pages
      /\ DONE_PHASE_CACHE (outside s1) = DONE_PHASE_CACHE (outside s)
      /\ fetch_pages turns table_id all_records (JVal cursor) page_count s
         = (Value (Some (all_records ++ flat_map page_records pages)), s1).
Proof.
  induction pages as [|p rest IH]; intros Hne turns acc cursor pc s H Hl; [congruence|].
  destruct H as [Hp Hrest]. rewrite orb_false_r in Hp.
  destruct turns as [|turns]; [cbn in Hl; lia|].
  destruct (fetch_turn turns table_id acc cursor pc s p _ Hp)
    as (s1 & d1 & Ht1 & Hp1 & Hs1 & Hn1 & Hc1 & Hk1 & E1).
  destruct rest as [|q rest].
  - cbn [is_nil negb] in *. exists s1, d1.
    cbn [flat_map List.length page_requests]. rewrite app_nil_r.
    repeat split; try assumption. lia.
  - cbn [is_nil negb] in *. rewrite <- Hn1, <- Hc1 in Hrest.
    assert (Hl' : List.length (q :: rest) <= turns).
    { cbn [List.length] in *. lia. }
    assert (Hne' : q :: rest <> []) by discriminate.
    destruct (IH Hne' turns (acc ++ page_records p) (page_cursor p) (pc + 1) s1 Hrest Hl')
      as (s2 & d2 & Ht2 & Hp2 & Hs2 & Hc2 & Hk2 & E2).
    exists s2, (d1 ++ d2). split; [|split; [|split; [|split; [|split]]]].
    + now rewrite Ht2, Ht1, app_assoc.
    + rewrite posts_in_app, Hp1, Hp2. reflexivity.
    + rewrite sleeps_in_app, Hs1, Hs2. cbn [List.length]. cbn. now rewrite Nat.sub_0_r.
    + rewrite Hc2, Hc1. cbn [List.length]. lia.
    + now rewrite Hk2.
    + rewrite E1, E2. cbn [flat_map]. now rewrite <- !app_assoc.
Qed.

(** X21: when Pipefy answers the requests with pages, every page but the last
    saying that another follows, [get_pipefy_table_records] returns the
    records of all the pages in order. It sends one request per page, the
    first without a cursor and each other with the end cursor of the page
    before, and pauses one second between two pages. *)
Theorem fetch_collects_every_page (turns : nat) (table_id : string)
    (fields_to_get : option (list string)) (pages : list page) (s : run_state) :
  pages <> [] ->
  serves (pipefy_net (outside s)) (pipefy_posts (outside s)) pages false ->
  List.length pages <= turns ->
  exists s' d,
    get_pipefy_table_records turns table_id fields_to_get s
    = (Value (Some (flat_map page_records pages)), s')
    /\ trace (outside s') = trace (outside s) ++ d
    /\ posts_in d = page_requests table_id PNone pages
    /\ sleeps_in d = repeat 1 (List.length pages - 1)
    /\ pipefy_posts (outside s') = pipefy_posts (outside s) + List.length pages.
Proof.
  intros Hne H Hl. unfold get_pipefy_table_records. unfold rbind at 1. cbn [rlog].
  match goal with |- context [fetch_pages _ _ _ _ _ ?s0] =>
    destruct (fetch_pages_collects table_id pages Hne turns [] PNone 0 s0 H Hl)
      as (s1 & d & Ht & Hp & Hs & Hc & _ & E) end.
  exists s1, d. unfold JNone. rewrite E. repeat split; assumption.
Qed.

Lemma fetch_collects_every_page_witness :
  exists s' d,
    get_pipefy_table_records 5 BU_AGENCY_TABLE_ID None
      (run_from (world_scripted [PostJson (JDict (page_body ex_page_1));
                                   PostJson (JDict (page_body ex_page_2))]))
    = (Value (Some (page_records ex_page_1 ++ page_records ex_page_2 ++ [])), s')
    /\ trace (outside s') = [] ++ d
    /\ posts_in d
       = [page_request BU_AGENCY_TABLE_ID PNone;
          page_request BU_AGENCY_TABLE_ID (PStr "c1")]
    /\ sleeps_in d = [1]
    /\ pipefy_posts (outside s') = 0 + 2.
Proof.
  apply (fetch_collects_every_page 5 BU_AGENCY_TABLE_ID None [ex_page_1; ex_page_2]
           (run_from (world_scripted [PostJson (JDict (page_body ex_page_1));
                                        PostJson (JDict (page_body ex_page_2))]))).
  - discriminate.
  - cbn [serves]. repeat split; try reflexivity; eexists; split; reflexivity.
  - cbn. lia.
Defined.

Lemma fetch_turn_failed (turns : nat) (table_id : string)
    (all_records : list pipefy_record) (cursor : pyval) (page_count : nat)
    (s : run_state) :
  and_then (fst (pipefy_post_outcome (outside s))) response_failed = Ret true ->
  exists s1,
    fetch_pages (S turns) table_id all_records (JVal cursor) page_count s
    = (Value None, s1)
    /\ pipefy_posts (outside s) < pipefy_posts (outside s1)
    /\ pipefy_posts (outside s1) <= pipefy_posts (outside s) + 3.
Proof.
  intros Hf.
  cbn [fetch_pages]. unfold rbind at 1. cbn [rlog]. unfold rbind at 1. unfold rlift at 1.
  rewrite page_variables_scalar. cbn [of_outcome].
  unfold rbind at 1. unfold in_world at 1. cbn [outside run_log].
  match goal with |- context [pipefy_post ?p (outside s)] =>
    destruct (pipefy_post_run p (outside s))
      as (w' & d & E & _ & _ & _ & _ & Hc & _) end.
  rewrite E.
  change (pipefy_post_spec _ _ _) with (pipefy_post_outcome (outside s)) in *.
  destruct (fst (pipefy_post_outcome (outside s))) as [response|e]; [|discriminate].
  cbn [and_then] in Hf. cbn [of_outcome]. unfold rbind at 1. unfold rlift at 1.
  rewrite Hf. cbn [of_outcome]. unfold rbind at 1. cbn [rlog rret].
  eexists. split; [reflexivity|]. cbn [outside]. rewrite Hc.
  pose proof (pipefy_post_outcome_count (outside s)). lia.
Qed.

(** X22: when the request that follows any number of pages fails, the result
    of [get_pipefy_table_records] is [None]: the records read so far are
    dropped. Between one and three requests were sent for the page that
    failed. *)
Theorem fetch_failure_returns_none (turns : nat) (table_id : string)
    (fields_to_get : option (list string)) (pages : list page) (s : run_state) :
  let net := pipefy_net (outside s) in
  let n := pipefy_posts (outside s) + List.length pages in
  serves net (pipefy_posts (outside s)) pages true ->
  and_then (fst (pipefy_post_spec (net n) (net (n + 1)) (net (n + 2)))) response_failed
  = Ret true ->
  List.length pages < turns ->
  exists s',
    get_pipefy_table_records turns table_id fields_to_get s = (Value None, s')
    /\ n < pipefy_posts (outside s')
    /\ pipefy_posts (outside s') <= n + 3.
Proof.
  intros net n H Hf Hl. unfold get_pipefy_table_records. unfold rbind at 1. cbn [rlog].
  replace turns with (List.length pages + S (turns - List.length pages - 1)) by lia.
  match goal with |- context [fetch_pages _ _ _ _ _ ?s0] =>
    destruct (fetch_pages_served table_id pages (S (turns - List.length pages - 1))
                [] PNone 0 s0 H)
      as (s1 & d & _ & _ & _ & Hn & Hc & _ & E) end.
  unfold JNone. rewrite E. cbn [outside] in Hn, Hc.
  destruct (fetch_turn_failed (turns - List.length pages - 1) table_id
              ([] ++ flat_map page_records pages) (cursor_after PNone pages)
              (0 + List.length pages) s1) as (s2 & E2 & Hlo & Hhi).
  { unfold pipefy_post_outcome. rewrite Hn, Hc. exact Hf. }
  exists s2. rewrite E2. subst n. rewrite <- Hc. auto.
Qed.

Lemma fetch_failure_returns_none_witness :
  exists s',
    get_pipefy_table_records 5 BU_AGENCY_TABLE_ID None
      (run_from (world_scripted [PostJson (JDict (page_body ex_page_1))]))
    = (Value None, s')
    /\ 0 + 1 < pipefy_posts (outside s')
    /\ pipefy_posts (outside s') <= 0 + 1 + 3.
Proof.
  apply (fetch_failure_returns_none 5 BU_AGENCY_TABLE_ID None [ex_page_1]
           (run_from (world_scripted [PostJson (JDict (page_body ex_page_1))]))).
  - cbn [serves]. repeat split; try reflexivity. eexists; split; reflexivity.
  - reflexivity.
  - cbn. lia.
Defined.

(** X23: nothing in [get_pipefy_table_records] bounds the number of pages: as
    long as the pages say that another follows, the loop goes on, and after as
    many turns as there are pages it has sent as many requests and has not
    returned. *)
Theorem fetch_has_no_page_limit (table_id : string)
    (fields_to_get : option (list string)) (pages : list page) (s : run_state) :
  serves (pipefy_net (outside s)) (pipefy_posts (outside s)) pages true ->
  exists s',
    get_pipefy_table_records (List.length pages) table_id fields_to_get s
    = (Unfinished, s')
    /\ pipefy_posts (outside s') = pipefy_posts (outside s) + List.length pages.
Proof.
  intros H. unfold get_pipefy_table_records. unfold rbind at 1. cbn [rlog].
  match goal with |- context [fetch_pages _ _ _ _ _ ?s0] =>
    destruct (fetch_pages_served table_id pages 0 [] PNone 0 s0 H)
      as (s1 & d & _ & _ & _ & _ & Hc & _ & E) end.
  rewrite Nat.add_0_r in E. unfold JNone. rewrite E. exists s1. split; [reflexivity|exact Hc].
Qed.

Lemma fetch_has_no_page_limit_witness :
  exists s',
    get_pipefy_table_records 3 BU_AGENCY_TABLE_ID None
      (run_from (world_answering (PostJson (JDict (page_body ex_page_1))) GetTimeout))
    = (Unfinished, s')
    /\ pipefy_posts (outside s') = 0 + 3.
Proof.
  apply (fetch_has_no_page_limit BU_AGENCY_TABLE_ID None [ex_page_1; ex_page_1; ex_page_1]
           (run_from (world_answering (PostJson (JDict (page_body ex_page_1))) GetTimeout))).
  cbn [serves]. repeat split; try reflexivity; eexists; split; reflexivity.
Defined.

(** *** The records of a page *)

Lemma set_fields_get (fields_list : list json) :
  forall record_data r,
    set_fields record_data fields_list = Ret r ->
    forall k, dict_get r k
              = match last_field_value fields_list k with
                | Some v => Some v
                | None => dict_get record_data k
                end.
Proof.
  induction fields_list as [|field rest IH]; intros rd r E k.
  - cbn in E. injection E as <-. reflexivity.
  - cbn [set_fields and_then] in E. unfold and_then in E.
    destruct (set_field rd field) as [rd'|e] eqn:Ef; [|discriminate].
    rewrite (IH _ _ E k). cbn [last_field_value].
    destruct (last_field_value rest k); [reflexivity|].
    unfold set_field, and_then in Ef. unfold field_slug.
    destruct (json_get field "field" (JDict [])) as [f|e]; [|discriminate].
    destruct (json_get f "id" JNone) as [slug|e]; [|discriminate].
    destruct (json_get field "value" JNone) as [value|e]; [|discriminate].
    destruct slug as [[|b|z|sl]|l|d]; cbn [json_truthy truthy] in Ef.
    + injection Ef as <-. reflexivity.
    + destruct b; [discriminate|]. injection Ef as <-. reflexivity.
    + destruct (negb (z =? 0)%Z); [discriminate|]. injection Ef as <-. reflexivity.
    + destruct (is_empty sl); cbn [negb] in Ef; injection Ef as <-; [reflexivity|].
      rewrite dict_get_set. now destruct (sl =? k)%string.
    + destruct (negb (is_nil l)); [discriminate|]. injection Ef as <-. reflexivity.
    + destruct (negb (is_nil d)); [discriminate|]. injection Ef as <-. reflexivity.
Qed.

(** X24: a fetched record holds under each slug the value of the last field of
    the node with that slug; fields with a false slug are dropped. Under
    [pipefy_record_id] and [title] it holds the id and the title of the node,
    unless a field has that very slug, whose value then takes the place. *)
Theorem edge_record_fields (edge : json) (r : pipefy_record) :
  edge_record edge = Ret r ->
  exists node fields_list,
    json_get edge "node" (JDict []) = Ret (JDict node)
    /\ json_iter (dict_get_default node "record_fields" (JList [])) = Ret fields_list
    /\ forall k,
         dict_get r k
         = match last_field_value fields_list k with
           | Some v => Some v
           | None =>
               if (k =? "pipefy_record_id")%string
               then Some (dict_get_default node "id" JNone)
               else if (k =? "title")%string
                    then Some (dict_get_default node "title" JNone)
                    else None
           end.
Proof.
  unfold edge_record, and_then. intros E.
  destruct (json_get edge "node" (JDict [])) as [node|e]; [|discriminate].
  destruct node as [v|l|node]; cbn [json_get] in E; try discriminate.
  destruct (json_iter (dict_get_default node "record_fields" (JList []))) as [fl|e] eqn:Ei;
    [|discriminate].
  exists node, fl. split; [reflexivity|]. split; [exact Ei|].
  intros k. rewrite (set_fields_get _ _ _ E k).
  destruct (last_field_value fl k); [reflexivity|].
  cbn [dict_get]. rewrite (String.eqb_sym "pipefy_record_id" k), (String.eqb_sym "title" k).
  reflexivity.
Qed.

Lemma edge_record_fields_witness :
  exists node fields_list,
    json_get (ex_edge "900" "Strategy Team" "title" "Overwritten") "node" (JDict [])
    = Ret (JDict node)
    /\ json_iter (dict_get_default node "record_fields" (JList [])) = Ret fields_list
    /\ forall k,
         dict_get [("pipefy_record_id", JVal (PStr "900"));
                   ("title", JVal (PStr "Overwritten"))] k
         = match last_field_value fields_list k with
           | Some v => Some v
           | None =>
               if (k =? "pipefy_record_id")%string
               then Some (dict_get_default node "id" JNone)
               else if (k =? "title")%string
                    then Some (dict_get_default node "title" JNone)
                    else None
           end.
Proof.
  apply (edge_record_fields (ex_edge "900" "Strategy Team" "title" "Overwritten")).
  reflexivity.
Defined.

(* ------------------------------------------------------------------ *)
(** ** main: what it gathers *)
(* ------------------------------------------------------------------ *)

(** *** Runs *)

Lemma rbind_value {A B} (m : Run A) (f : A -> Run B) (s s' : run_state) (b : B) :
  rbind m f s = (Value b, s') ->
  exists a s1, m s = (Value a, s1) /\ f a s1 = (Value b, s').
Proof.
  unfold rbind. destruct (m s) as [[a|e|c|] s1]; try discriminate.
  intros H. now exists a, s1.
Qed.

Lemma rlift_value {A} (o : outcome A) (s s' : run_state) (a : A) :
  rlift o s = (Value a, s') -> o = Ret a /\ s' = s.
Proof.
  unfold rlift. destruct o; cbn; intros H; inversion H; auto.
Qed.

Lemma and_then_ret {A B} (o : outcome A) (f : A -> outcome B) (b : B) :
  and_then o f = Ret b -> exists a, o = Ret a /\ f a = Ret b.
Proof. destruct o as [a|e]; cbn; [eauto|discriminate]. Qed.

Lemma scalar_ret (j : json) (v : pyval) : scalar j = Ret v -> j = JVal v.
Proof. destruct j; cbn; congruence. Qed.

Lemma hashable_ret (j : json) (v : pyval) : hashable j = Ret v -> j = JVal v.
Proof. destruct j; cbn; congruence. Qed.

Ltac run_inv H :=
  repeat match type of H with
    | rbind _ _ _ = (Value _, _) =>
        let a := fresh "a" in let s1 := fresh "s" in
        let H1 := fresh "H" in
        apply rbind_value in H as (a & s1 & H1 & H)
    end.

(** *** The records [main] gathers *)

Section Gathered.
Variable api : endpoints.

Lemma collect_business_units_complete (config_id : pyval) (business_units : list json) :
  truthy config_id = true ->
  forall acc s out s',
    collect_business_units config_id business_units acc s = (Value out, s') ->
    Forall (complete_record bu_agency_field_map) acc ->
    Forall (complete_record bu_agency_field_map) out.
Proof.
  intros Hc. induction business_units as [|bu rest IH]; intros acc s out s' E Hacc.
  - cbn in E. injection E as <- _. exact Hacc.
  - cbn [collect_business_units] in E.
    apply rbind_value in E as (id & s1 & E1 & E). apply rlift_value in E1 as [E1 ->].
    apply rbind_value in E as (name & s1 & E2 & E). apply rlift_value in E2 as [E2 ->].
    destruct (json_truthy id) eqn:Hid.
    + apply rbind_value in E as (idv & s1 & E3 & E). apply rlift_value in E3 as [E3 ->].
      apply rbind_value in E as (namev & s1 & E4 & E). apply rlift_value in E4 as [E4 ->].
      apply scalar_ret in E3. subst id. cbn in Hid.
      apply (IH _ _ _ _ E). apply Forall_app. split; [exact Hacc|].
      repeat constructor; cbn; assumption.
    + apply rbind_value in E as (u & s1 & _ & E). apply (IH _ _ _ _ E Hacc).
Qed.

Lemma collect_divisions_complete (config_id : pyval) (m : client_map)
    (divisions : list json) :
  forall acc s out s',
    collect_divisions config_id m divisions acc s = (Value out, s') ->
    Forall (complete_record divisions_field_map) acc ->
    Forall (complete_record divisions_field_map) out.
Proof.
  induction divisions as [|div rest IH]; intros acc s out s' E Hacc.
  - cbn in E. injection E as <- _. exact Hacc.
  - cbn [collect_divisions] in E.
    apply rbind_value in E as (cid & s1 & E1 & E). apply rlift_value in E1 as [E1 ->].
    apply rbind_value in E as (did & s1 & E2 & E). apply rlift_value in E2 as [E2 ->].
    apply rbind_value in E as (dname & s1 & E3 & E). apply rlift_value in E3 as [E3 ->].
    destruct (json_truthy cid && json_truthy did && json_truthy dname) eqn:Ht;
      cbn [negb] in E.
    + apply andb_true_iff in Ht as [Ht Hn]. apply andb_true_iff in Ht as [Hcid Hdid].
      apply rbind_value in E as (cidv & s1 & E4 & E). apply rlift_value in E4 as [E4 ->].
      apply rbind_value in E as (didv & s1 & E5 & E). apply rlift_value in E5 as [E5 ->].
      apply rbind_value in E as (dnamev & s1 & E6 & E). apply rlift_value in E6 as [E6 ->].
      apply rbind_value in E as (cnamev & s1 & E7 & E). apply rlift_value in E7 as [E7 ->].
      apply hashable_ret in E4. apply scalar_ret in E5. subst cid did.
      cbn in Hcid, Hdid.
      apply (IH _ _ _ _ E). apply Forall_app. split; [exact Hacc|].
      repeat constructor; cbn; assumption.
    + apply rbind_value in E as (u & s1 & _ & E). apply (IH _ _ _ _ E Hacc).
Qed.

Lemma collect_products_complete (config_id client_id : pyval) (client : json)
    (products : list json) :
  truthy config_id = true -> truthy client_id = true ->
  forall acc out,
    collect_products config_id client_id client products acc = Ret out ->
    Forall (complete_record product_client_field_map) acc ->
    Forall (complete_record product_client_field_map) out.
Proof.
  intros Hc Hcl. induction products as [|product rest IH]; intros acc out E Hacc.
  - cbn in E. injection E as <-. exact Hacc.
  - cbn [collect_products] in E.
    apply and_then_ret in E as (pid & E1 & E).
    destruct (json_truthy pid) eqn:Hp; cbn [negb] in E; [|exact (IH _ _ E Hacc)].
    apply and_then_ret in E as (cname & E2 & E).
    apply and_then_ret in E as (pname & E3 & E).
    apply and_then_ret in E as (contact & E4 & E).
    apply and_then_ret in E as (cnamev & E5 & E).
    apply and_then_ret in E as (pidv & E6 & E).
    apply and_then_ret in E as (pnamev & E7 & E).
    apply and_then_ret in E as (contactv & E8 & E).
    apply scalar_ret in E6. subst pid. cbn in Hp.
    apply (IH _ _ E). apply Forall_app. split; [exact Hacc|].
    repeat constructor; cbn; assumption.
Qed.

Lemma collect_clients_complete (config_id : pyval) (clients : list json) :
  truthy config_id = true ->
  forall acc ok s out s',
    collect_clients api config_id clients acc ok s = (Value out, s') ->
    Forall (complete_record product_client_field_map) acc ->
    Forall (complete_record product_client_field_map) (fst out).
Proof.
  intros Hc. induction clients as [|client rest IH]; intros acc ok s out s' E Hacc.
  - cbn in E. injection E as <- _. exact Hacc.
  - cbn [collect_clients] in E.
    apply rbind_value in E as (cid & s1 & E1 & E). apply rlift_value in E1 as [E1 ->].
    destruct (json_truthy cid) eqn:Hcid; cbn [negb] in E; [|exact (IH _ _ _ _ _ E Hacc)].
    apply rbind_value in E as (cidv & s1 & E2 & E). apply rlift_value in E2 as [E2 ->].
    apply scalar_ret in E2. subst cid. cbn in Hcid.
    apply rbind_value in E as (products & s1 & _ & E).
    destruct products as [v|l|d].
    + apply rbind_value in E as (u & s2 & _ & E). exact (IH _ _ _ _ _ E Hacc).
    + apply rbind_value in E as (u & s2 & _ & E).
      apply rbind_value in E as (acc' & s3 & E3 & E). apply rlift_value in E3 as [E3 ->].
      apply (IH _ _ _ _ _ E).
      exact (collect_products_complete _ _ _ _ Hc Hcid _ _ E3 Hacc).
    + apply rbind_value in E as (u & s2 & _ & E). exact (IH _ _ _ _ _ E Hacc).
Qed.

End Gathered.

Lemma truthy_str_not_empty (v : pyval) : truthy v = true -> is_empty (py_str v) = false.
Proof.
  destruct v as [|[]|z|s]; cbn; try discriminate; try reflexivity.
  - intros _. destruct (str_Z z) eqn:E; [|reflexivity].
    now apply str_Z_not_empty in E.
  - now intros ->%negb_true_iff.
Qed.

Lemma complete_record_created (fm : field_mapping) (r : record) :
  complete_record fm r -> create_skipped (keys fm) r = false.
Proof.
  intros [H _]. unfold create_skipped. apply negb_false_iff, forallb_forall.
  intros k Hk. apply filter_In in Hk as [Hin _]. rewrite Forall_forall in H.
  destruct (H k Hin) as [_ Ht]. now rewrite (truthy_str_not_empty _ Ht).
Qed.

Lemma dict_set_forall {V} (P : string * V -> Prop) (d : dict V) (k : string) (v : V) :
  Forall P d -> P (k, v) -> Forall P (dict_set d k v).
Proof.
  intros Hd Hkv. induction d as [|[k' v'] d IH]; cbn.
  - constructor; [exact Hkv|constructor].
  - inversion Hd; subst. destruct (k' =? k)%string; constructor; auto.
Qed.

Lemma dict_get_default_forall {V} (P : string * V -> Prop) (Q : V -> Prop)
    (d : dict V) (k : string) (default : V) :
  (forall k' v, P (k', v) -> Q v) -> Forall P d -> Q default ->
  Q (dict_get_default d k default).
Proof.
  intros HPQ Hd Hdef. unfold dict_get_default.
  induction d as [|[k' v'] d IH]; cbn; [exact Hdef|].
  inversion Hd; subst. destruct (k' =? k)%string; [eapply HPQ; eauto | auto].
Qed.

Lemma collect_configs_complete (api : endpoints) (m : client_map) (configs : list json) :
  forall c s c' s',
    collect_configs api m configs c s = (Value c', s') ->
    all_complete c -> all_complete c'.
Proof.
  induction configs as [|config rest IH]; intros c s c' s' E Hc.
  - cbn in E. injection E as <- _. exact Hc.
  - cbn [collect_configs] in E. destruct Hc as (Hbu & Hdiv & Hprod).
    apply rbind_value in E as (cid & s1 & E1 & E). apply rlift_value in E1 as [E1 ->].
    apply rbind_value in E as (cname & s1 & E2 & E). apply rlift_value in E2 as [E2 ->].
    destruct (json_truthy cid) eqn:Hcid; cbn [negb] in E;
      [|apply (IH _ _ _ _ E); repeat split; assumption].
    apply rbind_value in E as (cidv & s1 & E3 & E). apply rlift_value in E3 as [E3 ->].
    apply scalar_ret in E3. subst cid. cbn in Hcid.
    apply rbind_value in E as (business_units & s1 & _ & E).
    apply rbind_value in E as (bu & s2 & Ebu & E).
    assert (Hbu' : Forall (complete_record bu_agency_field_map) (fst bu)).
    { destruct business_units as [v|l|d].
      - apply rbind_value in Ebu as (u & s3 & _ & Ebu). injection Ebu as <- _. exact Hbu.
      - apply rbind_value in Ebu as (bus & s3 & Ec & Ebu). injection Ebu as <- _.
        exact (collect_business_units_complete _ _ Hcid _ _ _ _ Ec Hbu).
      - apply rbind_value in Ebu as (u & s3 & _ & Ebu). injection Ebu as <- _. exact Hbu. }
    apply rbind_value in E as (divisions & s3 & _ & E).
    apply rbind_value in E as (dv & s4 & Edv & E).
    assert (Hdiv' : Forall (complete_record divisions_field_map) (fst dv)).
    { destruct divisions as [v|l|d].
      - apply rbind_value in Edv as (u & s5 & _ & Edv). injection Edv as <- _. exact Hdiv.
      - apply rbind_value in Edv as (divs & s5 & Ec & Edv). injection Edv as <- _.
        exact (collect_divisions_complete _ _ _ _ _ _ _ Ec Hdiv).
      - apply rbind_value in Edv as (u & s5 & _ & Edv). injection Edv as <- _. exact Hdiv. }
    destruct (dict_mem (py_str cidv) AGENCY_PRODUCT_TABLE_MAP); cbn [negb] in E.
    + apply rbind_value in E as (clients & s5 & _ & E).
      destruct clients as [v|l|d].
      * apply rbind_value in E as (u & s6 & _ & E).
        apply (IH _ _ _ _ E). repeat split; assumption.
      * apply rbind_value in E as (u & s6 & _ & E).
        apply rbind_value in E as (pc & s7 & Epc & E).
        apply (IH _ _ _ _ E). repeat split; try assumption. cbn.
        apply dict_set_forall; [exact Hprod|]. cbn.
        apply (collect_clients_complete _ _ _ Hcid _ _ _ _ _ Epc).
        apply (dict_get_default_forall
                 (fun kl => Forall (complete_record product_client_field_map) (snd kl)));
          [auto | exact Hprod | constructor].
      * apply rbind_value in E as (u & s6 & _ & E).
        apply (IH _ _ _ _ E). repeat split; assumption.
    + apply rbind_value in E as (u & s5 & _ & E).
      apply (IH _ _ _ _ E). repeat split; assumption.
Qed.

(** X25: every record [main] gathers for a table has each key attribute of the
    mapping of the table, with a true value, and the status Active; and the
    create branch never skips such a record: it gives one fragment and writes
    nothing to the log. *)
Theorem gathered_records_are_never_skipped (api : endpoints) (m : client_map)
    (configs : list json) (s s' : run_state) (c : collected) :
  collect_configs api m configs nothing_collected s = (Value c, s') ->
  all_complete c
  /\ (forall fm r, complete_record fm r ->
        create_skipped (keys fm) r = false
        /\ forall table_id action i w,
             exists f, build_create table_id action fm i r w = (Ret [f], w)).
Proof.
  intros E. split.
  - apply (collect_configs_complete _ _ _ _ _ _ _ E).
    repeat split; try constructor; repeat constructor.
  - intros fm r Hr. pose proof (complete_record_created fm r Hr) as Hs.
    split; [exact Hs|]. intros t a i w. unfold build_create. rewrite Hs.
    eexists. reflexivity.
Qed.

Lemma gathered_records_are_never_skipped_witness :
  all_complete ex_collected
  /\ (forall fm r, complete_record fm r ->
        create_skipped (keys fm) r = false
        /\ forall table_id action i w,
             exists f, build_create table_id action fm i r w = (Ret [f], w)).
Proof.
  refine (gathered_records_are_never_skipped ex_api [] ex_configs
            (run_from (world_answering PostTimeout (GetJson (JList ex_business_units))))
            _ ex_collected _).
  vm_compute. reflexivity.
Defined.

(* ------------------------------------------------------------------ *)
(** ** main: how it ends, and sync_table with its fetch *)
(* ------------------------------------------------------------------ *)

(** *** How [main] ends *)

Lemma leaves_pipefy_ret {A} (a : A) : leaves_pipefy (ret a).
Proof. intros w. cbn. auto. Qed.

Lemma leaves_pipefy_emit (e : event) : leaves_pipefy (emit e).
Proof. intros w. cbn. auto. Qed.

Lemma leaves_pipefy_session_get (endpoint : string) (config_id : pyval) :
  leaves_pipefy (session_get endpoint config_id).
Proof. intros w. cbn. auto. Qed.

Lemma leaves_pipefy_bind {A B} (m : M A) (f : A -> M B) :
  leaves_pipefy m -> (forall a, leaves_pipefy (f a)) -> leaves_pipefy (bind m f).
Proof.
  intros Hm Hf w. unfold bind. destruct (Hm w) as (A1 & A2 & A3).
  destruct (m w) as [[a|e] w1]; cbn [snd] in *.
  - destruct (Hf a w1) as (B1 & B2 & B3). rewrite B1, B2, B3. auto.
  - auto.
Qed.

Ltac leaves :=
  repeat match goal with
    | |- leaves_pipefy (ret _) => apply leaves_pipefy_ret
    | |- leaves_pipefy (emit _) => apply leaves_pipefy_emit
    | |- leaves_pipefy (session_get _ _) => apply leaves_pipefy_session_get
    | |- leaves_pipefy (bind _ _) => apply leaves_pipefy_bind; [|intros ?]
    | |- leaves_pipefy (if ?b then _ else _) => destruct b
    | |- leaves_pipefy (match ?x with _ => _ end) => destruct x
    end.

Lemma chase_api_get_loop_pipefy_side (endpoint : string) (config_id : pyval)
    (attempts : list nat) :
  forall delay, leaves_pipefy (chase_api_get_loop attempts delay endpoint config_id).
Proof.
  induction attempts as [|a rest IH]; intros delay; [apply leaves_pipefy_ret|].
  cbn [chase_api_get_loop]. unfold log, sleep. cbv zeta. leaves; apply IH.
Qed.

(** X26: [chase_api_get] is [chase_api_get_spec] of what its next three
    requests meet.  It returns the body of the first attempt that answers,
    the empty list for a response without content, and [None] for a 4xx
    status other than 429; a timeout and any other failure of the request
    lead to the next attempt, and to [None] after the third.  A body that
    is not JSON is such a failure: it is retried, and the body of a later
    attempt that answers is returned.  It sends one to three requests to
    the same endpoint, sleeps 5 and then 10 seconds between them, never
    raises and does nothing on the side of Pipefy. *)
Theorem chase_api_get_refines_spec (endpoint : string) (config_id : pyval) (w : world) :
  let n := chase_gets w in
  let vk := chase_api_get_spec (chase_net w n) (chase_net w (n + 1)) (chase_net w (n + 2)) in
  exists w' d,
    chase_api_get endpoint config_id w = (Ret (fst vk), w')
    /\ trace w' = trace w ++ d
    /\ gets_in d = repeat (endpoint, config_id) (snd vk)
    /\ sleeps_in d = firstn (snd vk - 1) [5; 10]
    /\ chase_net w' = chase_net w
    /\ chase_gets w' = n + snd vk
    /\ 1 <= snd vk <= 3
    /\ pipefy_posts w' = pipefy_posts w
    /\ DONE_PHASE_CACHE w' = DONE_PHASE_CACHE w
    /\ get_decides get_not_json = None
    /\ (forall body,
          chase_net w n = get_not_json -> chase_net w (n + 1) = GetJson body ->
          vk = (body, 2)).
Proof.
  cbv zeta.
  destruct (chase_api_get_run_spec endpoint config_id w)
    as (w' & d & E & Ht & Hg & Hs & Hn & Hc).
  pose proof (chase_api_get_loop_pipefy_side endpoint config_id (seq 0 max_retries) 5 w)
    as (A & _ & C).
  change (chase_api_get_loop (seq 0 max_retries) 5 endpoint config_id w)
    with (chase_api_get endpoint config_id w) in A, C.
  rewrite E in A, C. cbn [snd] in A, C.
  exists w', d.
  split; [exact E|]. split; [exact Ht|]. split; [exact Hg|]. split; [exact Hs|].
  split; [exact Hn|]. split; [exact Hc|]. split; [|split; [exact A|split; [exact C|]]].
  - unfold chase_api_get_spec.
    destruct (get_decides _); cbn [snd]; try lia;
      destruct (get_decides _); cbn [snd]; try lia;
      destruct (get_decides _); cbn [snd]; lia.
  - split; [reflexivity|]. intros body H0 H1.
    unfold chase_api_get_spec. now rewrite H0, H1.
Qed.

Lemma chase_api_get_run (endpoint : string) (config_id : pyval) (s : run_state) :
  let w := outside s in
  let n := chase_gets w in
  let vk := chase_api_get_spec (chase_net w n) (chase_net w (n + 1)) (chase_net w (n + 2)) in
  exists s',
    in_world (chase_api_get endpoint config_id) s = (Value (fst vk), s')
    /\ run_log s' = run_log s
    /\ pipefy_posts (outside s') = pipefy_posts w
    /\ pipefy_net (outside s') = pipefy_net w
    /\ DONE_PHASE_CACHE (outside s') = DONE_PHASE_CACHE w
    /\ chase_net (outside s') = chase_net w
    /\ chase_gets (outside s') = n + snd vk.
Proof.
  cbv zeta.
  destruct (chase_api_get_run_spec endpoint config_id (outside s))
    as (w' & d & E & _ & _ & _ & Hn & Hg).
  pose proof (chase_api_get_loop_pipefy_side endpoint config_id (seq 0 max_retries) 5
                (outside s)) as (A & B & C).
  change (chase_api_get_loop (seq 0 max_retries) 5 endpoint config_id (outside s))
    with (chase_api_get endpoint config_id (outside s)) in A, B, C.
  rewrite E in A, B, C. cbn [snd] in A, B, C.
  unfold in_world. rewrite E. eexists. split; [reflexivity|]. cbn. auto 10.
Qed.

(** X27: when the request for the configs gives anything but a list, [main]
    ends with [sys.exit(1)], and so does the script; it has sent nothing to
    Pipefy and at most three requests to Chase. *)
Theorem main_stops_without_configs (api : endpoints) (turns : nat) (s : run_state) :
  let w := outside s in
  let n := chase_gets w in
  let vk := chase_api_get_spec (chase_net w n) (chase_net w (n + 1)) (chase_net w (n + 2)) in
  (forall l, fst vk <> JList l) ->
  exists s',
    main api turns s = (SystemExit 1, s')
    /\ script api turns s = (SystemExit 1, s')
    /\ pipefy_posts (outside s') = pipefy_posts w
    /\ chase_gets (outside s') = n + snd vk
    /\ snd vk <= 3.
Proof.
  cbv zeta. intros Hl.
  assert (H : exists s', main api turns s = (SystemExit 1, s')
                         /\ pipefy_posts (outside s') = pipefy_posts (outside s)
                         /\ chase_gets (outside s')
                            = chase_gets (outside s)
                              + snd (chase_api_get_spec
                                       (chase_net (outside s) (chase_gets (outside s)))
                                       (chase_net (outside s) (chase_gets (outside s) + 1))
                                       (chase_net (outside s) (chase_gets (outside s) + 2)))).
  { unfold main. unfold rbind at 1. cbn [rlog]. unfold rbind at 1.
    match goal with |- context [in_world ?m ?s0] =>
      destruct (chase_api_get_run (API_CONFIGS api) PNone s0)
        as (s1 & E & _ & Hp & _ & _ & _ & Hg) end.
    cbn [outside] in E, Hp, Hg. rewrite E.
    destruct (fst (chase_api_get_spec _ _ _)) as [v|l|d] eqn:Ev.
    - eexists. split; [reflexivity|]. cbn. auto.
    - exfalso. exact (Hl l eq_refl).
    - eexists. split; [reflexivity|]. cbn. auto. }
  destruct H as (s' & E & Hp & Hg). exists s'.
  split; [exact E|]. split; [unfold script; now rewrite E|].
  split; [exact Hp|]. split; [exact Hg|].
  unfold chase_api_get_spec.
  destruct (get_decides _); [cbn; lia|].
  destruct (get_decides _); [cbn; lia|].
  destruct (get_decides _); cbn; lia.
Qed.

Lemma main_stops_without_configs_witness :
  exists s',
    main ex_api 5 (run_from (world_answering PostTimeout GetTimeout)) = (SystemExit 1, s')
    /\ script ex_api 5 (run_from (world_answering PostTimeout GetTimeout))
       = (SystemExit 1, s')
    /\ pipefy_posts (outside s') = 0
    /\ chase_gets (outside s') = 0 + 3
    /\ 3 <= 3.
Proof.
  apply (main_stops_without_configs ex_api 5
           (run_from (world_answering PostTimeout GetTimeout))).
  intros l. discriminate.
Defined.

(** X28: an empty body or an empty list in answer to the request for the
    configs is no failure for [main]: after that one request it goes on to the
    sync of every table with nothing gathered, every source list being empty.
    *)
Theorem main_takes_an_empty_answer_for_no_configs (api : endpoints) (turns : nat)
    (s : run_state) :
  let w := outside s in
  chase_net w (chase_gets w) = GetEmpty \/ chase_net w (chase_gets w) = GetJson (JList []) ->
  exists s1,
    main api turns s = sync_collected turns nothing_collected s1
    /\ all_business_units nothing_collected = []
    /\ all_divisions nothing_collected = []
    /\ Forall (fun kl => snd kl = []) (all_products_clients_by_config nothing_collected)
    /\ pipefy_posts (outside s1) = pipefy_posts w
    /\ chase_gets (outside s1) = S (chase_gets w).
Proof.
  cbv zeta. intros H.
  unfold main. unfold rbind at 1. cbn [rlog]. unfold rbind at 1.
  match goal with |- context [in_world ?m ?s0] =>
    destruct (chase_api_get_run (API_CONFIGS api) PNone s0)
      as (s1 & E & _ & Hp & _ & _ & _ & Hg) end.
  cbn [outside] in E, Hp, Hg. rewrite E.
  assert (Hv : chase_api_get_spec
                 (chase_net (outside s) (chase_gets (outside s)))
                 (chase_net (outside s) (chase_gets (outside s) + 1))
                 (chase_net (outside s) (chase_gets (outside s) + 2))
               = (JList [], 1)).
  { unfold chase_api_get_spec. destruct H as [-> | ->]; reflexivity. }
  rewrite Hv in *. cbn [fst snd] in *.
  eexists. split; [reflexivity|]. cbn [outside].
  split; [reflexivity|]. split; [reflexivity|]. split; [repeat constructor|].
  split; [exact Hp|]. rewrite Hg. lia.
Qed.

Lemma main_takes_an_empty_answer_for_no_configs_witness :
  exists s1,
    main ex_api 5 (run_from (world_answering PostTimeout GetEmpty))
    = sync_collected 5 nothing_collected s1
    /\ all_business_units nothing_collected = []
    /\ all_divisions nothing_collected = []
    /\ Forall (fun kl => snd kl = []) (all_products_clients_by_config nothing_collected)
    /\ pipefy_posts (outside s1) = 0
    /\ chase_gets (outside s1) = 1.
Proof.
  apply (main_takes_an_empty_answer_for_no_configs ex_api 5
           (run_from (world_answering PostTimeout GetEmpty))).
  left. reflexivity.
Defined.

Lemma never_exits_ret {A} (a : A) : never_exits (rret a).
Proof. intros s c s'. discriminate. Qed.

Lemma never_exits_rlog (m : log_line) : never_exits (rlog m).
Proof. intros s c s'. discriminate. Qed.

Lemma never_exits_rlift {A} (o : outcome A) : never_exits (rlift o).
Proof. intros s c s'. unfold rlift. destruct o; discriminate. Qed.

Lemma never_exits_in_world {A} (m : M A) : never_exits (in_world m).
Proof.
  intros s c s'. unfold in_world. destruct (m (outside s)) as [[a|e] w]; discriminate.
Qed.

Lemma never_exits_bind {A B} (m : Run A) (f : A -> Run B) :
  never_exits m -> (forall a, never_exits (f a)) -> never_exits (rbind m f).
Proof.
  intros Hm Hf s c s'. unfold rbind. specialize (Hm s).
  destruct (m s) as [[a|e|c'|] s1].
  - apply Hf.
  - discriminate.
  - exfalso. exact (Hm c' s1 eq_refl).
  - discriminate.
Qed.

Lemma exits_with_1_bind {A B} (m : Run A) (f : A -> Run B) :
  never_exits m -> (forall a, exits_with_1 (f a)) -> exits_with_1 (rbind m f).
Proof.
  intros Hm Hf s c s'. unfold rbind. specialize (Hm s).
  destruct (m s) as [[a|e|c'|] s1].
  - apply Hf.
  - discriminate.
  - exfalso. exact (Hm c' s1 eq_refl).
  - discriminate.
Qed.

Lemma never_exits_with_1 {A} (m : Run A) : never_exits m -> exits_with_1 m.
Proof. intros H s c s' E. exfalso. exact (H s c s' E). Qed.

Ltac no_exit :=
  repeat match goal with
    | |- never_exits (rret _) => apply never_exits_ret
    | |- never_exits (rlog _) => apply never_exits_rlog
    | |- never_exits (rlift _) => apply never_exits_rlift
    | |- never_exits (in_world _) => apply never_exits_in_world
    | |- never_exits (rbind _ _) => apply never_exits_bind; [|intros ?]
    | |- never_exits (if ?b then _ else _) => destruct b
    | |- never_exits (match ?x with _ => _ end) => destruct x
    end.

Lemma never_exits_fetch_pages (turns : nat) (table_id : string) :
  forall all_records cursor page_count,
    never_exits (fetch_pages turns table_id all_records cursor page_count).
Proof.
  induction turns as [|turns IH]; intros acc cursor pc.
  - intros s c s'. discriminate.
  - cbn [fetch_pages]. cbv zeta. no_exit. apply IH.
Qed.

Lemma never_exits_sync_table_with_fetch (turns : nat) (chase_data_list : list record)
    (pipefy_table_id : string) (fm : field_mapping) :
  never_exits (sync_table_with_fetch turns chase_data_list pipefy_table_id fm).
Proof.
  unfold sync_table_with_fetch, get_pipefy_table_records. cbv zeta.
  no_exit. apply never_exits_fetch_pages.
Qed.

Section NoExit.
Variable api : endpoints.

Lemma never_exits_build_client_map (configs : list json) :
  forall m, never_exits (build_client_map api configs m).
Proof.
  induction configs as [|config rest IH]; intros m; [apply never_exits_ret|].
  cbn [build_client_map]. no_exit; apply IH.
Qed.

Lemma never_exits_collect_business_units (config_id : pyval) (l : list json) :
  forall acc, never_exits (collect_business_units config_id l acc).
Proof.
  induction l as [|x rest IH]; intros acc; [apply never_exits_ret|].
  cbn [collect_business_units]. cbv zeta. no_exit; apply IH.
Qed.

Lemma never_exits_collect_divisions (config_id : pyval) (m : client_map) (l : list json) :
  forall acc, never_exits (collect_divisions config_id m l acc).
Proof.
  induction l as [|x rest IH]; intros acc; [apply never_exits_ret|].
  cbn [collect_divisions]. cbv zeta. no_exit; apply IH.
Qed.

Lemma never_exits_collect_clients (config_id : pyval) (l : list json) :
  forall acc ok, never_exits (collect_clients api config_id l acc ok).
Proof.
  induction l as [|x rest IH]; intros acc ok; [apply never_exits_ret|].
  cbn [collect_clients]. no_exit; apply IH.
Qed.

Lemma never_exits_collect_configs (m : client_map) (configs : list json) :
  forall c, never_exits (collect_configs api m configs c).
Proof.
  induction configs as [|config rest IH]; intros c; [apply never_exits_ret|].
  cbn [collect_configs]. cbv zeta.
  no_exit;
    first [ apply IH
          | apply never_exits_collect_business_units
          | apply never_exits_collect_divisions
          | apply never_exits_collect_clients ].
Qed.

Lemma never_exits_sync_products (turns : nat) (items : dict (list record)) :
  forall ok, never_exits (sync_products turns items ok).
Proof.
  induction items as [|[k l] rest IH]; intros ok; [apply never_exits_ret|].
  cbn [sync_products]. cbv zeta.
  no_exit; first [apply IH | apply never_exits_sync_table_with_fetch].
Qed.

Lemma exits_with_1_main (turns : nat) : exits_with_1 (main api turns).
Proof.
  assert (Hexit : forall A, exits_with_1 (@sys_exit A 1)).
  { intros A s c s' E. unfold sys_exit in E. now injection E as <- _. }
  unfold main.
  apply exits_with_1_bind; [apply never_exits_rlog|]. intros _.
  apply exits_with_1_bind; [apply never_exits_in_world|]. intros configs.
  destruct configs as [v|l|d].
  - apply exits_with_1_bind; [apply never_exits_rlog|]. intros _. apply Hexit.
  - apply exits_with_1_bind; [apply never_exits_rlog|]. intros _.
    apply exits_with_1_bind; [apply never_exits_rlog|]. intros _.
    apply exits_with_1_bind; [apply never_exits_build_client_map|]. intros m.
    apply exits_with_1_bind; [apply never_exits_rlog|]. intros _.
    apply exits_with_1_bind; [apply never_exits_collect_configs|]. intros c.
    unfold sync_collected. cbv zeta.
    apply exits_with_1_bind; [apply never_exits_rlog|]. intros _.
    apply exits_with_1_bind; [apply never_exits_sync_table_with_fetch|]. intros ok1.
    apply exits_with_1_bind; [apply never_exits_rlog|]. intros _.
    apply exits_with_1_bind; [apply never_exits_sync_table_with_fetch|]. intros ok2.
    apply exits_with_1_bind; [apply never_exits_sync_products|]. intros ok3.
    destruct ok3.
    + apply never_exits_with_1, never_exits_rlog.
    + apply exits_with_1_bind; [apply never_exits_rlog|]. intros _. apply Hexit.
  - apply exits_with_1_bind; [apply never_exits_rlog|]. intros _. apply Hexit.
Qed.

End NoExit.

(** X29: the script ends normally only when [main] does, and it never ends
    with a Python exception: an exception of [main] becomes the exit status 1.
    The only exit status besides the normal end is 1. *)
Theorem script_exit_status (api : endpoints) (turns : nat) (s : run_state) :
  match fst (script api turns s) with
  | Value _ => fst (main api turns s) = Value tt
  | SystemExit code =>
      code = 1
      /\ (fst (main api turns s) = SystemExit 1
          \/ exists e, fst (main api turns s) = Exception e /\ e <> Unsupported)
  | Exception e => e = Unsupported
  | Unfinished => fst (main api turns s) = Unfinished
  end.
Proof.
  unfold script. pose proof (exits_with_1_main api turns s) as H.
  destruct (main api turns s) as [[[]|e|c|] s1]; cbn [fst].
  - reflexivity.
  - destruct e; cbn; try reflexivity;
      (split; [reflexivity|right; eexists; split; [reflexivity|discriminate]]).
  - rewrite (H c s1 eq_refl). split; [reflexivity|now left].
  - reflexivity.
Qed.

(** *** A second run *)

Lemma sync_table_after_fetch (chase_data_list pipefy_records : list record)
    (pipefy_table_id : string) (fm : field_mapping) :
  sync_table chase_data_list (Some pipefy_records) pipefy_table_id fm
  = (log (LogSyncStart pipefy_table_id) ;;;
     sync_fetched chase_data_list pipefy_records pipefy_table_id fm).
Proof. reflexivity. Qed.

Lemma sync_fetched_no_op (chase_data_list pipefy_records : list record)
    (pipefy_table_id : string) (fm : field_mapping) (chase_map pipefy_map : dict record)
    (w : world) :
  key_map pipefy_table_id fm false chase_data_list [] = Ret chase_map ->
  key_map pipefy_table_id fm true pipefy_records [] = Ret pipefy_map ->
  (forall k chase_record, In (k, chase_record) chase_map ->
     exists pipefy_record,
       dict_get pipefy_map k = Some pipefy_record
       /\ needs_update fm chase_record pipefy_record = false) ->
  (forall k pipefy_record, In (k, pipefy_record) pipefy_map ->
     dict_mem k chase_map = true
     \/ eq_str (rget pipefy_record "status") "Archived" = true) ->
  sync_fetched chase_data_list pipefy_records pipefy_table_id fm w
  = (Ret true,
     logged w [LogSyncResults pipefy_table_id 0 0 0;
               LogNoMutations; LogNoMutations; LogNoMutations;
               LogSyncFinished pipefy_table_id]).
Proof.
  intros Hc Hp Hsrc Hdst. unfold sync_fetched.
  unfold bind at 1. unfold lift at 1. rewrite Hc.
  unfold bind at 1. unfold lift at 1. rewrite Hp.
  unfold bind at 1. unfold lift at 1.
  rewrite (classify_sources_all_unchanged fm pipefy_map chase_map Hsrc).
  rewrite archive_list_nil.
  - reflexivity.
  - intros k r Hin. unfold classify_destination.
    destruct (Hdst k r Hin) as [-> | ->]; [reflexivity|apply andb_false_r].
Qed.

Lemma posts_in_logs (lines : list log_msg) : posts_in (map EvLog lines) = [].
Proof. induction lines; [reflexivity|exact IHlines]. Qed.

(** X30: [sync_table] as it runs, on tables that are synchronized: when Pipefy
    serves the destination records in pages, every source record has under its
    key a fetched record that needs no update, and every fetched record has
    its key in the source or is Archived, it returns [True] and the only
    requests it sends are those for the pages. *)
Theorem sync_with_fetch_of_synchronized_tables (turns : nat)
    (chase_data_list : list record) (pipefy_table_id : string) (fm : field_mapping)
    (pages : list page) (pipefy_records : list record)
    (chase_map pipefy_map : dict record) (s : run_state) :
  pages <> [] ->
  serves (pipefy_net (outside s)) (pipefy_posts (outside s)) pages false ->
  List.length pages <= turns ->
  to_records (flat_map page_records pages) = Ret pipefy_records ->
  key_map pipefy_table_id fm false chase_data_list [] = Ret chase_map ->
  key_map pipefy_table_id fm true pipefy_records [] = Ret pipefy_map ->
  (forall k chase_record, In (k, chase_record) chase_map ->
     exists pipefy_record,
       dict_get pipefy_map k = Some pipefy_record
       /\ needs_update fm chase_record pipefy_record = false) ->
  (forall k pipefy_record, In (k, pipefy_record) pipefy_map ->
     dict_mem k chase_map = true
     \/ eq_str (rget pipefy_record "status") "Archived" = true) ->
  exists s' d,
    sync_table_with_fetch turns chase_data_list pipefy_table_id fm s = (Value true, s')
    /\ trace (outside s') = trace (outside s) ++ d
    /\ posts_in d = page_requests pipefy_table_id PNone pages
    /\ pipefy_posts (outside s') = pipefy_posts (outside s) + List.length pages.
Proof.
  intros Hne Hserved Hturns Hrecs Hc Hp Hsrc Hdst.
  unfold sync_table_with_fetch. cbv zeta.
  unfold rbind at 1. unfold in_world at 1. cbn [log emit of_outcome run_log].
  unfold rbind at 1.
  unfold get_pipefy_table_records. unfold rbind at 1. cbn [rlog].
  match goal with |- context [fetch_pages _ _ _ _ _ ?s0] =>
    destruct (fetch_pages_collects pipefy_table_id pages Hne turns [] PNone 0 s0
                Hserved Hturns)
      as (s1 & d & Ht & Hposts & _ & Hcount & _ & E) end.
  unfold JNone. rewrite E. cbn [app]. unfold rbind at 1. unfold rlift at 1. rewrite Hrecs. cbn [of_outcome].
  unfold in_world.
  rewrite (sync_fetched_no_op chase_data_list pipefy_records pipefy_table_id fm
             chase_map pipefy_map (outside s1) Hc Hp Hsrc Hdst).
  cbn [of_outcome].
  destruct (logged_world [LogSyncResults pipefy_table_id 0 0 0;
                          LogNoMutations; LogNoMutations; LogNoMutations;
                          LogSyncFinished pipefy_table_id] (outside s1))
    as (_ & Hp1 & _ & _ & _ & Ht1).
  eexists. eexists. split; [reflexivity|]. cbn [outside] in *.
  split; [|split].
  - rewrite Ht1, Ht. cbn [trace]. rewrite <- !app_assoc. reflexivity.
  - rewrite !posts_in_app, posts_in_logs, Hposts, app_nil_r. reflexivity.
  - rewrite Hp1. exact Hcount.
Qed.

Lemma sync_with_fetch_of_synchronized_tables_witness :
  exists s' d,
    sync_table_with_fetch 5 [ex_chase_bu] BU_AGENCY_TABLE_ID bu_agency_field_map
      (run_from (world_scripted [PostJson (JDict (page_body ex_page_3))]))
    = (Value true, s')
    /\ trace (outside s') = [] ++ d
    /\ posts_in d = [page_request BU_AGENCY_TABLE_ID PNone]
    /\ pipefy_posts (outside s') = 0 + 1.
Proof.
  apply (sync_with_fetch_of_synchronized_tables 5 [ex_chase_bu] BU_AGENCY_TABLE_ID
           bu_agency_field_map [ex_page_3] [ex_fetched_bu]
           [("6-12", ex_chase_bu)] [("6-12", ex_fetched_bu)]
           (run_from (world_scripted [PostJson (JDict (page_body ex_page_3))]))).
  - discriminate.
  - cbn [serves]. repeat split; try reflexivity. eexists; split; reflexivity.
  - cbn. lia.
  - reflexivity.
  - reflexivity.
  - reflexivity.
  - intros k r [E|[]]. injection E as <- <-. exists ex_fetched_bu. split; reflexivity.
  - intros k r [E|[]]. injection E as <- <-. left. reflexivity.
Defined.
